(** * Blog-post report pipeline: a shallow embedding of the Python sources

    The development follows the repository file by file:
    [airtable_blog_fetcher.py], [email_formatter.py], [parse_blog_posts.py]
    and [gmail_sender.py].  Python values are embedded as a small
    dynamically-typed universe, dictionaries as finite maps, exceptions as an
    error monad and the file system, console and mail transport as an explicit
    world that is threaded through the effectful functions. *)

From Stdlib Require Import ZArith List Ascii String Lia Bool Permutation Sorted.
From stdpp Require Import base option list gmap.

Local Open Scope Z_scope.

(** ** Python strings

    A Python [str] is a sequence of Unicode code points; [len] and slicing
    count code points, so the embedding keeps them as numbers. *)

Module Py.

Abbreviation char := N (only parsing).
Abbreviation str := (list N) (only parsing).

(** [lit] reads an ASCII literal of the source. *)
Definition lit (s : string) : str :=
  List.map N_of_ascii (list_ascii_of_string s).

(** The double quote, and literals of the source that contain it: in the
    argument of [litq] a backquote stands for a double quote (no literal of the
    sources holds a backquote). *)
Definition dq : N := 34%N.
Definition litq (s : string) : str :=
  List.map (fun c => if N.eqb c 96%N then dq else c) (lit s).

(** [s * n] for a one-character string. *)
Definition str_mul (s : str) (n : nat) : str := List.concat (List.repeat s n).

(** [s[:n]] for a non-negative [n]. *)
Definition slice_to (n : nat) (s : str) : str := firstn n s.

(** Lexicographic comparison by code point, which is [<] on [str]. *)
Fixpoint str_ltb (a b : str) : bool :=
  match a, b with
  | [], [] => false
  | [], _ :: _ => true
  | _ :: _, [] => false
  | x :: a', y :: b' =>
      if N.ltb x y then true
      else if N.ltb y x then false
      else str_ltb a' b'
  end.

Definition str_leb (a b : str) : bool := negb (str_ltb b a).

(** Decimal digits of a natural number, most significant first.  The fuel is
    the number itself, which bounds its number of digits. *)
Fixpoint digits_fuel (fuel : nat) (n : N) (acc : str) : str :=
  match fuel with
  | O => acc
  | S fuel' =>
      let acc' := (48 + n mod 10)%N :: acc in
      if N.ltb n 10 then acc' else digits_fuel fuel' (n / 10)%N acc'
  end.

Definition str_of_N (n : N) : str := digits_fuel (S (N.to_nat (N.log2 n))) n [].

(** [str(n)] for an [int]. *)
Definition str_of_Z (z : Z) : str :=
  match z with
  | Zneg p => 45%N :: str_of_N (Npos p)
  | _ => str_of_N (Z.to_N z)
  end.

(** ** Values

    The scalar values of a JSON document as Python sees them after
    [json.load].  Nested arrays and objects and floating-point numbers are not
    part of the embedding. *)
Inductive value :=
| VNone
| VBool (b : bool)
| VInt (n : Z)
| VStr (s : str).

#[global] Instance value_eq_dec : EqDecision value.
Proof. solve_decision. Defined.

(** Truth value testing, as [if v:] does it. *)
Definition truthy (v : value) : bool :=
  match v with
  | VNone => false
  | VBool b => b
  | VInt n => negb (n =? 0)
  | VStr s => match s with [] => false | _ => true end
  end.

(** [str(v)], which is also what an f-string field [{v}] produces. *)
Definition str_of (v : value) : str :=
  match v with
  | VNone => lit "None"
  | VBool true => lit "True"
  | VBool false => lit "False"
  | VInt n => str_of_Z n
  | VStr s => s
  end.

(** ** Exceptions *)
Inductive exn :=
| KeyError (k : str)
| TypeError
| ValueError
| FileNotFoundError
| JSONDecodeError
| RequestException (msg : str)
| SMTPAuthenticationError
| SMTPException (msg : str).

Inductive result (A : Type) :=
| Ok (a : A)
| Raise (e : exn).
Arguments Ok {A} a.
Arguments Raise {A} e.

Definition bind {A B} (m : result A) (k : A -> result B) : result B :=
  match m with
  | Ok a => k a
  | Raise e => Raise e
  end.

Definition is_ok {A} (m : result A) : bool :=
  match m with Ok _ => true | Raise _ => false end.

(** A dictionary with string keys. *)
Abbreviation dict := (gmap (list N) value) (only parsing).

(** [d[k]] *)
Definition getitem (d : dict) (k : str) : result value :=
  match d !! k with
  | Some v => Ok v
  | None => Raise (KeyError k)
  end.

(** [d.get(k, default)] *)
Definition get (d : dict) (k : str) (default : value) : value :=
  match d !! k with
  | Some v => v
  | None => default
  end.

(** [a == b], which is also the equality of dictionary keys: [bool] is a
    subtype of [int], so [True == 1] and [False == 0]. *)
Definition as_int (v : value) : value :=
  match v with
  | VBool b => VInt (if b then 1 else 0)
  | _ => v
  end.

Definition value_eqb (a b : value) : bool := bool_decide (as_int a = as_int b).

(** [v <= n] for an [int] literal [n]: numbers compare ([bool] is a subtype
    of [int]), [None] and [str] raise [TypeError]. *)
Definition le_int (v : value) (n : Z) : result bool :=
  match v with
  | VInt m => Ok (m <=? n)
  | VBool b => Ok ((if b then 1 else 0) <=? n)
  | VNone | VStr _ => Raise TypeError
  end.

(** [len(v)] *)
Definition len (v : value) : result nat :=
  match v with
  | VStr s => Ok (length s)
  | _ => Raise TypeError
  end.

(** [v[:n]] *)
Definition slice (v : value) (n : nat) : result str :=
  match v with
  | VStr s => Ok (slice_to n s)
  | _ => Raise TypeError
  end.

(** [str.isspace] of a character: the white space that [str.strip] removes. *)
Definition isspace (c : N) : bool :=
  (N.leb 9 c && N.leb c 13) || (N.leb 28 c && N.leb c 32)
  || N.eqb c 133 || N.eqb c 160 || N.eqb c 5760
  || (N.leb 8192 c && N.leb c 8202)
  || N.eqb c 8232 || N.eqb c 8233 || N.eqb c 8239 || N.eqb c 8287 || N.eqb c 12288.

(** [s.lstrip()], [s.rstrip()] and [s.strip()] *)
Fixpoint lstrip (s : str) : str :=
  match s with
  | [] => []
  | c :: s' => if isspace c then lstrip s' else s
  end.

Definition rstrip (s : str) : str := rev (lstrip (rev s)).

Definition strip (s : str) : str := rstrip (lstrip s).

(** [s.split(sep)] for a separator of one character: the pieces between the
    separators, empty pieces included. *)
Fixpoint split (sep : N) (s : str) : list str :=
  match s with
  | [] => [[]]
  | c :: s' =>
      if N.eqb c sep then [] :: split sep s'
      else match split sep s' with
           | piece :: pieces => (c :: piece) :: pieces
           | [] => [[c]]
           end
  end.

(** [s.lower()] on the letters of ASCII, which is [str.lower] wherever the
    result is compared with a word of ASCII letters other than k. *)
Definition ascii_lower (s : str) : str :=
  List.map (fun c => if (N.leb 65 c && N.leb c 90)%bool then (c + 32)%N else c) s.

End Py.

Export Py.

Declare Scope py_scope.
Delimit Scope py_scope with py.
Notation "x <- m ;; k" := (bind m (fun x => k))
  (at level 100, m at next level, right associativity) : py_scope.
Local Open Scope py_scope.

(** ** Calendar dates ([datetime.date] and [datetime.datetime])

    The proleptic Gregorian calendar of the [datetime] module: a date is a
    year, a month and a day, and its ordinal counts days from 0001-01-01. *)

Module Dates.

Record date := mkdate { year : Z; month : Z; day : Z }.

Record datetime := mkdatetime {
  dt_date : date;
  hour : Z;
  minute : Z;
  second : Z;
  microsecond : Z
}.

#[global] Instance date_eq_dec : EqDecision date.
Proof. solve_decision. Defined.

Definition is_leap (y : Z) : bool :=
  (y mod 4 =? 0) && (negb (y mod 100 =? 0) || (y mod 400 =? 0)).

Definition days_in_month (y m : Z) : Z :=
  if m =? 2 then (if is_leap y then 29 else 28)
  else if (m =? 4) || (m =? 6) || (m =? 9) || (m =? 11) then 30
  else 31.

Definition days_before_year (y : Z) : Z :=
  let p := y - 1 in p * 365 + p / 4 - p / 100 + p / 400.

(** Days of the year before the first of month [m] in a common year. *)
Definition days_before_month_common (m : Z) : Z :=
  nth (Z.to_nat m) [0; 0; 31; 59; 90; 120; 151; 181; 212; 243; 273; 304; 334] 0.

Definition days_before_month (y m : Z) : Z :=
  days_before_month_common m + (if (2 <? m) && is_leap y then 1 else 0).

Definition toordinal (d : date) : Z :=
  days_before_year (year d) + days_before_month (year d) (month d) + day d.

(** [date.fromordinal], after [_ord2ymd] of the standard library. *)
Definition fromordinal (n : Z) : date :=
  let n := n - 1 in
  let n400 := n / 146097 in
  let n := n mod 146097 in
  let n100 := n / 36524 in
  let n := n mod 36524 in
  let n4 := n / 1461 in
  let n := n mod 1461 in
  let n1 := n / 365 in
  let n := n mod 365 in
  let y := n400 * 400 + 1 + n100 * 100 + n4 * 4 + n1 in
  if (n1 =? 4) || (n100 =? 4) then mkdate (y - 1) 12 31
  else
    let leapyear := (n1 =? 3) && (negb (n4 =? 24) || (n100 =? 3)) in
    let m := Z.shiftr (n + 50) 5 in
    let preceding := days_before_month_common m + (if (2 <? m) && leapyear then 1 else 0) in
    if n <? preceding then
      let m' := m - 1 in
      let preceding' :=
        preceding - (nth (Z.to_nat m') [0; 31; 28; 31; 30; 31; 30; 31; 31; 30; 31; 30; 31] 0
                     + (if (m' =? 2) && leapyear then 1 else 0)) in
      mkdate y m' (n - preceding' + 1)
    else mkdate y m (n - preceding + 1).

(** [d + timedelta(days=k)]; the result is assumed to stay below [date.max]. *)
Definition add_days (d : date) (k : Z) : date := fromordinal (toordinal d + k).

(** [(a - b).days] *)
Definition days_between (a b : date) : Z := toordinal a - toordinal b.

(** [a < b] on dates. *)
Definition date_ltb (a b : date) : bool :=
  (year a <? year b)
  || ((year a =? year b)
      && ((month a <? month b) || ((month a =? month b) && (day a <? day b)))).

(** [date.weekday()]: Monday is 0. *)
Definition weekday (d : date) : Z := (toordinal d + 6) mod 7.

(** A number in decimal, zero-padded on the left to [w] digits. *)
Definition pad (w : nat) (n : Z) : str :=
  let s := str_of_Z n in
  List.repeat 48%N (w - length s) ++ s.

(** [date.isoformat()] *)
Definition isoformat (d : date) : str :=
  pad 4 (year d) ++ lit "-" ++ pad 2 (month d) ++ lit "-" ++ pad 2 (day d).

Definition digit_val (c : N) : option Z :=
  if (N.leb 48 c && N.leb c 57)%bool then Some (Z.of_N c - 48) else None.

Fixpoint number (s : str) (acc : Z) : option Z :=
  match s with
  | [] => Some acc
  | c :: s' =>
      match digit_val c with
      | Some v => number s' (acc * 10 + v)
      | None => None
      end
  end.

(** The calendar form [YYYY-MM-DD]: ten characters, digits around two
    hyphens.  It is the form in which the records source delivers a date
    field, and every version of the interpreter reads it in the same way. *)
Definition calendar_form (s : str) : bool :=
  match s with
  | [y1; y2; y3; y4; s1; m1; m2; s2; d1; d2] =>
      forallb (fun c => N.leb 48 c && N.leb c 57) [y1; y2; y3; y4; m1; m2; d1; d2]
      && N.eqb s1 45 && N.eqb s2 45
  | _ => false
  end.

(** The date that a string of the calendar form denotes, if its numbers
    are those of a date. *)
Definition calendar_date (s : str) : option date :=
  match s with
  | [y1; y2; y3; y4; s1; m1; m2; s2; d1; d2] =>
      match number [y1; y2; y3; y4] 0, number [m1; m2] 0, number [d1; d2] 0 with
      | Some y, Some m, Some d =>
          if (N.eqb s1 45 && N.eqb s2 45)%bool
             && (1 <=? y) && (1 <=? m) && (m <=? 12)
             && (1 <=? d) && (d <=? days_in_month y m)
          then Some (mkdate y m d)
          else None
      | _, _, _ => None
      end
  | _ => None
  end.

Definition day_name (d : date) : str :=
  nth (Z.to_nat (weekday d))
    [lit "Monday"; lit "Tuesday"; lit "Wednesday"; lit "Thursday";
     lit "Friday"; lit "Saturday"; lit "Sunday"] [].

Definition month_name (d : date) : str :=
  nth (Z.to_nat (month d))
    [[]; lit "January"; lit "February"; lit "March"; lit "April"; lit "May";
     lit "June"; lit "July"; lit "August"; lit "September"; lit "October";
     lit "November"; lit "December"] [].

(** [strftime('%A, %B %d, %Y')] *)
Definition strftime_long (d : date) : str :=
  day_name d ++ lit ", " ++ month_name d ++ lit " " ++ pad 2 (day d)
  ++ lit ", " ++ str_of_Z (year d).

(** [strftime('%B %d, %Y at %I:%M %p')] *)
Definition strftime_generated (t : datetime) : str :=
  let d := dt_date t in
  let h12 := if hour t mod 12 =? 0 then 12 else hour t mod 12 in
  month_name d ++ lit " " ++ pad 2 (day d) ++ lit ", " ++ str_of_Z (year d)
  ++ lit " at " ++ pad 2 h12 ++ lit ":" ++ pad 2 (minute t) ++ lit " "
  ++ (if hour t <? 12 then lit "AM" else lit "PM").

(** [strftime('%Y-%m-%d %H:%M')] *)
Definition strftime_minute (t : datetime) : str :=
  let d := dt_date t in
  str_of_Z (year d) ++ lit "-" ++ pad 2 (month d) ++ lit "-" ++ pad 2 (day d)
  ++ lit " " ++ pad 2 (hour t) ++ lit ":" ++ pad 2 (minute t).

(** [datetime.isoformat()]: the fraction is printed when it is not zero. *)
Definition dt_isoformat (t : datetime) : str :=
  isoformat (dt_date t) ++ lit "T" ++ pad 2 (hour t) ++ lit ":" ++ pad 2 (minute t)
  ++ lit ":" ++ pad 2 (second t)
  ++ (if microsecond t =? 0 then [] else lit "." ++ pad 6 (microsecond t)).

End Dates.

Export Dates.


(** ** The world outside the program

    Environment variables, the clock, the records service, the mail transport,
    the files the pipeline reads and writes, and the console.  Every effectful
    function of the sources is a function from a [world] to a result and the
    world it leaves behind. *)

Module World.

(** One record of the persisted record set, and of every list of posts the
    formatters work on: a Python [dict]. *)
Abbreviation post := (gmap (list N) value) (only parsing).

(** A record as the records service delivers it: [{"id": ..., "fields": {...}}],
    either key possibly absent. *)
Record raw_record := mkraw {
  raw_id : option value;
  raw_fields : option (gmap (list N) value)
}.

(** What [requests.get] followed by [raise_for_status] and [response.json()]
    can do.  A response with a success status carries a JSON object, whose
    ["records"] entry may be absent. *)
Inductive http_result :=
| ConnectionFailed (msg : str)
| BadStatus (msg : str) (text : str)
| Success (records : option (list raw_record)).

Record request := mkrequest {
  url : str;
  filterByFormula : str;
  sort_field : str;
  sort_direction : str
}.

(** How far the body of the [with smtplib.SMTP(...)] block gets: it ends
    with the exception of [starttls], of [login] or of [send_message], or it
    gets past [send_message]. *)
Inductive session_end :=
| AtStarttls
| AtLogin
| AtSend
| Completed.

(** What one SMTP session does.  The transport can refuse the connection, so
    that the block is not entered.  Inside the block it can refuse the TLS
    upgrade, reject the credentials at [login], refuse the message at
    [send_message], or accept it; in these four cases it answers the [QUIT]
    that [SMTP.__exit__] sends with the code 221, or the connection is gone
    by then, which [__exit__] ignores.  In the last case the body of the
    block gets as far as [reached] says and the transport answers [QUIT]
    with another code, for which [__exit__] raises [SMTPResponseException]:
    that exception takes the place of the [return True] of the body, and of
    the exception with which the body ended. *)
Inductive smtp_behaviour :=
| ConnectFails (msg : str)
| StarttlsFails (msg : str)
| LoginRejected
| SendFails (msg : str)
| Accepts
| QuitRefused (reached : session_end) (msg : str).

(** A JSON file: absent, unreadable as JSON of the expected shape, or holding
    a document. *)
Inductive file (A : Type) :=
| Absent
| Corrupt
| Document (doc : A).
Arguments Absent {A}.
Arguments Corrupt {A}.
Arguments Document {A} doc.

Record log_entry := mklog {
  timestamp : str;
  recipient : str;
  post_count : Z;
  sender : str
}.

(** A composed message: its headers, the two bodies and the attachment. *)
Record message := mkmessage {
  Subject : str;
  From : str;
  To : str;
  Date : str;
  Cc : option str;
  X_Priority : str;
  X_Mailer : str;
  text_part : str;
  html_part : str;
  attachment : option (str * file (list (gmap (list N) value)))
}.

(** [describe] is the interpreter's [str(e)] of an exception and [repr] its
    [repr(s)] of a string; [iso_beyond s] is the date that its
    [datetime.fromisoformat] reads from a string [s] that is not of the
    calendar form, if it reads one: that depends on the version of the
    interpreter.  [smtp n] is what the transport does in the [n]-th session
    that the program opens. *)
Record world := mkworld {
  now : datetime;
  AIRTABLE_DUE_DATE_FIELD : option str;
  GMAIL_ATTACH_JSON : option str;
  http : request -> http_result;
  smtp : nat -> smtp_behaviour;
  describe : exn -> str;
  repr : str -> str;
  iso_beyond : str -> option date;
  sessions : nat;
  blog_posts_due_json : file (list (gmap (list N) value));
  email_send_log_json : file (list log_entry);
  blog_posts_report_md : option str;
  blog_posts_csv : option str;
  outbox : list (message * list str);
  console : list str
}.

(** [os.getenv(name, default)] *)
Definition getenv (v : option str) (default : str) : str :=
  match v with Some s => s | None => default end.

Definition today (w : world) : date := dt_date (now w).

(** [datetime.fromisoformat(v).date()]: only a [str] is parsed.  A string of
    the calendar form is read as the date that it denotes, and any other
    string as the interpreter of the world reads it; a string that is not
    read raises [ValueError]. *)
Definition fromisoformat (w : world) (v : value) : result date :=
  match v with
  | VStr s =>
      match (if calendar_form s then calendar_date s else iso_beyond w s) with
      | Some d => Ok d
      | None => Raise ValueError
      end
  | _ => Raise TypeError
  end.

(** [print(line)] *)
Definition print (line : str) (w : world) : world :=
  mkworld (now w) (AIRTABLE_DUE_DATE_FIELD w) (GMAIL_ATTACH_JSON w) (http w) (smtp w)
    (describe w) (repr w) (iso_beyond w)
    (sessions w) (blog_posts_due_json w) (email_send_log_json w)
    (blog_posts_report_md w) (blog_posts_csv w) (outbox w) (console w ++ [line]).

Definition prints (lines : list str) (w : world) : world :=
  fold_left (fun w l => print l w) lines w.

Definition set_posts_file (f : file (list (gmap (list N) value))) (w : world) : world :=
  mkworld (now w) (AIRTABLE_DUE_DATE_FIELD w) (GMAIL_ATTACH_JSON w) (http w) (smtp w)
    (describe w) (repr w) (iso_beyond w)
    (sessions w) f (email_send_log_json w)
    (blog_posts_report_md w) (blog_posts_csv w) (outbox w) (console w).

Definition set_log_file (f : file (list log_entry)) (w : world) : world :=
  mkworld (now w) (AIRTABLE_DUE_DATE_FIELD w) (GMAIL_ATTACH_JSON w) (http w) (smtp w)
    (describe w) (repr w) (iso_beyond w)
    (sessions w) (blog_posts_due_json w) f
    (blog_posts_report_md w) (blog_posts_csv w) (outbox w) (console w).

Definition set_md_file (s : str) (w : world) : world :=
  mkworld (now w) (AIRTABLE_DUE_DATE_FIELD w) (GMAIL_ATTACH_JSON w) (http w) (smtp w)
    (describe w) (repr w) (iso_beyond w)
    (sessions w) (blog_posts_due_json w) (email_send_log_json w)
    (Some s) (blog_posts_csv w) (outbox w) (console w).

Definition set_csv_file (s : str) (w : world) : world :=
  mkworld (now w) (AIRTABLE_DUE_DATE_FIELD w) (GMAIL_ATTACH_JSON w) (http w) (smtp w)
    (describe w) (repr w) (iso_beyond w)
    (sessions w) (blog_posts_due_json w) (email_send_log_json w)
    (blog_posts_report_md w) (Some s) (outbox w) (console w).

(** Opening an SMTP session consumes the next behaviour of the transport. *)
Definition open_session (w : world) : smtp_behaviour * world :=
  (smtp w (sessions w),
   mkworld (now w) (AIRTABLE_DUE_DATE_FIELD w) (GMAIL_ATTACH_JSON w) (http w) (smtp w)
    (describe w) (repr w) (iso_beyond w)
     (S (sessions w)) (blog_posts_due_json w) (email_send_log_json w)
     (blog_posts_report_md w) (blog_posts_csv w) (outbox w) (console w)).

(** The transport accepts a message for a list of recipients. *)
Definition deliver (m : message) (to_addrs : list str) (w : world) : world :=
  mkworld (now w) (AIRTABLE_DUE_DATE_FIELD w) (GMAIL_ATTACH_JSON w) (http w) (smtp w)
    (describe w) (repr w) (iso_beyond w)
    (sessions w) (blog_posts_due_json w) (email_send_log_json w)
    (blog_posts_report_md w) (blog_posts_csv w) (outbox w ++ [(m, to_addrs)]) (console w).

(** The time passes between two runs of the pipeline. *)
Definition at_time (t : datetime) (w : world) : world :=
  mkworld t (AIRTABLE_DUE_DATE_FIELD w) (GMAIL_ATTACH_JSON w) (http w) (smtp w)
    (describe w) (repr w) (iso_beyond w)
    (sessions w) (blog_posts_due_json w) (email_send_log_json w)
    (blog_posts_report_md w) (blog_posts_csv w) (outbox w) (console w).

(** The environment variables that the two constructors and
    [automated_send] read. *)
Record environ := mkenviron {
  AIRTABLE_API_KEY : option str;
  AIRTABLE_BASE_ID : option str;
  AIRTABLE_TABLE_NAME : option str;
  GMAIL_SENDER_EMAIL : option str;
  GMAIL_APP_PASSWORD : option str;
  GMAIL_SENDER_NAME : option str;
  GMAIL_AUTO_RECIPIENTS : option str
}.

(** A sequence of [print] statements, some of them under a condition: a
    statement whose argument or condition raises ends the sequence, and the
    lines before it stay printed. *)
Fixpoint run_prints (steps : list (result (option str))) (w : world) : result unit * world :=
  match steps with
  | [] => (Ok tt, w)
  | Raise e :: _ => (Raise e, w)
  | Ok None :: rest => run_prints rest w
  | Ok (Some line) :: rest => run_prints rest (print line w)
  end.

End World.

Export World.

(** ** airtable_blog_fetcher.py *)

Module AirtableBlogFetcher.

Record t := mkfetcher {
  api_key : str;
  base_id : str;
  table_name : str
}.

(** [__init__]: the credentials come from the environment; a missing or
    empty key or base raises [ValueError]. *)
Definition __init__ (env : environ) : result t :=
  let api_key := AIRTABLE_API_KEY env in
  let base_id := AIRTABLE_BASE_ID env in
  let table_name := getenv (AIRTABLE_TABLE_NAME env) (lit "Blog Posts") in
  match api_key, base_id with
  | Some (k :: ey), Some (b :: ase) => Ok (mkfetcher (k :: ey) (b :: ase) table_name)
  | _, _ => Raise ValueError
  end.

(** [self.base_url] *)
Definition base_url (self : t) : str :=
  lit "https://api.airtable.com/v0/" ++ base_id self ++ lit "/" ++ table_name self.

Definition due_date_field (w : world) : str :=
  getenv (AIRTABLE_DUE_DATE_FIELD w) (lit "Due Date").

(** The filter formula of [get_posts_due_this_week]. *)
Definition filter_formula (field today_str week_str : str) : str :=
  lit "AND(IS_AFTER({" ++ field ++ lit "}, '" ++ today_str
  ++ lit "'), IS_BEFORE({" ++ field ++ lit "}, '" ++ week_str ++ lit "'))".

(** The request that [get_posts_due_this_week] sends. *)
Definition build_request (self : t) (w : world) : request :=
  let today := today w in
  let week_from_now := add_days today 7 in
  let today_str := isoformat today in
  let week_str := isoformat week_from_now in
  let due_date_field := due_date_field w in
  mkrequest (base_url self)
    (filter_formula due_date_field today_str week_str)
    due_date_field
    (lit "asc").

(** One iteration of the loop of [_process_records]. *)
Definition process_record (w : world) (record : raw_record) : result post :=
  let fields := default ∅ (raw_fields record) in
  let due := get fields (due_date_field w) VNone in
  let post_data : gmap (list N) value :=
    <[lit "priority" := get fields (lit "Priority") (VStr (lit "Medium"))]>
    (<[lit "word_count_target" := get fields (lit "Word Count Target") (VInt 0)]>
    (<[lit "notes" := get fields (lit "Notes") (VStr [])]>
    (<[lit "category" := get fields (lit "Category") (VStr [])]>
    (<[lit "author" := get fields (lit "Author") (VStr (lit "Unassigned"))]>
    (<[lit "status" := get fields (lit "Status") (VStr (lit "Not Started"))]>
    (<[lit "due_date" := due]>
    (<[lit "title" := get fields (lit "Title") (VStr (lit "Untitled"))]>
    (<[lit "id" := default VNone (raw_id record)]> ∅)))))))) in
  if truthy due then
    due_date <- fromisoformat w due ;;
    let days_until_due := days_between due_date (today w) in
    Ok (<[lit "days_until_due" := VInt days_until_due]> post_data)
  else Ok post_data.

Fixpoint _process_records (w : world) (records : list raw_record) : result (list post) :=
  match records with
  | [] => Ok []
  | record :: rest =>
      post_data <- process_record w record ;;
      processed_posts <- _process_records w rest ;;
      Ok (post_data :: processed_posts)
  end.

(** [get_posts_due_this_week]: the [try] block catches the
    [RequestException]s of the transport; an exception of another class,
    raised while the records are processed, leaves the function. *)
Definition get_posts_due_this_week (self : t) (w : world) : result (list post) * world :=
  match http w (build_request self w) with
  | Success records => (_process_records w (default [] records), w)
  | ConnectionFailed msg =>
      (Ok [], print (lit "Error fetching data from Airtable: " ++ msg) w)
  | BadStatus msg text =>
      (Ok [],
       print (lit "Response: " ++ text)
         (print (lit "Error fetching data from Airtable: " ++ msg) w))
  end.

(** [export_to_json]: [json.dump] writes the record set, and prints a
    confirmation. *)
Definition export_to_json (posts : list post) (w : world) : world :=
  print ([8218%N; 250%N; 214%N] ++ lit " Exported " ++ str_of_Z (Z.of_nat (length posts))
         ++ lit " posts to blog_posts_due.json")
    (set_posts_file (Document posts) w).

(** The [print] statements of [display_posts] for one post. *)
Definition display_post (post : post) : list (result (option str)) :=
  [ (title <- getitem post (lit "title") ;;
     Ok (Some ([10%N] ++ [63743%N; 252%N; 236%N; 229%N] ++ lit " " ++ str_of title)));
    (due_date <- getitem post (lit "due_date") ;;
     Ok (Some (lit "   Due: " ++ str_of due_date ++ lit " ("
               ++ str_of (get post (lit "days_until_due") (VStr (lit "N/A")))
               ++ lit " days)")));
    (status <- getitem post (lit "status") ;;
     Ok (Some (lit "   Status: " ++ str_of status)));
    (author <- getitem post (lit "author") ;;
     Ok (Some (lit "   Author: " ++ str_of author)));
    (priority <- getitem post (lit "priority") ;;
     Ok (Some (lit "   Priority: " ++ str_of priority)));
    (category <- getitem post (lit "category") ;;
     if truthy category then
       category <- getitem post (lit "category") ;;
       Ok (Some (lit "   Category: " ++ str_of category))
     else Ok None);
    (word_count_target <- getitem post (lit "word_count_target") ;;
     if truthy word_count_target then
       word_count_target <- getitem post (lit "word_count_target") ;;
       Ok (Some (lit "   Target Word Count: " ++ str_of word_count_target))
     else Ok None);
    (notes <- getitem post (lit "notes") ;;
     if truthy notes then
       notes <- getitem post (lit "notes") ;;
       excerpt <- slice notes 100 ;;
       notes <- getitem post (lit "notes") ;;
       n <- len notes ;;
       Ok (Some (lit "   Notes: " ++ excerpt ++ (if Nat.ltb 100 n then lit "..." else [])))
     else Ok None) ].

(** [display_posts] *)
Definition display_posts (posts : list post) (w : world) : result unit * world :=
  match posts with
  | [] => (Ok tt, print (lit "No blog posts due this week.") w)
  | _ :: _ =>
      let w :=
        print ([10%N] ++ [63743%N; 252%N; 236%N; 249%N] ++ lit " Blog Posts Due This Week ("
               ++ str_of_Z (Z.of_nat (length posts)) ++ lit " total)") w in
      let w := print (str_mul (lit "=") 60) w in
      match run_prints (List.concat (List.map display_post posts)) w with
      | (Ok _, w) => (Ok tt, print ([10%N] ++ str_mul (lit "=") 60) w)
      | (Raise e, w) => (Raise e, w)
      end
  end.

(** The two [except] clauses of [main]; [json.JSONDecodeError] is a
    subclass of [ValueError]. *)
Definition on_exception (e : exn) (w : world) : list post * world :=
  match e with
  | ValueError | JSONDecodeError =>
      ([],
       prints
         [[8218%N; 249%N; 229%N] ++ lit " Configuration Error: " ++ describe w e;
          [10%N] ++ lit "Please ensure you have set up your .env file with:";
          lit "  - AIRTABLE_API_KEY";
          lit "  - AIRTABLE_BASE_ID";
          lit "  - AIRTABLE_TABLE_NAME (optional, defaults to 'Blog Posts')";
          lit "  - AIRTABLE_DUE_DATE_FIELD (optional, defaults to 'Due Date')"] w)
  | _ => ([], print ([8218%N; 249%N; 229%N] ++ lit " Unexpected error: " ++ describe w e) w)
  end.

(** [main]; [answer] is what the operator types when [input] asks whether
    to export. *)
Definition main (env : environ) (answer : str) (w : world) : list post * world :=
  match __init__ env with
  | Raise e => on_exception e w
  | Ok fetcher =>
      let w := print ([63743%N; 252%N; 238%N; 231%N]
                      ++ lit " Fetching blog posts from Airtable...") w in
      match get_posts_due_this_week fetcher w with
      | (Raise e, w) => on_exception e w
      | (Ok posts, w) =>
          match display_posts posts w with
          | (Raise e, w) => on_exception e w
          | (Ok _, w) =>
              match posts with
              | [] => (posts, w)
              | _ :: _ =>
                  let w := print ([10%N] ++ lit "Export to JSON file? (y/n): ") w in
                  let export_choice := ascii_lower answer in
                  if decide (export_choice = lit "y")
                  then (posts, export_to_json posts w)
                  else (posts, w)
              end
          end
      end
  end.

End AirtableBlogFetcher.

(** ** fetch_and_export.py *)

Module FetchAndExport.

Import AirtableBlogFetcher.

(** [main]: every exception is caught and reported, and the result is then
    the empty list. *)
Definition main (env : environ) (w : world) : list post * world :=
  let on_exception (e : exn) (w : world) : list post * world :=
    ([], print ([10060%N] ++ lit " Error: " ++ describe w e) w) in
  match __init__ env with
  | Raise e => on_exception e w
  | Ok fetcher =>
      let w := print ([128269%N] ++ lit " Fetching blog posts from Airtable...") w in
      match get_posts_due_this_week fetcher w with
      | (Raise e, w) => on_exception e w
      | (Ok posts, w) =>
          match display_posts posts w with
          | (Raise e, w) => on_exception e w
          | (Ok _, w) =>
              match posts with
              | [] => (posts, w)
              | _ :: _ =>
                  let w := export_to_json posts w in
                  let w := print ([10%N] ++ [128202%N] ++ lit " Summary: "
                                  ++ str_of_Z (Z.of_nat (length posts))
                                  ++ lit " blog posts due this week") w in
                  (posts, w)
              end
          end
      end
  end.

End FetchAndExport.

(** ** email_formatter.py *)

Module EmailFormatter.

Definition nl : str := [10%N].

(** [load_blog_posts]: [open] raises [FileNotFoundError] when there is no
    file, [json.load] raises when the file does not hold a document. *)
Definition load_blog_posts (w : world) : result (list post) :=
  match blog_posts_due_json w with
  | Absent => Raise FileNotFoundError
  | Corrupt => Raise JSONDecodeError
  | Document posts => Ok posts
  end.

(** [posts_by_date]: a [defaultdict(list)], kept in insertion order. *)
Abbreviation groups := (list (value * list (gmap (list N) value))) (only parsing).

(** [posts_by_date[key].append(post)]: the post goes to the entry whose key
    is equal to [key], and the dictionary keeps the key that it has; a key
    that the dictionary does not have is added at the end. *)
Fixpoint append_to (key : value) (post : post) (posts_by_date : groups) : groups :=
  match posts_by_date with
  | [] => [(key, [post])]
  | (k, ps) :: rest =>
      if value_eqb k key then (k, ps ++ [post]) :: rest
      else (k, ps) :: append_to key post rest
  end.

(** [for post in posts: posts_by_date[post['due_date']].append(post)] *)
Fixpoint group_by_date (posts : list post) (posts_by_date : groups) : result groups :=
  match posts with
  | [] => Ok posts_by_date
  | post :: rest =>
      key <- getitem post (lit "due_date") ;;
      group_by_date rest (append_to key post posts_by_date)
  end.

(** [posts_by_date[date]] for a key of the dictionary: the list of the
    entry whose key is equal to [date]. *)
Fixpoint group_of (date : value) (posts_by_date : groups) : list post :=
  match posts_by_date with
  | [] => []
  | (k, ps) :: rest => if value_eqb k date then ps else group_of date rest
  end.

(** [a < b] on values: strings compare with strings and numbers with numbers;
    every other pair raises [TypeError]. *)
Definition lt (a b : value) : result bool :=
  match a, b with
  | VStr x, VStr y => Ok (str_ltb x y)
  | VInt x, VInt y => Ok (x <? y)
  | VInt x, VBool y => Ok (x <? (if y then 1 else 0))
  | VBool x, VInt y => Ok ((if x then 1 else 0) <? y)
  | VBool x, VBool y => Ok ((if x then 1 else 0) <? (if y then 1 else 0))
  | _, _ => Raise TypeError
  end.

(** [sorted]: a stable sort by [<]; an element is inserted behind the
    elements that are not greater than it. *)
Fixpoint insert_sorted (x : value) (l : list value) : result (list value) :=
  match l with
  | [] => Ok [x]
  | y :: l' =>
      b <- lt x y ;;
      if b then Ok (x :: y :: l')
      else (r <- insert_sorted x l' ;; Ok (y :: r))
  end.

Fixpoint sorted_from (l : list value) (acc : list value) : result (list value) :=
  match l with
  | [] => Ok acc
  | x :: l' => acc' <- insert_sorted x acc ;; sorted_from l' acc'
  end.

Definition sorted (l : list value) : result (list value) := sorted_from l [].

(** [len([p for p in posts if p['days_until_due'] <= 2])] *)
Fixpoint count_urgent (posts : list post) : result Z :=
  match posts with
  | [] => Ok 0
  | p :: rest =>
      d <- getitem p (lit "days_until_due") ;;
      b <- le_int d 2 ;;
      n <- count_urgent rest ;;
      Ok (if b then 1 + n else n)
  end.

(** [len([p for p in posts if p['status'] == 'Not Started'])] *)
Fixpoint count_not_started (posts : list post) : result Z :=
  match posts with
  | [] => Ok 0
  | p :: rest =>
      s <- getitem p (lit "status") ;;
      n <- count_not_started rest ;;
      Ok (if decide (s = VStr (lit "Not Started")) then 1 + n else n)
  end.

(** [notes[:budget] + '...' if len(notes) > budget else notes] *)
Definition notes_preview (budget : nat) (notes : value) : result value :=
  n <- len notes ;;
  if Nat.ltb budget n then
    (s <- slice notes budget ;; Ok (VStr (s ++ lit "...")))
  else Ok notes.

Definition html_head : str :=
  lit "
    <!DOCTYPE html>
    <html>
    <head>
        <style>
            body {
                font-family: -apple-system, BlinkMacSystemFont, 'Segoe UI', Roboto, 'Helvetica Neue', Arial, sans-serif;
                line-height: 1.6;
                color: #333;
                max-width: 800px;
                margin: 0 auto;
                padding: 20px;
            }
            h1 {
                color: #2c3e50;
                border-bottom: 3px solid #3498db;
                padding-bottom: 10px;
            }
            h2 {
                color: #34495e;
                margin-top: 30px;
                background: #ecf0f1;
                padding: 10px;
                border-left: 4px solid #3498db;
            }
            .stats {
                background: #f8f9fa;
                border: 1px solid #dee2e6;
                border-radius: 5px;
                padding: 15px;
                margin: 20px 0;
            }
            .stat-item {
                display: inline-block;
                margin-right: 30px;
                font-size: 16px;
            }
            .stat-number {
                font-size: 24px;
                font-weight: bold;
                color: #3498db;
            }
            .post-card {
                background: white;
                border: 1px solid #e1e4e8;
                border-radius: 5px;
                padding: 15px;
                margin: 10px 0;
                box-shadow: 0 1px 3px rgba(0,0,0,0.1);
            }
            .post-title {
                font-size: 18px;
                font-weight: bold;
                color: #2c3e50;
                margin-bottom: 10px;
            }
            .post-meta {
                font-size: 14px;
                color: #666;
                line-height: 1.8;
            }
            .urgent {
                background: #fff3cd;
                border-color: #ffc107;
            }
            .label {
                display: inline-block;
                padding: 2px 8px;
                border-radius: 3px;
                font-size: 12px;
                font-weight: bold;
                text-transform: uppercase;
                margin-right: 5px;
            }
            .label-urgent {
                background: #dc3545;
                color: white;
            }
            .label-soon {
                background: #ffc107;
                color: #333;
            }
            .label-medium {
                background: #6c757d;
                color: white;
            }
            .footer {
                margin-top: 40px;
                padding-top: 20px;
                border-top: 1px solid #dee2e6;
                font-size: 12px;
                color: #6c757d;
                text-align: center;
            }
        </style>
    </head>
    <body>
    ".

Definition html_header (generated total_posts urgent_posts not_started : str) : str :=
  lit "
        <h1>"
  ++ [128221%N]
  ++ lit " Weekly Blog Post Schedule</h1>
        <p><strong>Report Generated:</strong> "
  ++ generated
  ++ litq "</p>
        
        <div class=`stats`>
            <div class=`stat-item`>
                <div class=`stat-number`>"
  ++ total_posts
  ++ litq "</div>
                <div>Total Posts Due</div>
            </div>
            <div class=`stat-item`>
                <div class=`stat-number` style=`color: #dc3545;`>"
  ++ urgent_posts
  ++ lit "</div>
                <div>Urgent ("
  ++ [8804%N]
  ++ litq "2 days)</div>
            </div>
            <div class=`stat-item`>
                <div class=`stat-number` style=`color: #ffc107;`>"
  ++ not_started
  ++ lit "</div>
                <div>Not Started</div>
            </div>
        </div>
    ".

Definition html_footer : str :=
  litq "
        <div class=`footer`>
            <p>This report was automatically generated from Airtable data.</p>
            <p>To update the data, please visit your <a href=`https://airtable.com/appfjLaSUBn8FUYYz/tblrH6OO1ulOnDS4S`>Airtable Base</a></p>
        </div>
    </body>
    </html>
    ".

(** The card of one post: the body of the inner loop of [create_html_email]. *)
Definition html_card (post : post) : result str :=
  d <- getitem post (lit "days_until_due") ;;
  urgent <- le_int d 2 ;;
  let card_class := if urgent then lit "post-card urgent" else lit "post-card" in
  title <- getitem post (lit "title") ;;
  status <- getitem post (lit "status") ;;
  priority <- getitem post (lit "priority") ;;
  days_until_due <- getitem post (lit "days_until_due") ;;
  let html :=
    litq "<div class=`" ++ card_class ++ litq "`>" ++ nl
    ++ litq "  <div class=`post-title`>" ++ str_of title ++ lit "</div>" ++ nl
    ++ litq "  <div class=`post-meta`>" ++ nl
    ++ lit "    <strong>Status:</strong> " ++ str_of status ++ lit " | "
    ++ lit "    <strong>Priority:</strong> " ++ str_of priority ++ lit " | "
    ++ lit "    <strong>Days Until Due:</strong> " ++ str_of days_until_due
    ++ lit "<br>" ++ nl in
  author <- getitem post (lit "author") ;;
  html <-
    (if decide (author <> VStr (lit "Unassigned")) then
       author <- getitem post (lit "author") ;;
       Ok (html ++ lit "    <strong>Author:</strong> " ++ str_of author ++ lit "<br>" ++ nl)
     else Ok html) ;;
  category <- getitem post (lit "category") ;;
  html <-
    (if truthy category then
       category <- getitem post (lit "category") ;;
       Ok (html ++ lit "    <strong>Category:</strong> " ++ str_of category ++ lit "<br>" ++ nl)
     else Ok html) ;;
  word_count_target <- getitem post (lit "word_count_target") ;;
  html <-
    (if truthy word_count_target then
       word_count_target <- getitem post (lit "word_count_target") ;;
       Ok (html ++ lit "    <strong>Target Word Count:</strong> "
           ++ str_of word_count_target ++ lit "<br>" ++ nl)
     else Ok html) ;;
  notes <- getitem post (lit "notes") ;;
  html <-
    (if truthy notes then
       notes_preview <- notes_preview 150 notes ;;
       Ok (html ++ lit "    <strong>Notes:</strong> " ++ str_of notes_preview
           ++ lit "<br>" ++ nl)
     else Ok html) ;;
  Ok (html ++ lit "  </div>" ++ nl ++ lit "</div>" ++ nl).

Fixpoint html_cards (posts : list post) : result str :=
  match posts with
  | [] => Ok []
  | post :: rest =>
      card <- html_card post ;;
      cards <- html_cards rest ;;
      Ok (card ++ cards)
  end.

(** The section of one due date: the body of the outer loop. *)
Definition html_section (w : world) (posts_by_date : groups) (date : value) : result str :=
  due_date <- fromisoformat w date ;;
  let date_str := strftime_long due_date in
  let days_until := days_between due_date (today w) in
  let html :=
    lit "<h2>" ++ date_str
    ++ (if days_until <=? 1 then litq " <span class=`label label-urgent`>URGENT</span>"
        else if days_until <=? 2 then litq " <span class=`label label-soon`>DUE SOON</span>"
        else [])
    ++ lit "</h2>" ++ nl in
  cards <- html_cards (group_of date posts_by_date) ;;
  Ok (html ++ cards).

Fixpoint html_sections (w : world) (posts_by_date : groups) (dates : list value) : result str :=
  match dates with
  | [] => Ok []
  | date :: rest =>
      section <- html_section w posts_by_date date ;;
      sections <- html_sections w posts_by_date rest ;;
      Ok (section ++ sections)
  end.

Definition create_html_email (w : world) (posts : list post) : result str :=
  posts_by_date <- group_by_date posts [] ;;
  let total_posts := Z.of_nat (length posts) in
  urgent_posts <- count_urgent posts ;;
  not_started <- count_not_started posts ;;
  let html :=
    html_head
    ++ html_header (strftime_generated (now w)) (str_of_Z total_posts)
         (str_of_Z urgent_posts) (str_of_Z not_started) in
  dates <- sorted (List.map fst posts_by_date) ;;
  sections <- html_sections w posts_by_date dates ;;
  Ok (html ++ sections ++ html_footer).

(** One numbered entry of [create_plain_text_email]. *)
Definition text_entry (i : Z) (post : post) : result str :=
  title <- getitem post (lit "title") ;;
  status <- getitem post (lit "status") ;;
  priority <- getitem post (lit "priority") ;;
  days_until_due <- getitem post (lit "days_until_due") ;;
  let text :=
    str_of_Z i ++ lit ". " ++ str_of title ++ nl
    ++ lit "   Status: " ++ str_of status ++ nl
    ++ lit "   Priority: " ++ str_of priority ++ nl
    ++ lit "   Days Until Due: " ++ str_of days_until_due ++ nl in
  author <- getitem post (lit "author") ;;
  text <-
    (if decide (author <> VStr (lit "Unassigned")) then
       author <- getitem post (lit "author") ;;
       Ok (text ++ lit "   Author: " ++ str_of author ++ nl)
     else Ok text) ;;
  category <- getitem post (lit "category") ;;
  text <-
    (if truthy category then
       category <- getitem post (lit "category") ;;
       Ok (text ++ lit "   Category: " ++ str_of category ++ nl)
     else Ok text) ;;
  word_count_target <- getitem post (lit "word_count_target") ;;
  text <-
    (if truthy word_count_target then
       word_count_target <- getitem post (lit "word_count_target") ;;
       Ok (text ++ lit "   Target Words: " ++ str_of word_count_target ++ nl)
     else Ok text) ;;
  notes <- getitem post (lit "notes") ;;
  text <-
    (if truthy notes then
       notes_preview <- notes_preview 100 notes ;;
       Ok (text ++ lit "   Notes: " ++ str_of notes_preview ++ nl)
     else Ok text) ;;
  Ok (text ++ nl).

(** [for i, post in enumerate(posts, i)] *)
Fixpoint text_entries (i : Z) (posts : list post) : result str :=
  match posts with
  | [] => Ok []
  | post :: rest =>
      entry <- text_entry i post ;;
      entries <- text_entries (i + 1) rest ;;
      Ok (entry ++ entries)
  end.

Definition text_section (w : world) (posts_by_date : groups) (date : value) : result str :=
  due_date <- fromisoformat w date ;;
  let date_str := strftime_long due_date in
  let days_until := days_between due_date (today w) in
  let text :=
    nl ++ str_mul (lit "=") 60 ++ nl
    ++ date_str
    ++ (if days_until <=? 1 then lit " [URGENT]"
        else if days_until <=? 2 then lit " [DUE SOON]"
        else [])
    ++ nl ++ str_mul (lit "=") 60 ++ nl ++ nl in
  entries <- text_entries 1 (group_of date posts_by_date) ;;
  Ok (text ++ entries).

Fixpoint text_sections (w : world) (posts_by_date : groups) (dates : list value) : result str :=
  match dates with
  | [] => Ok []
  | date :: rest =>
      section <- text_section w posts_by_date date ;;
      sections <- text_sections w posts_by_date rest ;;
      Ok (section ++ sections)
  end.

Definition text_summary (generated total_posts urgent_posts not_started : str) : str :=
  lit "WEEKLY BLOG POST SCHEDULE" ++ nl
  ++ str_mul (lit "=") 60 ++ nl ++ nl
  ++ lit "Report Generated: " ++ generated ++ nl ++ nl
  ++ lit "SUMMARY" ++ nl
  ++ str_mul (lit "-") 30 ++ nl
  ++ lit "Total Posts Due: " ++ total_posts ++ nl
  ++ lit "Urgent (" ++ [8804%N] ++ lit "2 days): " ++ urgent_posts ++ nl
  ++ lit "Not Started: " ++ not_started ++ nl ++ nl.

Definition text_footer : str :=
  nl ++ str_mul (lit "-") 60 ++ nl
  ++ lit "This report was automatically generated from Airtable data." ++ nl
  ++ lit "To update: https://airtable.com/appfjLaSUBn8FUYYz/tblrH6OO1ulOnDS4S" ++ nl.

Definition create_plain_text_email (w : world) (posts : list post) : result str :=
  posts_by_date <- group_by_date posts [] ;;
  let total_posts := Z.of_nat (length posts) in
  urgent_posts <- count_urgent posts ;;
  not_started <- count_not_started posts ;;
  let text :=
    text_summary (strftime_generated (now w)) (str_of_Z total_posts)
      (str_of_Z urgent_posts) (str_of_Z not_started) in
  dates <- sorted (List.map fst posts_by_date) ;;
  sections <- text_sections w posts_by_date dates ;;
  Ok (text ++ sections ++ text_footer).

End EmailFormatter.

(** ** parse_blog_posts.py *)

Module ParseBlogPosts.

Import EmailFormatter.

(** [load_blog_posts] of this file is the function of [email_formatter.py]
    under the same name. *)
Definition load_blog_posts (w : world) : result (list post) :=
  match blog_posts_due_json w with
  | Absent => Raise FileNotFoundError
  | Corrupt => Raise JSONDecodeError
  | Document posts => Ok posts
  end.

(** [post['notes'][:100]] followed by the dots of the f-string
    [f"- **Notes:** {post['notes'][:100]}...\n"]. *)
Definition markdown_excerpt (notes : value) : result str :=
  s <- slice notes 100 ;;
  Ok (s ++ lit "...").

(** The entry of one post in the report of [example_6_create_markdown]. *)
Definition markdown_entry (post : post) : result str :=
  title <- getitem post (lit "title") ;;
  status <- getitem post (lit "status") ;;
  priority <- getitem post (lit "priority") ;;
  let markdown :=
    lit "### " ++ str_of title ++ nl
    ++ lit "- **Status:** " ++ str_of status ++ nl
    ++ lit "- **Priority:** " ++ str_of priority ++ nl in
  word_count_target <- getitem post (lit "word_count_target") ;;
  markdown <-
    (if truthy word_count_target then
       word_count_target <- getitem post (lit "word_count_target") ;;
       Ok (markdown ++ lit "- **Target Words:** " ++ str_of word_count_target ++ nl)
     else Ok markdown) ;;
  notes <- getitem post (lit "notes") ;;
  markdown <-
    (if truthy notes then
       notes <- getitem post (lit "notes") ;;
       excerpt <- markdown_excerpt notes ;;
       Ok (markdown ++ lit "- **Notes:** " ++ excerpt ++ nl)
     else Ok markdown) ;;
  Ok (markdown ++ nl).

Fixpoint markdown_entries (posts : list post) : result str :=
  match posts with
  | [] => Ok []
  | post :: rest =>
      entry <- markdown_entry post ;;
      entries <- markdown_entries rest ;;
      Ok (entry ++ entries)
  end.

Definition markdown_section (w : world) (posts_by_date : groups) (date : value) : result str :=
  due_date <- fromisoformat w date ;;
  let markdown := lit "## " ++ strftime_long due_date ++ nl ++ nl in
  entries <- markdown_entries (group_of date posts_by_date) ;;
  Ok (markdown ++ entries).

Fixpoint markdown_sections (w : world) (posts_by_date : groups) (dates : list value) : result str :=
  match dates with
  | [] => Ok []
  | date :: rest =>
      section <- markdown_section w posts_by_date date ;;
      sections <- markdown_sections w posts_by_date rest ;;
      Ok (section ++ sections)
  end.

Definition markdown_title (generated total : str) : str :=
  lit "# Blog Posts Due This Week" ++ nl ++ nl
  ++ lit "*Generated: " ++ generated ++ lit "*" ++ nl ++ nl
  ++ lit "**Total Posts:** " ++ total ++ nl ++ nl.

(** The text that [example_6_create_markdown] builds from the posts. *)
Definition markdown_report (w : world) (posts : list post) : result str :=
  posts_by_date <- group_by_date posts [] ;;
  let markdown :=
    markdown_title (strftime_minute (now w)) (str_of_Z (Z.of_nat (length posts))) in
  dates <- sorted (List.map fst posts_by_date) ;;
  sections <- markdown_sections w posts_by_date dates ;;
  Ok (markdown ++ sections).

Definition example_6_create_markdown (w : world) : result unit * world :=
  let w := print (nl ++ [128221%N] ++ lit " EXAMPLE 6: Generate Markdown Report") w in
  let w := print (str_mul (lit "=") 50) w in
  match (posts <- load_blog_posts w ;; markdown_report w posts) with
  | Raise e => (Raise e, w)
  | Ok markdown =>
      let w := set_md_file markdown w in
      let w := print (lit "Created 'blog_posts_report.md'") w in
      let w := print (nl ++ lit "Preview:") w in
      let w := print (slice_to 500 markdown ++ lit "...") w in
      (Ok tt, w)
  end.

(** *** The CSV table of [example_7_csv_export] *)

Definition fieldnames : list str :=
  [lit "title"; lit "due_date"; lit "days_until_due"; lit "status"; lit "priority";
   lit "author"; lit "category"; lit "word_count_target"].

(** [DictWriter._dict_to_list] with [extrasaction='ignore']: the value of
    each column, [restval] (the empty string) where the record has none. *)
Definition _dict_to_list (rowdict : post) : list value :=
  List.map (fun key => get rowdict key (VStr [])) fieldnames.

(** The text of a cell: [None] is written as the empty string, every other
    value as its [str]. *)
Definition cell_text (v : value) : str :=
  match v with
  | VNone => []
  | _ => str_of v
  end.

Definition special (c : N) : bool :=
  N.eqb c 44 || N.eqb c dq || N.eqb c 13 || N.eqb c 10.

(** Inside a quoted cell a quote character is written twice. *)
Fixpoint double_quotes (s : str) : str :=
  match s with
  | [] => []
  | c :: s' => if N.eqb c dq then dq :: dq :: double_quotes s' else c :: double_quotes s'
  end.

(** [QUOTE_MINIMAL]: a cell is quoted when it holds the delimiter, the quote
    character or a character of the line terminator. *)
Definition csv_field (s : str) : str :=
  if existsb special s then dq :: double_quotes s ++ [dq] else s.

Fixpoint join (sep : str) (l : list str) : str :=
  match l with
  | [] => []
  | [x] => x
  | x :: rest => x ++ sep ++ join sep rest
  end.

Definition crlf : str := [13%N; 10%N].

(** [writer.writerow]: a row that consists of one empty cell is written as
    a pair of quotes. *)
Definition writerow (cells : list str) : str :=
  match cells with
  | [[]] => [dq; dq] ++ crlf
  | _ => join (lit ",") (List.map csv_field cells) ++ crlf
  end.

Definition csv_row (post : post) : str :=
  writerow (List.map cell_text (_dict_to_list post)).

(** [writer.writeheader()] followed by [writer.writerows(posts)]. *)
Definition csv_table (posts : list post) : str :=
  writerow fieldnames ++ List.concat (List.map csv_row posts).

Definition example_7_csv_export (w : world) : result unit * world :=
  let w := print (nl ++ [128202%N] ++ lit " EXAMPLE 7: Export to CSV") w in
  let w := print (str_mul (lit "=") 50) w in
  match load_blog_posts w with
  | Raise e => (Raise e, w)
  | Ok posts =>
      let w := set_csv_file (csv_table posts) w in
      let w := print (lit "Exported " ++ str_of_Z (Z.of_nat (length posts))
                      ++ lit " posts to 'blog_posts.csv'") w in
      let w := print (lit "You can open this in Excel, Google Sheets, etc.") w in
      (Ok tt, w)
  end.

End ParseBlogPosts.

(** ** gmail_sender.py *)

Module GmailSender.

Import EmailFormatter.

Record t := mksender {
  sender_email : str;
  sender_password : str;
  sender_name : str
}.

(** [__init__]: the credentials come from the environment; a missing or
    empty address or password raises [ValueError]. *)
Definition __init__ (env : environ) : result t :=
  let sender_email := GMAIL_SENDER_EMAIL env in
  let sender_password := GMAIL_APP_PASSWORD env in
  let sender_name := getenv (GMAIL_SENDER_NAME env) (lit "Blog Report System") in
  match sender_email, sender_password with
  | Some (e :: mail), Some (p :: assword) => Ok (mksender (e :: mail) (p :: assword) sender_name)
  | _, _ => Raise ValueError
  end.

(** [cc_emails] and [bcc_emails] are a single address or a list. *)
Inductive addresses :=
| Address (a : str)
| Addresses (l : list str).

(** [if cc_emails:] *)
Definition given (a : option addresses) : bool :=
  match a with
  | None => false
  | Some (Address []) => false
  | Some (Addresses []) => false
  | Some _ => true
  end.

(** The addresses as a list: [extend] for a list, [append] for a string. *)
Definition as_list (a : addresses) : list str :=
  match a with
  | Address x => [x]
  | Addresses l => l
  end.

(** [str.lower()] on the letters of ASCII. *)
Definition lower (s : str) : str :=
  List.map (fun c => if (N.leb 65 c && N.leb c 90)%bool then (c + 32)%N else c) s.

(** [strftime('%a, %d %b %Y %H:%M:%S %z')] of a naive [datetime]: the
    offset is empty. *)
Definition strftime_date_header (t : datetime) : str :=
  let d := dt_date t in
  firstn 3 (day_name d) ++ lit ", " ++ pad 2 (day d) ++ lit " "
  ++ firstn 3 (month_name d) ++ lit " " ++ str_of_Z (year d) ++ lit " "
  ++ pad 2 (hour t) ++ lit ":" ++ pad 2 (minute t) ++ lit ":" ++ pad 2 (second t)
  ++ lit " ".

(** [strftime("%Y%m%d")] *)
Definition strftime_compact (t : datetime) : str :=
  let d := dt_date t in
  str_of_Z (year d) ++ pad 2 (month d) ++ pad 2 (day d).

(** The subject line of [create_message]. *)
Definition choose_subject (subject : option str) (urgent_count : Z) (posts : list post) : str :=
  match subject with
  | Some (c :: s) => c :: s
  | _ =>
      if 0 <? urgent_count then
        [128308%N] ++ lit " " ++ str_of_Z urgent_count
        ++ lit " URGENT Posts Due - Weekly Blog Schedule ("
        ++ str_of_Z (Z.of_nat (length posts)) ++ lit " total)"
      else
        lit "Weekly Blog Schedule - " ++ str_of_Z (Z.of_nat (length posts))
        ++ lit " Posts Due This Week"
  end.

Definition create_message (self : t) (w : world) (recipient_email : str)
    (subject : option str) (cc_emails bcc_emails : option addresses)
  : result (message * list post) :=
  posts <- load_blog_posts w ;;
  html_content <- create_html_email w posts ;;
  text_content <- create_plain_text_email w posts ;;
  urgent_count <- count_urgent posts ;;
  let subject := choose_subject subject urgent_count posts in
  let cc :=
    if given cc_emails then
      match cc_emails with
      | Some (Addresses l) => Some (ParseBlogPosts.join (lit ", ") l)
      | Some (Address a) => Some a
      | None => None
      end
    else None in
  attachment <-
    (if decide (lower (getenv (GMAIL_ATTACH_JSON w) (lit "false")) = lit "true") then
       match blog_posts_due_json w with
       | Absent => Raise FileNotFoundError
       | payload =>
           Ok (Some (lit "blog_posts_" ++ strftime_compact (now w) ++ lit ".json", payload))
       end
     else Ok None) ;;
  Ok (mkmessage subject
        (sender_name self ++ lit " <" ++ sender_email self ++ lit ">")
        recipient_email
        (strftime_date_header (now w))
        cc
        (if 5 <? urgent_count then lit "2" else lit "3")
        (lit "Blog Post Reporter via Python")
        text_content html_content attachment,
      posts).

(** [_log_send] *)
Definition _log_send (self : t) (recipient : str) (post_count : Z) (w : world)
  : result unit * world :=
  let entry := mklog (dt_isoformat (now w)) recipient post_count (sender_email self) in
  match email_send_log_json w with
  | Absent => (Ok tt, set_log_file (Document [entry]) w)
  | Corrupt => (Raise JSONDecodeError, w)
  | Document log => (Ok tt, set_log_file (Document (log ++ [entry])) w)
  end.

(** [f"{cc_emails}"] *)
Definition show_addresses (w : world) (a : option addresses) : str :=
  match a with
  | None => lit "None"
  | Some (Address x) => x
  | Some (Addresses l) =>
      lit "[" ++ ParseBlogPosts.join (lit ", ") (List.map (repr w) l) ++ lit "]"
  end.

(** The lines that the first [except] clause of [send_email] prints. *)
Definition authentication_guidance : list str :=
  [[10060%N] ++ lit " Authentication failed!";
   lit "   Please check:";
   lit "   1. Your email address is correct";
   lit "   2. You're using an App Password (not your regular password)";
   lit "   3. 2-Step Verification is enabled on your Google account";
   nl ++ lit "   To create an App Password:";
   lit "   1. Go to https://myaccount.google.com/apppasswords";
   lit "   2. Select 'Mail' and your device";
   lit "   3. Copy the 16-character password";
   lit "   4. Add it to .env as GMAIL_APP_PASSWORD (no spaces)"].

(** The two [except] clauses of [send_email]. *)
Definition on_exception (e : exn) (w : world) : bool * world :=
  match e with
  | SMTPAuthenticationError => (false, prints authentication_guidance w)
  | _ => (false, print ([10060%N] ++ lit " Error sending email: " ++ describe w e) w)
  end.

(** The body of the [with] block of [send_email] from [send_message] on:
    the message is handed to the transport, the confirmation is printed and
    the send is logged. *)
Definition transmit (self : t) (w : world) (msg : message) (posts : list post)
    (recipient_email : str) (cc_emails bcc_emails : option addresses)
  : result unit * world :=
  let recipients :=
    [recipient_email]
    ++ (if given cc_emails then from_option as_list [] cc_emails else [])
    ++ (if given bcc_emails then from_option as_list [] bcc_emails else []) in
  let w := deliver msg recipients w in
  let w := print ([9989%N] ++ lit " Email sent successfully!") w in
  let w := print (lit "   From: " ++ sender_email self) w in
  let w := print (lit "   To: " ++ recipient_email) w in
  let w := if given cc_emails
           then print (lit "   CC: " ++ show_addresses w cc_emails) w else w in
  let w := if given bcc_emails
           then print (lit "   BCC: " ++ show_addresses w bcc_emails) w else w in
  let w := print (lit "   Subject: " ++ Subject msg) w in
  let w := print (lit "   Posts included: "
                  ++ str_of_Z (Z.of_nat (length posts))) w in
  _log_send self recipient_email (Z.of_nat (length posts)) w.

(** [send_email].  The [with] block is entered once the connection is made
    and is left through [SMTP.__exit__], which sends [QUIT] and raises when
    the reply is not 221; that exception replaces the outcome of the block,
    the [return True] or an exception, and goes to the second [except]
    clause. *)
Definition send_email (self : t) (w : world) (recipient_email : str)
    (subject : option str) (cc_emails bcc_emails : option addresses) (test_mode : bool)
  : bool * world :=
  match create_message self w recipient_email subject cc_emails bcc_emails with
  | Raise e => on_exception e w
  | Ok (msg, posts) =>
      if test_mode then
        let w := print ([128231%N] ++ lit " TEST MODE - Email prepared but not sent") w in
        let w := print (lit "   From: " ++ From msg) w in
        let w := print (lit "   To: " ++ To msg) w in
        let w := match Cc msg with
                 | Some (c :: s) => print (lit "   CC: " ++ c :: s) w
                 | _ => w
                 end in
        let w := print (lit "   Subject: " ++ Subject msg) w in
        let w := print (lit "   Posts included: " ++ str_of_Z (Z.of_nat (length posts))) w in
        (true, w)
      else
        let w := print ([128231%N] ++ lit " Connecting to Gmail SMTP server...") w in
        let '(behaviour, w) := open_session w in
        match behaviour with
        | ConnectFails m => on_exception (SMTPException m) w
        | StarttlsFails m => on_exception (SMTPException m) w
        | LoginRejected => on_exception SMTPAuthenticationError w
        | SendFails m => on_exception (SMTPException m) w
        | Accepts =>
            match transmit self w msg posts recipient_email cc_emails bcc_emails with
            | (Ok _, w) => (true, w)
            | (Raise e, w) => on_exception e w
            end
        | QuitRefused reached m =>
            (* the block is left through [SMTP.__exit__], which raises *)
            let w := match reached with
                     | Completed =>
                         snd (transmit self w msg posts recipient_email cc_emails bcc_emails)
                     | _ => w
                     end in
            on_exception (SMTPException m) w
        end
  end.

(** The loop of [send_to_multiple]. *)
Fixpoint send_each (self : t) (w : world) (recipients : list str) (subject : option str)
    (successful failed : list str) : (list str * list str) * world :=
  match recipients with
  | [] => ((successful, failed), w)
  | recipient :: rest =>
      let w := print (nl ++ [128231%N] ++ lit " Sending to " ++ recipient ++ lit "...") w in
      let '(sent, w) := send_email self w recipient subject None None false in
      if sent then send_each self w rest subject (successful ++ [recipient]) failed
      else send_each self w rest subject successful (failed ++ [recipient])
  end.

Definition send_to_multiple (self : t) (w : world) (recipients : list str)
    (subject : option str) : (list str * list str) * world :=
  let '((successful, failed), w) := send_each self w recipients subject [] [] in
  let w := print (nl ++ str_mul (lit "=") 50) w in
  let w := print ([128202%N] ++ lit " SENDING SUMMARY") w in
  let w := print (str_mul (lit "=") 50) w in
  let w := print ([9989%N] ++ lit " Successful: "
                  ++ str_of_Z (Z.of_nat (length successful))) w in
  let w := prints (List.map (fun email => lit "   " ++ [8226%N] ++ lit " " ++ email) successful) w in
  let w :=
    match failed with
    | [] => w
    | _ =>
        let w := print (nl ++ [10060%N] ++ lit " Failed: "
                        ++ str_of_Z (Z.of_nat (length failed))) w in
        prints (List.map (fun email => lit "   " ++ [8226%N] ++ lit " " ++ email) failed) w
    end in
  ((successful, failed), w).

(** [[r.strip() for r in recipients if r.strip()]] over the pieces of
    [GMAIL_AUTO_RECIPIENTS]. *)
Definition auto_recipients (env : environ) : list str :=
  let recipients := split 44 (getenv (GMAIL_AUTO_RECIPIENTS env) []) in
  List.map strip (List.filter (fun r => match strip r with [] => false | _ => true end)
                    recipients).

(** [automated_send] *)
Definition automated_send (env : environ) (w : world) : world :=
  match __init__ env with
  | Raise e => print ([10060%N] ++ lit " Error in automated send: " ++ describe w e) w
  | Ok sender =>
      let recipients := auto_recipients env in
      match recipients with
      | [] => print ([10060%N] ++ lit " No recipients configured in GMAIL_AUTO_RECIPIENTS") w
      | _ :: _ =>
          let w := print ([128231%N] ++ lit " Automated sending to "
                          ++ str_of_Z (Z.of_nat (length recipients))
                          ++ lit " recipient(s)") w in
          snd (send_to_multiple sender w recipients None)
      end
  end.

End GmailSender.

(** ** The records service and the reader of the CSV table

    The two collaborators that the statements below refer to: what the
    records service does with the filter formula and the sort directive it
    receives, and how a spreadsheet reads a row of the CSV table back. *)

Module Airtable.

Inductive term :=
| Field (name : str)
| DateString (d : date).

Inductive formula :=
| IS_AFTER (a b : term)
| IS_BEFORE (a b : term)
| AND (f g : formula).

(** The text of a formula, as the service receives it. *)
Definition render_term (t : term) : str :=
  match t with
  | Field name => lit "{" ++ name ++ lit "}"
  | DateString d => lit "'" ++ isoformat d ++ lit "'"
  end.

Fixpoint render (f : formula) : str :=
  match f with
  | IS_AFTER a b => lit "IS_AFTER(" ++ render_term a ++ lit ", " ++ render_term b ++ lit ")"
  | IS_BEFORE a b => lit "IS_BEFORE(" ++ render_term a ++ lit ", " ++ render_term b ++ lit ")"
  | AND f g => lit "AND(" ++ render f ++ lit ", " ++ render g ++ lit ")"
  end.

(** The date in a field of a record, when the field holds one. *)
Definition field_date (record : raw_record) (name : str) : option date :=
  match default ∅ (raw_fields record) !! name with
  | Some (VStr s) => calendar_date s
  | _ => None
  end.

Definition eval (record : raw_record) (t : term) : option date :=
  match t with
  | Field name => field_date record name
  | DateString d => Some d
  end.

(** [IS_AFTER(a, b)] holds when [a] is later than [b], [IS_BEFORE(a, b)] when
    [a] is earlier than [b]; a comparison with a blank field does not hold. *)
Fixpoint holds (record : raw_record) (f : formula) : bool :=
  match f with
  | IS_AFTER a b =>
      match eval record a, eval record b with
      | Some x, Some y => date_ltb y x
      | _, _ => false
      end
  | IS_BEFORE a b =>
      match eval record a, eval record b with
      | Some x, Some y => date_ltb x y
      | _, _ => false
      end
  | AND f g => holds record f && holds record g
  end.

(** The order of two records under a sort by a date field: blank fields come
    first. *)
Definition before (field : str) (r1 r2 : raw_record) : bool :=
  match field_date r1 field, field_date r2 field with
  | Some x, Some y => date_ltb x y
  | None, Some _ => true
  | _, _ => false
  end.

Fixpoint insert_record (field : str) (r : raw_record) (l : list raw_record) : list raw_record :=
  match l with
  | [] => [r]
  | r' :: l' =>
      if before field r r' then r :: r' :: l'
      else r' :: insert_record field r l'
  end.

Definition sort_records (field : str) (l : list raw_record) : list raw_record :=
  fold_left (fun acc r => insert_record field r acc) l [].

(** The records of a table that the service lists for a filter and a sort
    directive. *)
Definition list_records (table : list raw_record) (f : formula)
    (sort_field sort_direction : str) : list raw_record :=
  let selected := List.filter (fun r => holds r f) table in
  if decide (sort_direction = lit "asc") then sort_records sort_field selected
  else rev (sort_records sort_field selected).

End Airtable.

Module CsvReader.

Inductive state :=
| StartField
| InField
| InQuoted
| QuoteInQuoted.

(** The cells of one row of a CSV table, read without its line terminator. *)
Fixpoint read (s : str) (st : state) (cell : str) (row : list str) : list str :=
  match s with
  | [] => row ++ [cell]
  | c :: s' =>
      match st with
      | StartField =>
          if N.eqb c dq then read s' InQuoted [] row
          else if N.eqb c 44 then read s' StartField [] (row ++ [[]])
          else read s' InField [c] row
      | InField =>
          if N.eqb c 44 then read s' StartField [] (row ++ [cell])
          else read s' InField (cell ++ [c]) row
      | InQuoted =>
          if N.eqb c dq then read s' QuoteInQuoted cell row
          else read s' InQuoted (cell ++ [c]) row
      | QuoteInQuoted =>
          if N.eqb c dq then read s' InQuoted (cell ++ [dq]) row
          else if N.eqb c 44 then read s' StartField [] (row ++ [cell])
          else read s' InField (cell ++ [c]) row
      end
  end.

Definition read_row (line : str) : list str := read line StartField [] [].

End CsvReader.

(** The filter of [get_posts_due_this_week] as a formula of the service. *)
Definition window_filter (field : str) (start stop : date) : Airtable.formula :=
  Airtable.AND
    (Airtable.IS_AFTER (Airtable.Field field) (Airtable.DateString start))
    (Airtable.IS_BEFORE (Airtable.Field field) (Airtable.DateString stop)).


(** ** Sample data

    The records and the world in which the statements below are tried. *)

Module Sample.

Definition clock (y m d : Z) : datetime := mkdatetime (mkdate y m d) 9 30 0 0.

Definition entry (key : string) (v : value) : list N * value := (lit key, v).

Definition fields_of (l : list (list N * value)) : gmap (list N) value := list_to_map l.

(** A record of the service with a title and a due date. *)
Definition record (id title due : string) : raw_record :=
  mkraw (Some (VStr (lit id)))
    (Some (fields_of [entry "Title" (VStr (lit title)); entry "Due Date" (VStr (lit due))])).

Definition table : list raw_record :=
  [record "rec1" "A" "2025-01-10"; record "rec2" "B" "2025-01-10";
   record "rec3" "C" "2025-01-12"].

Definition fetcher : AirtableBlogFetcher.t :=
  AirtableBlogFetcher.mkfetcher (lit "key") (lit "appBASE") (lit "Blog Posts").

Definition sender : GmailSender.t :=
  GmailSender.mksender (lit "reports@example.com") (lit "app-password")
    (lit "Blog Report System").

(** A world on 2025-01-09 in which the service lists [records], nothing has
    been written yet and the transport follows [script]; its interpreter
    reads no date from a string that is not of the calendar form. *)
Definition world_with (records : list raw_record) (script : nat -> smtp_behaviour) : world :=
  mkworld (clock 2025 1 9) None None
    (fun _ => Success (Some records))
    script
    (fun _ => lit "error")
    (fun s => lit "'" ++ s ++ lit "'")
    (fun _ => None)
    0 Absent Absent None None [] [].

Definition w0 : world := world_with table (fun _ => Accepts).

(** The records as [_process_records] normalises them in [w0]. *)
Definition fetched : list post :=
  match AirtableBlogFetcher._process_records w0 table with
  | Ok posts => posts
  | Raise _ => []
  end.

(** A persisted record with every field of the data model. *)
Definition post_of (title due : string) (days : Z) (notes : string) : post :=
  fields_of
    [entry "id" (VStr (lit "rec")); entry "title" (VStr (lit title)); entry "due_date" (VStr (lit due));
     entry "status" (VStr (lit "Not Started")); entry "author" (VStr (lit "Unassigned"));
     entry "category" (VStr []); entry "notes" (VStr (lit notes));
     entry "word_count_target" (VInt 0); entry "priority" (VStr (lit "Medium"));
     entry "days_until_due" (VInt days)].

(** A persisted record without a due date, as [_process_records] leaves
    it: the days-until-due entry is absent. *)
Definition post_undated (title : string) : post :=
  fields_of
    [entry "id" (VStr (lit "rec")); entry "title" (VStr (lit title)); entry "due_date" VNone;
     entry "status" (VStr (lit "Not Started")); entry "author" (VStr (lit "Unassigned"));
     entry "category" (VStr []); entry "notes" (VStr []);
     entry "word_count_target" (VInt 0); entry "priority" (VStr (lit "Medium"))].

(** The record set of the end-to-end scenario, on 2025-01-09. *)
Definition posts : list post :=
  [post_of "A" "2025-01-10" 1 "Outline first"; post_of "B" "2025-01-10" 1 "";
   post_of "C" "2025-01-12" 3 ""].

(** A world in which [posts] have been persisted. *)
Definition world_of (posts : list post) (script : nat -> smtp_behaviour) : world :=
  set_posts_file (Document posts) (world_with [] script).

End Sample.

(** ** Predicates of the statements *)

Import AirtableBlogFetcher EmailFormatter ParseBlogPosts GmailSender.

Section Predicates.

(** The state of the days-until-due entry of a processed record. *)
Definition days_as_fetched (w : world) (fetched_on : date) (p : gmap (list N) value) : Prop :=
  exists due,
    p !! lit "due_date" = Some due
    /\ if truthy due
       then exists d, fromisoformat w due = Ok d
                      /\ p !! lit "days_until_due" = Some (VInt (days_between d fetched_on))
       else p !! lit "days_until_due" = None.

(** The due date of a raw record is blank or a date that
    [datetime.fromisoformat] reads. *)
Definition due_well_formed (w : world) (record : raw_record) : Prop :=
  let due := get (default ∅ (raw_fields record)) (due_date_field w) VNone in
  truthy due = false \/ exists d, fromisoformat w due = Ok d.

(** The fields of a processed record: the value of the source field, or the
    default of the data model where the source has none. *)
Definition normalised (w : world) (record : raw_record) (p : gmap (list N) value) : Prop :=
  let fields := default ∅ (raw_fields record) in
  p !! lit "id" = Some (default VNone (raw_id record))
  /\ p !! lit "title" = Some (get fields (lit "Title") (VStr (lit "Untitled")))
  /\ p !! lit "due_date" = Some (get fields (due_date_field w) VNone)
  /\ p !! lit "status" = Some (get fields (lit "Status") (VStr (lit "Not Started")))
  /\ p !! lit "author" = Some (get fields (lit "Author") (VStr (lit "Unassigned")))
  /\ p !! lit "category" = Some (get fields (lit "Category") (VStr []))
  /\ p !! lit "notes" = Some (get fields (lit "Notes") (VStr []))
  /\ p !! lit "word_count_target" = Some (get fields (lit "Word Count Target") (VInt 0))
  /\ p !! lit "priority" = Some (get fields (lit "Priority") (VStr (lit "Medium"))).

(** The records in the response of the service, none when the request
    fails. *)
Definition served (self : AirtableBlogFetcher.t) (w : world) : list raw_record :=
  match http w (build_request self w) with
  | Success records => default [] records
  | _ => []
  end.

(** A record without the days-until-due entry. *)
Definition lacks_days (p : gmap (list N) value) : Prop :=
  p !! lit "days_until_due" = None.

(** The days-until-due entry of a record, where present, is an integer, as
    the data model has it. *)
Definition days_is_number (p : gmap (list N) value) : Prop :=
  forall v, p !! lit "days_until_due" = Some v -> exists n, v = VInt n.

(** A list of dictionary keys in ascending order: no key is less than its
    predecessor. *)
Definition ascending (l : list value) : Prop :=
  Sorted (fun a b => EmailFormatter.lt b a = Ok false) l.

(** A computation that does not raise the authentication error of the
    transport. *)
Definition no_auth {A} (m : result A) : Prop :=
  forall e, m = Raise e -> e <> SMTPAuthenticationError.

(** The entries of the send log; a log that does not exist yet has none. *)
Definition log_of (w : world) : list log_entry :=
  match email_send_log_json w with
  | Document log => log
  | _ => []
  end.

(** The addresses that [send_email] adds to the recipients for [cc_emails]
    or [bcc_emails]. *)
Definition extra_recipients (a : option addresses) : list (list N) :=
  if given a then from_option as_list [] a else [].


(** The line that the second [except] clause of [send_email] prints. *)
Definition error_line (w : world) (e : exn) : list N :=
  [10060%N] ++ lit " Error sending email: " ++ describe w e.

(** The line that [send_to_multiple] prints before it sends to a recipient. *)
Definition sending_to (recipient : list N) : list N :=
  nl ++ [128231%N] ++ lit " Sending to " ++ recipient ++ lit "...".

(** Two worlds in which composing a message reads the same: the clock, the
    attachment switch, the record file and the interpreter agree. *)
Definition same_inputs (w w' : world) : Prop :=
  now w' = now w
  /\ GMAIL_ATTACH_JSON w' = GMAIL_ATTACH_JSON w
  /\ blog_posts_due_json w' = blog_posts_due_json w
  /\ iso_beyond w' = iso_beyond w.

(** A session in which the transport accepts the message and lets the
    client leave. *)
Definition accepted (b : smtp_behaviour) : bool :=
  match b with
  | Accepts => true
  | _ => false
  end.

(** The recipients of a list with the sessions of the transport, from the
    session [first] on, one session for each recipient. *)
Fixpoint sessions_of (script : nat -> smtp_behaviour) (first : nat)
    (recipients : list (list N)) : list (list N * smtp_behaviour) :=
  match recipients with
  | [] => []
  | r :: rest => (r, script first) :: sessions_of script (S first) rest
  end.

(** The attempts of a run over a list of recipients: for each recipient in
    turn the line that announces it is printed and [send_email] is called,
    in the world that the attempt before left; [outcomes] are the values
    that the calls return and [w'] is the world after the last of them. *)
Inductive attempts (self : GmailSender.t) (subject : option (list N))
  : world -> list (list N) -> list bool -> world -> Prop :=
| attempts_nil (w : world) : attempts self subject w [] [] w
| attempts_cons (w w' : world) (r : list N) (rs : list (list N)) (bs : list bool) :
    attempts self subject
      (snd (send_email self (print (sending_to r) w) r subject None None false)) rs bs w' ->
    attempts self subject w (r :: rs)
      (fst (send_email self (print (sending_to r) w) r subject None None false) :: bs) w'.

(** The recipients of a list whose attempt had the outcome [b]. *)
Definition with_outcome (b : bool) (recipients : list (list N)) (outcomes : list bool)
  : list (list N) :=
  List.map fst (List.filter (fun a => Bool.eqb (snd a) b) (combine recipients outcomes)).

(** A decimal digit. *)
Definition is_digit (c : N) : Prop := (48 <= c <= 57)%N.

(** The text of the cell of a record in a column. *)
Definition cell (post : gmap (list N) value) (column : string) : list N :=
  cell_text (get post (lit column) (VStr [])).

(** What the reader does after a field that is followed by the end of the
    row or by a delimiter. *)
Definition after_field (tail : list N) (field : list N) (row : list (list N))
  : list (list N) :=
  match tail with
  | [] => row ++ [field]
  | _ :: t => CsvReader.read t CsvReader.StartField [] (row ++ [field])
  end.

(** What follows a field in a row: the end of the row, or a delimiter. *)
Definition field_end (tail : list N) : Prop := tail = [] \/ exists t, tail = 44%N :: t.

(** The order in which the service lists records for an ascending sort by a
    date field: no record is before its predecessor. *)
Definition ascending_by (field : list N) (l : list raw_record) : Prop :=
  Sorted (fun r1 r2 => Airtable.before field r2 r1 = false) l.

(** A record whose due date is the key [k] of a dictionary: the two are
    equal as values, which [True] and [1] are. *)
Definition due_on (k : value) (p : gmap (list N) value) : bool :=
  match p !! lit "due_date" with
  | Some v => value_eqb v k
  | None => false
  end.

(** The keys of a grouping as the dictionary tells them apart. *)
Definition distinct_keys (g : list (value * list (gmap (list N) value))) : Prop :=
  NoDup (List.map as_int (List.map fst g)).

(** A record with at most two days until due. *)
Definition is_urgent (p : gmap (list N) value) : bool :=
  match (d <- getitem p (lit "days_until_due") ;; le_int d 2) with
  | Ok b => b
  | Raise _ => false
  end.

(** A record whose status is the text Not Started. *)
Definition is_not_started (p : gmap (list N) value) : bool :=
  bool_decide (p !! lit "status" = Some (VStr (lit "Not Started"))).

(** Notes that are empty, or a text. *)
Definition textual (notes : value) : Prop :=
  truthy notes = true -> exists s, notes = VStr s.

(** A record with the entries that [display_posts] reads, its notes empty or
    a text. *)
Definition displayable (p : gmap (list N) value) : Prop :=
  Forall (fun k => is_Some (p !! k))
    [lit "title"; lit "due_date"; lit "status"; lit "author"; lit "priority";
     lit "category"; lit "word_count_target"]
  /\ exists notes, p !! lit "notes" = Some notes /\ textual notes.

(** A record that the reports can render: a displayable record whose due
    date is a calendar date and whose days until due are a number. *)
Definition renderable (p : gmap (list N) value) : Prop :=
  displayable p
  /\ (exists s d, p !! lit "due_date" = Some (VStr s) /\ calendar_date s = Some d)
  /\ (exists n, p !! lit "days_until_due" = Some (VInt n)).

(** A raw record with a due date that is a calendar date, and with notes
    that are absent, empty or a text. *)
Definition well_formed (w : world) (record : raw_record) : Prop :=
  let fields := default ∅ (raw_fields record) in
  (exists s d, fields !! due_date_field w = Some (VStr s) /\ calendar_date s = Some d)
  /\ textual (get fields (lit "Notes") (VStr [])).

(** A key of the grouping that is a calendar date. *)
Definition is_date (key : value) : Prop :=
  exists s d, key = VStr s /\ calendar_date s = Some d.

(** White space only. *)
Definition blank (s : list N) : Prop := Forall (fun c => isspace c = true) s.

(** A string without white space at its two ends. *)
Definition trimmed (s : list N) : Prop :=
  match s with c :: _ => isspace c = false | [] => True end
  /\ match rev s with c :: _ => isspace c = false | [] => True end.

(** Two records with the same entries under the keys that the Markdown
    report reads. *)
Definition same_markdown_fields (p q : gmap (list N) value) : Prop :=
  Forall (fun k => p !! k = q !! k)
    [lit "due_date"; lit "title"; lit "status"; lit "priority";
     lit "word_count_target"; lit "notes"].

(** Two groupings with the same keys, in the same order, and with groups
    whose records have the same entries for the Markdown report. *)
Definition same_groups (g g' : list (value * list (gmap (list N) value))) : Prop :=
  Forall2 (fun e e' => fst e = fst e' /\ Forall2 same_markdown_fields (snd e) (snd e')) g g'.

End Predicates.

(** ** Reasoning about the error monad *)

Lemma bind_ok {A B} (m : result A) (k : A -> result B) (b : B) :
  bind m k = Ok b -> exists a, m = Ok a /\ k a = Ok b.
Proof. destruct m; simpl; [eauto | discriminate]. Qed.

Lemma ok_inj {A} (a b : A) : Ok a = Ok b -> a = b.
Proof. by intros [= ->]. Qed.

Ltac inv_bind H :=
  let a := fresh "a" in
  let Ha := fresh "Ha" in
  apply bind_ok in H; destruct H as (a & Ha & H).

Lemma process_record_days (w : world) (record : raw_record) (p : gmap (list N) value) :
  process_record w record = Ok p -> days_as_fetched w (today w) p.
Proof.
  unfold process_record.
  set (due := get _ (due_date_field w) VNone).
  intros H. exists due. destruct (truthy due) eqn:Ht.
  - inv_bind H. injection H as <-. split.
    + rewrite lookup_insert_ne by done. repeat (rewrite lookup_insert_ne by done).
      apply lookup_insert_eq.
    + exists a. split; [done|]. apply lookup_insert_eq.
  - injection H as <-. split.
    + repeat (rewrite lookup_insert_ne by done). apply lookup_insert_eq.
    + repeat (rewrite lookup_insert_ne by done). done.
Qed.

Lemma process_records_days (w : world) (records : list raw_record) :
  forall posts, _process_records w records = Ok posts ->
  Forall (days_as_fetched w (today w)) posts.
Proof.
  induction records as [|r rs IH]; simpl; intros posts H.
  - injection H as <-. constructor.
  - inv_bind H. inv_bind H. injection H as <-.
    constructor; [by eapply process_record_days | by apply IH].
Qed.

Lemma load_after_export (w : world) (posts : list (gmap (list N) value)) (t : datetime) :
  EmailFormatter.load_blog_posts (at_time t (export_to_json posts w)) = Ok posts.
Proof. reflexivity. Qed.

(** C1 (as amended): a load returns the persisted records as they were
    written; the days-until-due entry of each is the due date minus the date
    of the fetch, whatever the date of the load, and it is absent when the
    record has no due date. *)
Theorem load_keeps_days_of_fetch (w : world) (records : list raw_record)
    (posts : list (gmap (list N) value)) (t : datetime) :
  _process_records w records = Ok posts ->
  EmailFormatter.load_blog_posts (at_time t (export_to_json posts w)) = Ok posts
  /\ Forall (days_as_fetched w (today w)) posts.
Proof.
  intros H. split; [apply load_after_export | by eapply process_records_days].
Qed.

Lemma load_keeps_days_of_fetch_witness :
  _process_records Sample.w0 Sample.table = Ok Sample.fetched
  /\ EmailFormatter.load_blog_posts
       (at_time (Sample.clock 2025 1 10) (export_to_json Sample.fetched Sample.w0))
     = Ok Sample.fetched
  /\ Forall (days_as_fetched Sample.w0 (today Sample.w0)) Sample.fetched.
Proof.
  split; [reflexivity|].
  apply (load_keeps_days_of_fetch Sample.w0 Sample.table Sample.fetched
           (Sample.clock 2025 1 10)).
  reflexivity.
Defined.

(** C1 (counterexample): a record due on 2025-01-12 is fetched on 2025-01-09
    and persisted; a load on 2025-01-10 returns 3 days until due, where the
    due date minus the date of the load is 2. *)
Lemma load_does_not_recompute :
  let w := Sample.world_with [Sample.record "rec3" "C" "2025-01-12"] (fun _ => Accepts) in
  let later := at_time (Sample.clock 2025 1 10) in
  (posts <- fst (get_posts_due_this_week Sample.fetcher w) ;;
   loaded <- EmailFormatter.load_blog_posts (later (export_to_json posts w)) ;;
   p <- from_option Ok (Raise ValueError) (head loaded) ;;
   stored <- getitem p (lit "days_until_due") ;;
   due <- getitem p (lit "due_date") ;;
   d <- fromisoformat w due ;;
   Ok (length loaded, stored, days_between d (today (later w))))
  = Ok (1%nat, VInt 3, 2).
Proof. vm_compute. reflexivity. Qed.

(** *** Notes excerpts *)

Lemma notes_preview_str (budget : nat) (s : list N) :
  notes_preview budget (VStr s)
  = Ok (VStr (if Nat.ltb budget (length s) then firstn budget s ++ lit "..." else s)).
Proof. unfold notes_preview; simpl. by destruct (Nat.ltb budget (length s)). Qed.

(** The excerpts of the plain-text and the HTML report keep at most the
    budget, and the dots follow exactly when the notes are longer. *)
Lemma notes_preview_within_budget (budget : nat) (s : list N) :
  exists kept,
    notes_preview budget (VStr s)
    = Ok (VStr (kept ++ if Nat.ltb budget (length s) then lit "..." else []))
    /\ kept = firstn budget s
    /\ (length kept <= budget)%nat
    /\ ((length s <= budget)%nat -> kept = s).
Proof.
  exists (firstn budget s). rewrite notes_preview_str. repeat split.
  - destruct (Nat.ltb budget (length s)) eqn:E; [done|].
    apply Nat.ltb_ge in E. by rewrite firstn_all2, app_nil_r.
  - rewrite length_firstn. lia.
  - intros H. by apply firstn_all2.
Qed.

Lemma markdown_excerpt_str (s : list N) :
  markdown_excerpt (VStr s) = Ok (firstn 100 s ++ lit "...").
Proof. reflexivity. Qed.

(** C2: a record with notes of 50 characters.  The plain-text and the HTML
    excerpt are the notes themselves; the Markdown excerpt is the notes
    followed by the dots, although nothing was cut. *)
Theorem markdown_excerpt_of_short_notes :
  let notes := VStr (List.repeat 120%N 50) in
  notes_preview 100 notes = Ok notes
  /\ notes_preview 150 notes = Ok notes
  /\ markdown_excerpt notes = Ok (List.repeat 120%N 50 ++ lit "...")
  /\ markdown_entry (Sample.post_of "A" "2025-01-10" 1 "Outline first")
     = Ok (lit "### A" ++ nl ++ lit "- **Status:** Not Started" ++ nl
           ++ lit "- **Priority:** Medium" ++ nl
           ++ lit "- **Notes:** Outline first..." ++ nl ++ nl)
  /\ text_entry 1 (Sample.post_of "A" "2025-01-10" 1 "Outline first")
     = Ok (lit "1. A" ++ nl ++ lit "   Status: Not Started" ++ nl
           ++ lit "   Priority: Medium" ++ nl ++ lit "   Days Until Due: 1" ++ nl
           ++ lit "   Notes: Outline first" ++ nl ++ nl).
Proof. repeat split; reflexivity. Qed.

(** *** The order of the date groups *)

Lemma str_ltb_asym (a : list N) : forall b, str_ltb a b = true -> str_ltb b a = false.
Proof.
  induction a as [|x a IH]; intros [|y b]; cbn [str_ltb]; try done.
  destruct (N.ltb x y) eqn:Hxy, (N.ltb y x) eqn:Hyx; try done.
  - apply N.ltb_lt in Hxy, Hyx. lia.
  - apply IH.
Qed.

Lemma lt_asym (a b : value) :
  EmailFormatter.lt a b = Ok true -> EmailFormatter.lt b a = Ok false.
Proof.
  destruct a as [|x|x|x], b as [|y|y|y]; cbn [EmailFormatter.lt]; try done;
    intros [= H]; f_equal.
  1-4: try destruct x; try destruct y; lia.
  by apply str_ltb_asym.
Qed.

Lemma insert_sorted_head (x : value) (l l' : list value) :
  insert_sorted x l = Ok l' ->
  exists h t, l' = h :: t /\ (h = x \/ exists t0, l = h :: t0).
Proof.
  destruct l as [|y l]; cbn [insert_sorted]; intros H.
  - injection H as <-. eauto.
  - inv_bind H. destruct a.
    + injection H as <-. eauto.
    + inv_bind H. injection H as <-. eauto 6.
Qed.

Lemma insert_sorted_spec (x : value) (l : list value) :
  forall l', insert_sorted x l = Ok l' ->
  Permutation l' (x :: l) /\ (ascending l -> ascending l').
Proof.
  unfold ascending.
  induction l as [|y l IH]; cbn [insert_sorted]; intros l' H.
  - injection H as <-. split; [done|]. intros _. repeat constructor.
  - inv_bind H. destruct a.
    + injection H as <-. split; [done|]. intros Hl.
      constructor; [done|]. constructor. by apply lt_asym.
    + inv_bind H. injection H as <-. destruct (IH _ Ha0) as [Hp Hs].
      split; [by rewrite Hp; apply perm_swap|].
      intros Hl. apply Sorted_inv in Hl as [Hl Hhd]. constructor; [by apply Hs|].
      destruct (insert_sorted_head _ _ _ Ha0) as (h & t & -> & [-> | [t0 ->]]).
      * by constructor.
      * constructor. by apply HdRel_inv in Hhd.
Qed.

Lemma sorted_spec (l : list value) :
  forall l', sorted l = Ok l' -> Permutation l' l /\ ascending l'.
Proof.
  unfold sorted.
  assert (H : forall acc l', ascending acc -> sorted_from l acc = Ok l' ->
                             Permutation l' (acc ++ l) /\ ascending l').
  { induction l as [|x l IH]; cbn [sorted_from]; intros acc l' Hacc H.
    - injection H as <-. by rewrite app_nil_r.
    - inv_bind H. destruct (insert_sorted_spec _ _ _ Ha) as [Hp Hs].
      destruct (IH _ _ (Hs Hacc) H) as [Hp' Hs']. split; [|done].
      rewrite Hp', Hp. cbn [app]. apply Permutation_middle. }
  intros l' Hl. apply (H [] l'); [constructor | done].
Qed.

(** *** The sections of the three reports *)

Lemma html_sections_parts (w : world) (g : list (value * list (gmap (list N) value)))
    (dates : list value) :
  forall html, html_sections w g dates = Ok html ->
  exists parts, Forall2 (fun date part => html_section w g date = Ok part) dates parts
                /\ html = List.concat parts.
Proof.
  induction dates as [|d dates IH]; cbn [html_sections]; intros html H.
  - injection H as <-. by exists [].
  - inv_bind H. inv_bind H. injection H as <-.
    destruct (IH _ Ha0) as (parts & Hparts & ->).
    exists (a :: parts). split; [by constructor | done].
Qed.

Lemma text_sections_parts (w : world) (g : list (value * list (gmap (list N) value)))
    (dates : list value) :
  forall text, text_sections w g dates = Ok text ->
  exists parts, Forall2 (fun date part => text_section w g date = Ok part) dates parts
                /\ text = List.concat parts.
Proof.
  induction dates as [|d dates IH]; cbn [text_sections]; intros text H.
  - injection H as <-. by exists [].
  - inv_bind H. inv_bind H. injection H as <-.
    destruct (IH _ Ha0) as (parts & Hparts & ->).
    exists (a :: parts). split; [by constructor | done].
Qed.

Lemma markdown_sections_parts (w : world) (g : list (value * list (gmap (list N) value)))
    (dates : list value) :
  forall markdown, markdown_sections w g dates = Ok markdown ->
  exists parts, Forall2 (fun date part => markdown_section w g date = Ok part) dates parts
                /\ markdown = List.concat parts.
Proof.
  induction dates as [|d dates IH]; cbn [markdown_sections]; intros markdown H.
  - injection H as <-. by exists [].
  - inv_bind H. inv_bind H. injection H as <-.
    destruct (IH _ Ha0) as (parts & Hparts & ->).
    exists (a :: parts). split; [by constructor | done].
Qed.

(** C3 (counterexample): two record sets that differ in the days until due
    of their record give the same Markdown report and different counts of
    urgent posts, so the count cannot be read off the Markdown report; and
    the rows of the CSV table are in the order of the record set, not in the
    order of the dates. *)
Lemma markdown_and_csv_diverge :
  let w := Sample.w0 in
  let urgent := [Sample.post_of "A" "2025-01-10" 1 ""] in
  let relaxed := [Sample.post_of "A" "2025-01-10" 3 ""] in
  let unordered := [Sample.post_of "C" "2025-01-12" 3 ""; Sample.post_of "A" "2025-01-10" 1 ""] in
  (markdown_report w urgent = markdown_report w relaxed
   /\ is_ok (markdown_report w urgent) = true
   /\ count_urgent urgent = Ok 1 /\ count_urgent relaxed = Ok 0)
  /\ (List.map (fun p => firstn 2 (CsvReader.read_row (csv_row p))) unordered
      = [[lit "C"; lit "2025-01-12"]; [lit "A"; lit "2025-01-10"]]
      /\ (g <- group_by_date unordered [] ;; sorted (List.map fst g))
         = Ok [VStr (lit "2025-01-10"); VStr (lit "2025-01-12")]).
Proof. repeat split; reflexivity. Qed.

(** C3 (amended): where the HTML message, the plain-text message and the
    Markdown report of a record set are produced, the two messages show the
    same three statistics, which are the length of the record set,
    [count_urgent] and [count_not_started], and the Markdown report shows the
    length only; the three of them present one section for each due date,
    over the same grouping and in the same ascending order of the dates.
    The CSV table has no statistics and no groups: it is the header followed
    by the rows of the records in the order of the record set. *)
Theorem reports_share_statistics_and_order (w : world) (posts : list (gmap (list N) value))
    (html text markdown : list N) :
  create_html_email w posts = Ok html ->
  create_plain_text_email w posts = Ok text ->
  markdown_report w posts = Ok markdown ->
  exists urgent not_started groups dates,
    count_urgent posts = Ok urgent
    /\ count_not_started posts = Ok not_started
    /\ group_by_date posts [] = Ok groups
    /\ sorted (List.map fst groups) = Ok dates
    /\ Permutation dates (List.map fst groups)
    /\ ascending dates
    /\ (exists sections,
          Forall2 (fun date section => html_section w groups date = Ok section) dates sections
          /\ html = html_head
                    ++ html_header (strftime_generated (now w))
                         (str_of_Z (Z.of_nat (length posts)))
                         (str_of_Z urgent) (str_of_Z not_started)
                    ++ List.concat sections ++ html_footer)
    /\ (exists sections,
          Forall2 (fun date section => text_section w groups date = Ok section) dates sections
          /\ text = text_summary (strftime_generated (now w))
                      (str_of_Z (Z.of_nat (length posts)))
                      (str_of_Z urgent) (str_of_Z not_started)
                    ++ List.concat sections ++ text_footer)
    /\ (exists sections,
          Forall2 (fun date section => markdown_section w groups date = Ok section) dates sections
          /\ markdown = markdown_title (strftime_minute (now w))
                          (str_of_Z (Z.of_nat (length posts)))
                        ++ List.concat sections)
    /\ csv_table posts
       = lit "title,due_date,days_until_due,status,priority,author,category,word_count_target"
         ++ crlf ++ List.concat (List.map csv_row posts).
Proof.
  unfold create_html_email, create_plain_text_email, markdown_report.
  intros Hh Ht Hm.
  inv_bind Hh. rename a into groups, Ha into Hg.
  inv_bind Hh. rename a into urgent, Ha into Hu.
  inv_bind Hh. rename a into not_started, Ha into Hn.
  inv_bind Hh. rename a into dates, Ha into Hd.
  inv_bind Hh. apply ok_inj in Hh as <-.
  rewrite Hg, Hu, Hn in Ht. cbn [bind] in Ht. rewrite Hd in Ht. cbn [bind] in Ht.
  inv_bind Ht. apply ok_inj in Ht as <-.
  rewrite Hg in Hm. cbn [bind] in Hm. rewrite Hd in Hm. cbn [bind] in Hm.
  inv_bind Hm. apply ok_inj in Hm as <-.
  destruct (sorted_spec _ _ Hd) as [Hperm Hasc].
  destruct (html_sections_parts _ _ _ _ Ha) as (hs & Hhs & ->).
  destruct (text_sections_parts _ _ _ _ Ha0) as (ts & Hts & ->).
  destruct (markdown_sections_parts _ _ _ _ Ha1) as (ms & Hms & ->).
  exists urgent, not_started, groups, dates.
  do 6 (split; [assumption|]).
  split; [exists hs; split; [assumption|]; symmetry; apply app_assoc|].
  split; [exists ts; split; [assumption|]; reflexivity|].
  split; [exists ms; split; [assumption|]; reflexivity|]. reflexivity.
Qed.

Lemma reports_share_statistics_and_order_witness :
  exists html text markdown urgent not_started dates,
    create_html_email Sample.w0 Sample.posts = Ok html
    /\ create_plain_text_email Sample.w0 Sample.posts = Ok text
    /\ markdown_report Sample.w0 Sample.posts = Ok markdown
    /\ count_urgent Sample.posts = Ok urgent
    /\ count_not_started Sample.posts = Ok not_started
    /\ ascending dates.
Proof.
  set (html := match create_html_email Sample.w0 Sample.posts with
               | Ok s => s
               | Raise _ => []
               end).
  set (text := match create_plain_text_email Sample.w0 Sample.posts with
               | Ok s => s
               | Raise _ => []
               end).
  set (markdown := match markdown_report Sample.w0 Sample.posts with
                   | Ok s => s
                   | Raise _ => []
                   end).
  assert (Hh : create_html_email Sample.w0 Sample.posts = Ok html) by reflexivity.
  assert (Ht : create_plain_text_email Sample.w0 Sample.posts = Ok text) by reflexivity.
  assert (Hm : markdown_report Sample.w0 Sample.posts = Ok markdown) by reflexivity.
  destruct (reports_share_statistics_and_order Sample.w0 Sample.posts html text markdown
              Hh Ht Hm)
    as (urgent & not_started & groups & dates & Hu & Hn & _ & _ & _ & Ha & _).
  exists html, text, markdown, urgent, not_started, dates.
  repeat (split; [assumption|]). assumption.
Defined.

(** *** The fetch *)

Lemma due_well_formed_intro (w : world) (record : raw_record) (d : date) :
  fromisoformat w (get (default ∅ (raw_fields record)) (due_date_field w) VNone) = Ok d ->
  due_well_formed w record.
Proof. intros H. right. eauto. Qed.

Lemma process_record_defaults (w : world) (record : raw_record) :
  due_well_formed w record ->
  exists p, process_record w record = Ok p /\ normalised w record p.
Proof.
  unfold due_well_formed, process_record, normalised.
  set (fields := default ∅ (raw_fields record)).
  set (due := get fields (due_date_field w) VNone).
  intros [Hd | [d Hd]].
  - rewrite Hd. eexists. split; [reflexivity|].
    repeat split; repeat (rewrite lookup_insert_ne by done); by rewrite lookup_insert_eq.
  - destruct (truthy due); rewrite ?Hd; simpl; (eexists; split; [reflexivity|]);
      repeat split; repeat (rewrite lookup_insert_ne by done); by rewrite lookup_insert_eq.
Qed.

Lemma process_records_defaults (w : world) (records : list raw_record) :
  Forall (due_well_formed w) records ->
  exists posts, _process_records w records = Ok posts /\ Forall2 (normalised w) records posts.
Proof.
  induction 1 as [|r rs Hr _ (posts & IH & Hn)]; simpl.
  - eauto.
  - destruct (process_record_defaults w r Hr) as (p & -> & Hp). simpl.
    rewrite IH. simpl. eauto.
Qed.

(** C4 (as amended): when the due date of every served record is blank or a
    date that [datetime.fromisoformat] reads, the fetch returns a list; after a failure of the transport
    or a rejected request the list is empty and the cause is printed on the
    console; otherwise every served record is normalised, a missing field
    taking the default of the data model, and nothing is printed. *)
Theorem fetch_degrades_and_defaults (self : AirtableBlogFetcher.t) (w : world) :
  Forall (due_well_formed w) (served self w) ->
  exists posts,
    fst (get_posts_due_this_week self w) = Ok posts
    /\ match http w (build_request self w) with
       | ConnectionFailed msg =>
           posts = []
           /\ console (snd (get_posts_due_this_week self w))
              = console w ++ [lit "Error fetching data from Airtable: " ++ msg]
       | BadStatus msg text =>
           posts = []
           /\ console (snd (get_posts_due_this_week self w))
              = console w ++ [lit "Error fetching data from Airtable: " ++ msg;
                              lit "Response: " ++ text]
       | Success _ =>
           Forall2 (normalised w) (served self w) posts
           /\ snd (get_posts_due_this_week self w) = w
       end.
Proof.
  unfold served, get_posts_due_this_week.
  destruct (http w (build_request self w)) as [msg | msg text | records]; intros H.
  - exists []. repeat split.
  - exists []. repeat split. simpl. by rewrite <- app_assoc.
  - destruct (process_records_defaults w _ H) as (posts & Hp & Hn).
    exists posts. simpl. auto.
Qed.

Lemma fetch_degrades_and_defaults_witness :
  Forall (due_well_formed Sample.w0) (served Sample.fetcher Sample.w0)
  /\ exists posts,
       fst (get_posts_due_this_week Sample.fetcher Sample.w0) = Ok posts
       /\ Forall2 (normalised Sample.w0) (served Sample.fetcher Sample.w0) posts
       /\ snd (get_posts_due_this_week Sample.fetcher Sample.w0) = Sample.w0.
Proof.
  assert (H : Forall (due_well_formed Sample.w0) (served Sample.fetcher Sample.w0)).
  { change (Forall (due_well_formed Sample.w0) Sample.table).
    apply List.Forall_cons; [|apply List.Forall_cons; [|apply List.Forall_cons; [|apply List.Forall_nil]]].
    - apply (due_well_formed_intro _ _ (mkdate 2025 1 10)). reflexivity.
    - apply (due_well_formed_intro _ _ (mkdate 2025 1 10)). reflexivity.
    - apply (due_well_formed_intro _ _ (mkdate 2025 1 12)). reflexivity. }
  split; [exact H|].
  exact (fetch_degrades_and_defaults Sample.fetcher Sample.w0 H).
Defined.

(** C4 (counterexample): the service delivers a record whose due date field
    holds the text "soon"; the fetch raises [ValueError]. *)
Lemma fetch_raises_on_malformed_due_date :
  let record := mkraw (Some (VStr (lit "rec9")))
                  (Some (Sample.fields_of [Sample.entry "Title" (VStr (lit "D"));
                                           Sample.entry "Due Date" (VStr (lit "soon"))])) in
  fst (get_posts_due_this_week Sample.fetcher
         (Sample.world_with [record] (fun _ => Accepts)))
  = Raise ValueError.
Proof. reflexivity. Qed.

(** *** The exceptions of message composition

    Composing a message reads and renders the record set; none of its
    exceptions belongs to the mail transport. *)

Create HintDb no_auth.

Lemma no_auth_ok {A} (a : A) : no_auth (Ok a).
Proof. intros e H. discriminate. Qed.

Lemma no_auth_bind {A B} (m : result A) (k : A -> result B) :
  no_auth m -> (forall a, no_auth (k a)) -> no_auth (bind m k).
Proof.
  intros Hm Hk e. destruct m as [a|e']; cbn [bind].
  - apply Hk.
  - intros [= ->]. by apply Hm.
Qed.

Lemma no_auth_getitem d k : no_auth (getitem d k).
Proof. unfold getitem. destruct (d !! k); intros e [= <-]; discriminate. Qed.

Lemma no_auth_le_int v n : no_auth (le_int v n).
Proof. destruct v; intros e [= <-]; discriminate. Qed.

Lemma no_auth_len v : no_auth (len v).
Proof. destruct v; intros e [= <-]; discriminate. Qed.

Lemma no_auth_slice v n : no_auth (slice v n).
Proof. destruct v; intros e [= <-]; discriminate. Qed.

Lemma no_auth_lt a b : no_auth (EmailFormatter.lt a b).
Proof. destruct a, b; intros e [= <-]; discriminate. Qed.

Lemma no_auth_fromisoformat w v : no_auth (fromisoformat w v).
Proof.
  destruct v as [| | |s]; cbn [fromisoformat]; try (intros e [= <-]; discriminate).
  destruct (if calendar_form s then calendar_date s else iso_beyond w s);
    intros e [= <-]; discriminate.
Qed.

Lemma no_auth_load w : no_auth (EmailFormatter.load_blog_posts w).
Proof.
  unfold EmailFormatter.load_blog_posts.
  destruct (blog_posts_due_json w); intros e [= <-]; discriminate.
Qed.

#[local] Hint Resolve no_auth_ok no_auth_getitem no_auth_le_int no_auth_len no_auth_slice
  no_auth_lt no_auth_fromisoformat no_auth_load : no_auth.

Ltac no_auth_step :=
  match goal with
  | |- no_auth (bind _ _) => apply no_auth_bind; [|intros ?]
  | |- no_auth (if ?b then _ else _) => destruct b
  | |- no_auth (match ?x with _ => _ end) => destruct x
  | |- _ => solve [auto with no_auth]
  end.

Ltac no_auth := repeat no_auth_step.

Lemma no_auth_group_by_date posts : forall acc, no_auth (group_by_date posts acc).
Proof. induction posts; intros acc; cbn [group_by_date]; no_auth. Qed.

Lemma no_auth_count_urgent posts : no_auth (count_urgent posts).
Proof. induction posts; cbn [count_urgent]; no_auth. Qed.

Lemma no_auth_count_not_started posts : no_auth (count_not_started posts).
Proof. induction posts; cbn [count_not_started]; no_auth. Qed.

Lemma no_auth_insert_sorted x l : no_auth (insert_sorted x l).
Proof. induction l; cbn [insert_sorted]; no_auth. Qed.

Lemma no_auth_sorted l : no_auth (sorted l).
Proof.
  unfold sorted. generalize (@nil value).
  induction l; intros acc; cbn [sorted_from]; no_auth.
  apply no_auth_insert_sorted.
Qed.

Lemma no_auth_notes_preview n v : no_auth (notes_preview n v).
Proof. unfold notes_preview. no_auth. Qed.

#[local] Hint Resolve no_auth_group_by_date no_auth_count_urgent no_auth_count_not_started
  no_auth_sorted no_auth_notes_preview : no_auth.

Lemma no_auth_html_card p : no_auth (html_card p).
Proof. unfold html_card. no_auth. Qed.

Lemma no_auth_html_cards ps : no_auth (html_cards ps).
Proof. induction ps; cbn [html_cards]; no_auth. apply no_auth_html_card. Qed.

Lemma no_auth_html_sections w g dates : no_auth (html_sections w g dates).
Proof.
  induction dates; cbn [html_sections]; no_auth.
  unfold html_section. no_auth. apply no_auth_html_cards.
Qed.

Lemma no_auth_text_entry i p : no_auth (text_entry i p).
Proof. unfold text_entry. no_auth. Qed.

Lemma no_auth_text_entries ps : forall i, no_auth (text_entries i ps).
Proof. induction ps; intros i; cbn [text_entries]; no_auth. apply no_auth_text_entry. Qed.

Lemma no_auth_text_sections w g dates : no_auth (text_sections w g dates).
Proof.
  induction dates; cbn [text_sections]; no_auth.
  unfold text_section. no_auth. apply no_auth_text_entries.
Qed.

#[local] Hint Resolve no_auth_html_sections no_auth_text_sections : no_auth.

Lemma no_auth_create_message self w recipient subject cc bcc :
  no_auth (create_message self w recipient subject cc bcc).
Proof.
  unfold create_message, create_html_email, create_plain_text_email. no_auth.
  all: intros ? [= <-]; discriminate.
Qed.

(** *** The outcomes of [send_email] *)

Lemma console_prints (lines : list (list N)) :
  forall w, console (prints lines w) = console w ++ lines
            /\ outbox (prints lines w) = outbox w
            /\ email_send_log_json (prints lines w) = email_send_log_json w
            /\ sessions (prints lines w) = sessions w
            /\ smtp (prints lines w) = smtp w.
Proof.
  unfold prints. induction lines as [|l ls IH]; intros w; cbn [fold_left].
  - by rewrite app_nil_r.
  - destruct (IH (print l w)) as (-> & -> & -> & -> & ->).
    cbn [print console outbox email_send_log_json sessions smtp].
    by rewrite <- app_assoc.
Qed.


Lemma on_exception_effect (e : exn) (w : world) :
  fst (on_exception e w) = false
  /\ outbox (snd (on_exception e w)) = outbox w
  /\ email_send_log_json (snd (on_exception e w)) = email_send_log_json w
  /\ console (snd (on_exception e w))
     = console w ++ (match e with
                     | SMTPAuthenticationError => authentication_guidance
                     | _ => [error_line w e]
                     end).
Proof.
  destruct e; cbn [on_exception fst snd];
    try (by cbn [print outbox email_send_log_json console]).
  by destruct (console_prints authentication_guidance w) as (-> & -> & -> & _).
Qed.



(** *** Sending to several recipients *)

(** The console only grows. *)
Lemma print_grows (line : list N) (w : world) : console w `prefix_of` console (print line w).
Proof. by exists [line]. Qed.

Lemma prints_grows (lines : list (list N)) :
  forall w, console w `prefix_of` console (prints lines w).
Proof.
  unfold prints. induction lines as [|l ls IH]; intros w; cbn [fold_left]; [done|].
  etrans; [apply (print_grows l)|apply IH].
Qed.

Lemma on_exception_grows (e : exn) (w : world) :
  console w `prefix_of` console (snd (on_exception e w)).
Proof.
  destruct e; cbn [on_exception snd]; first [apply print_grows | apply prints_grows].
Qed.

Ltac grows :=
  repeat first
    [ reflexivity
    | (etrans; [|apply print_grows])
    | (etrans; [|apply on_exception_grows]) ].

Lemma send_email_grows (self : GmailSender.t) (w : world) (recipient : list N)
    (subject : option (list N)) (cc bcc : option addresses) (test_mode : bool) :
  console w `prefix_of`
    console (snd (send_email self w recipient subject cc bcc test_mode)).
Proof.
  unfold send_email.
  destruct (create_message self w recipient subject cc bcc) as [[msg posts]|e];
    [|apply on_exception_grows].
  destruct test_mode.
  - cbv zeta. cbn [snd]. destruct (Cc msg) as [[|c s]|]; grows.
  - cbv zeta. unfold open_session.
    assert (Ht : forall w0, console w0 `prefix_of`
                   console (snd (transmit self w0 msg posts recipient cc bcc))).
    { intros w0. unfold transmit, _log_send.
      destruct (given cc), (given bcc);
        cbn [email_send_log_json print deliver];
        destruct (email_send_log_json w0); cbn [snd];
        cbn [console set_log_file print deliver];
        repeat first [ by eexists | rewrite <- app_assoc ]. }
    destruct (smtp _ _) as [m|m| |m| |reached m]; cbn [snd].
    1-4: etrans; [|apply on_exception_grows]; cbn [console]; apply print_grows.
    + match goal with |- context [transmit self ?w0 _ _ _ _ _] =>
        specialize (Ht w0); destruct (transmit self w0 msg posts recipient cc bcc)
          as [[[]|e] w1] end;
        cbn [snd] in Ht |- *; try (etrans; [|apply on_exception_grows]);
        (etrans; [|exact Ht]); cbn [console]; apply print_grows.
    + etrans; [|apply on_exception_grows].
      destruct reached; try (cbn [console]; apply print_grows).
      etrans; [|apply Ht]. cbn [console]. apply print_grows.
Qed.

Lemma in_grown (x : list N) (l1 l2 : list (list N)) :
  l1 `prefix_of` l2 -> In x l1 -> In x l2.
Proof. intros [k ->] H. apply in_or_app. by left. Qed.

Lemma send_each_spec (self : GmailSender.t) (subject : option (list N))
    (recipients : list (list N)) :
  forall (w : world) (successful failed : list (list N)),
    let result := send_each self w recipients subject successful failed in
    exists s f,
      fst result = (successful ++ s, failed ++ f)
      /\ Permutation (s ++ f) recipients
      /\ sublist s recipients /\ sublist f recipients
      /\ console w `prefix_of` console (snd result)
      /\ Forall (fun r => In (sending_to r) (console (snd result))) recipients.
Proof.
  induction recipients as [|r rs IH]; intros w successful failed; cbn [send_each].
  - exists [], []. rewrite !app_nil_r. cbn [fst snd]. repeat split; done.
  - cbv zeta.
    set (w1 := print (nl ++ [128231%N] ++ lit " Sending to " ++ r ++ lit "...") w).
    pose proof (send_email_grows self w1 r subject None None false) as Hg.
    destruct (send_email self w1 r subject None None false) as [sent w2].
    cbn [snd] in Hg.
    assert (Hline : In (sending_to r) (console w2)).
    { apply (in_grown _ _ _ Hg). subst w1. cbn [print console].
      apply in_or_app. right. by left. }
    assert (Hw : console w `prefix_of` console w2).
    { etrans; [|exact Hg]. apply print_grows. }
    destruct sent.
    + destruct (IH w2 (successful ++ [r]) failed) as (s & f & He & Hp & Hs & Hf & Hc & Hall).
      exists (r :: s), f. rewrite He, <- app_assoc. split; [done|].
      split; [by apply Permutation_cons|].
      split; [by apply sublist_skip|]. split; [by apply sublist_cons|].
      split; [by etrans|].
      apply List.Forall_cons; [by apply (in_grown _ _ _ Hc) | done].
    + destruct (IH w2 successful (failed ++ [r])) as (s & f & He & Hp & Hs & Hf & Hc & Hall).
      exists s, (r :: f). rewrite He, <- app_assoc. split; [done|].
      split; [by rewrite <- Permutation_middle; apply Permutation_cons|].
      split; [by apply sublist_cons|]. split; [by apply sublist_skip|].
      split; [by etrans|].
      apply List.Forall_cons; [by apply (in_grown _ _ _ Hc) | done].
Qed.

(** *** What a send reads and what it leaves as it is *)

Lemma same_inputs_trans (w1 w2 w3 : world) :
  same_inputs w1 w2 -> same_inputs w2 w3 -> same_inputs w1 w3.
Proof.
  intros (Hn & Ha & Hb & Hi) (Hn' & Ha' & Hb' & Hi').
  repeat split; congruence.
Qed.

Lemma fromisoformat_same (w w' : world) (v : value) :
  iso_beyond w' = iso_beyond w -> fromisoformat w' v = fromisoformat w v.
Proof. intros H. unfold fromisoformat. by rewrite H. Qed.

Lemma html_sections_same (w w' : world) (g : list (value * list (gmap (list N) value)))
    (dates : list value) :
  same_inputs w w' -> html_sections w' g dates = html_sections w g dates.
Proof.
  intros (Hn & _ & _ & Hi).
  induction dates as [|d dates IH]; cbn [html_sections]; [done|].
  rewrite IH. unfold html_section, today.
  by rewrite (fromisoformat_same w w' d Hi), Hn.
Qed.

Lemma text_sections_same (w w' : world) (g : list (value * list (gmap (list N) value)))
    (dates : list value) :
  same_inputs w w' -> text_sections w' g dates = text_sections w g dates.
Proof.
  intros (Hn & _ & _ & Hi).
  induction dates as [|d dates IH]; cbn [text_sections]; [done|].
  rewrite IH. unfold text_section, today.
  by rewrite (fromisoformat_same w w' d Hi), Hn.
Qed.

Lemma create_message_same (self : GmailSender.t) (w w' : world) (recipient : list N)
    (subject : option (list N)) (cc bcc : option addresses) :
  same_inputs w w' ->
  create_message self w' recipient subject cc bcc
  = create_message self w recipient subject cc bcc.
Proof.
  intros Hs. pose proof Hs as (Hn & Ha & Hb & Hi).
  assert (Hh : forall posts, create_html_email w' posts = create_html_email w posts).
  { intros posts. unfold create_html_email.
    destruct (group_by_date posts []); cbn [bind]; [|done].
    destruct (count_urgent posts); cbn [bind]; [|done].
    destruct (count_not_started posts); cbn [bind]; [|done].
    destruct (sorted _); cbn [bind]; [|done].
    by rewrite (html_sections_same w w'), Hn. }
  assert (Ht : forall posts,
             create_plain_text_email w' posts = create_plain_text_email w posts).
  { intros posts. unfold create_plain_text_email.
    destruct (group_by_date posts []); cbn [bind]; [|done].
    destruct (count_urgent posts); cbn [bind]; [|done].
    destruct (count_not_started posts); cbn [bind]; [|done].
    destruct (sorted _); cbn [bind]; [|done].
    by rewrite (text_sections_same w w'), Hn. }
  unfold create_message, EmailFormatter.load_blog_posts. rewrite Hb.
  destruct (blog_posts_due_json w) as [| |posts]; cbn [bind]; [done|done|].
  by rewrite Hh, Ht, Ha, Hn.
Qed.

Lemma on_exception_inputs (e : exn) (w : world) :
  same_inputs w (snd (on_exception e w))
  /\ smtp (snd (on_exception e w)) = smtp w
  /\ sessions (snd (on_exception e w)) = sessions w
  /\ email_send_log_json (snd (on_exception e w)) = email_send_log_json w.
Proof. destruct e; cbn [on_exception snd]; by repeat split. Qed.

Lemma transmit_inputs (self : GmailSender.t) (w : world) (msg : message)
    (posts : list (gmap (list N) value)) (recipient : list N) (cc bcc : option addresses) :
  same_inputs w (snd (transmit self w msg posts recipient cc bcc))
  /\ smtp (snd (transmit self w msg posts recipient cc bcc)) = smtp w
  /\ sessions (snd (transmit self w msg posts recipient cc bcc)) = sessions w.
Proof.
  unfold transmit, _log_send.
  destruct (given cc), (given bcc);
    cbn [print deliver email_send_log_json];
    destruct (email_send_log_json w); by repeat split.
Qed.

Lemma send_email_inputs (self : GmailSender.t) (w : world) (recipient : list N)
    (subject : option (list N)) (cc bcc : option addresses) (test_mode : bool) :
  same_inputs w (snd (send_email self w recipient subject cc bcc test_mode))
  /\ smtp (snd (send_email self w recipient subject cc bcc test_mode)) = smtp w.
Proof.
  unfold send_email.
  destruct (create_message self w recipient subject cc bcc) as [[msg posts]|e];
    [|by destruct (on_exception_inputs e w) as (? & ? & _)].
  destruct test_mode.
  - cbv zeta. cbn [snd]. destruct (Cc msg) as [[|c s]|]; by repeat split.
  - cbv zeta. unfold open_session.
    match goal with |- context [transmit self ?w0 _ _ _ _ _] =>
      pose proof (transmit_inputs self w0 msg posts recipient cc bcc) as (Hi & Hs & _);
      assert (H0 : same_inputs w w0 /\ smtp w0 = smtp w) by (by repeat split);
      destruct H0 as [Hi0 Hs0]
    end.
    destruct (smtp _ _) as [m|m| |m| |reached m].
    1-4: match goal with |- context [on_exception ?e ?w0] =>
           destruct (on_exception_inputs e w0) as (Hi' & Hs' & _);
           split; [by eapply same_inputs_trans | by rewrite Hs']
         end.
    + revert Hi Hs.
      destruct (transmit self _ msg posts recipient cc bcc) as [[[]|e] w1];
        cbn [snd]; intros Hi Hs.
      * split; [by eapply same_inputs_trans | by rewrite Hs].
      * destruct (on_exception_inputs e w1) as (Hi' & Hs' & _).
        split; [|by rewrite Hs', Hs].
        apply (same_inputs_trans _ _ _ Hi0). apply (same_inputs_trans _ _ _ Hi Hi').
    + match goal with |- context [on_exception ?e ?w0] =>
        destruct (on_exception_inputs e w0) as (Hi' & Hs' & _) end.
      split.
      * refine (same_inputs_trans _ _ _ _ Hi').
        destruct reached; try done; apply (same_inputs_trans _ _ _ Hi0 Hi).
      * rewrite Hs'. destruct reached; try done; by rewrite Hs.
Qed.

(** With a readable log and a message that can be composed, the outcome of
    [send_email] is the outcome of the session, and the session is used up. *)
Lemma send_email_session (self : GmailSender.t) (w : world) (recipient : list N)
    (subject : option (list N)) :
  email_send_log_json w <> Corrupt ->
  is_ok (create_message self w recipient subject None None) = true ->
  fst (send_email self w recipient subject None None false) = accepted (smtp w (sessions w))
  /\ sessions (snd (send_email self w recipient subject None None false)) = S (sessions w)
  /\ email_send_log_json (snd (send_email self w recipient subject None None false))
     <> Corrupt.
Proof.
  intros Hlog Hc. unfold send_email.
  destruct (create_message self w recipient subject None None) as [[msg posts]|e];
    [clear Hc|discriminate].
  cbv zeta. unfold open_session. cbn [print smtp sessions given app].
  destruct (smtp w (sessions w)) as [m|m| |m| |reached m]; cbn [accepted].
  1-4: match goal with |- context [on_exception ?e ?w0] =>
         destruct (on_exception_inputs e w0) as (_ & _ & -> & ->);
         by destruct e
       end.
  - unfold transmit, _log_send.
    cbn [given print deliver email_send_log_json].
    by destruct (email_send_log_json w).
  - match goal with |- context [on_exception ?e ?w0] =>
      destruct (on_exception_inputs e w0) as (_ & _ & -> & ->) end.
    split; [done|].
    destruct reached; try done.
    unfold transmit, _log_send.
    cbn [given print deliver email_send_log_json].
    by destruct (email_send_log_json w).
Qed.

Lemma send_each_sessions (self : GmailSender.t) (subject : option (list N))
    (recipients : list (list N)) :
  forall (w : world) (successful failed : list (list N)),
    email_send_log_json w <> Corrupt ->
    Forall (fun r => is_ok (create_message self w r subject None None) = true) recipients ->
    let schedule := sessions_of (smtp w) (sessions w) recipients in
    fst (send_each self w recipients subject successful failed)
    = (successful ++ List.map fst (List.filter (fun a => accepted (snd a)) schedule),
       failed ++ List.map fst (List.filter (fun a => negb (accepted (snd a))) schedule))
    /\ sessions (snd (send_each self w recipients subject successful failed))
       = (sessions w + length recipients)%nat.
Proof.
  induction recipients as [|r rs IH]; intros w successful failed Hlog Hall;
    cbn [send_each sessions_of].
  - cbn [List.filter List.map fst snd length]. rewrite !app_nil_r. split; [done | lia].
  - cbv zeta. apply List.Forall_cons_iff in Hall as [Hr Hrs].
    set (w1 := print (nl ++ [128231%N] ++ lit " Sending to " ++ r ++ lit "...") w).
    assert (Hw1 : same_inputs w w1) by (by repeat split).
    rewrite <- (create_message_same self w w1 r subject None None Hw1) in Hr.
    destruct (send_email_session self w1 r subject Hlog Hr) as (Hsent & Hsess & Hlog2).
    destruct (send_email_inputs self w1 r subject None None false) as (Hi & Hsmtp).
    destruct (send_email self w1 r subject None None false) as [sent w2].
    cbn [fst snd] in Hsent, Hsess, Hlog2, Hi, Hsmtp.
    change (smtp w1) with (smtp w) in Hsent, Hsmtp.
    change (sessions w1) with (sessions w) in Hsent, Hsess.
    assert (Hw2 : same_inputs w w2) by (by eapply same_inputs_trans).
    assert (Hrs2 : Forall (fun r => is_ok (create_message self w2 r subject None None) = true)
                     rs).
    { eapply List.Forall_impl; [|exact Hrs]. intros r' Hr'. cbv beta in Hr' |- *.
      by rewrite (create_message_same self w w2). }
    cbn [List.filter List.map fst snd length]. rewrite <- Hsent.
    destruct sent; cbn [negb].
    + destruct (IH w2 (successful ++ [r]) failed Hlog2 Hrs2) as [He Hn].
      rewrite He, Hn, Hsmtp, Hsess, <- app_assoc. cbn [List.map fst]. split; [done | lia].
    + destruct (IH w2 successful (failed ++ [r]) Hlog2 Hrs2) as [He Hn].
      rewrite He, Hn, Hsmtp, Hsess, <- app_assoc. cbn [List.map fst]. split; [done | lia].
Qed.

Lemma send_to_multiple_sessions (self : GmailSender.t) (w : world)
    (recipients : list (list N)) (subject : option (list N)) :
  fst (send_to_multiple self w recipients subject)
  = fst (send_each self w recipients subject [] [])
  /\ sessions (snd (send_to_multiple self w recipients subject))
     = sessions (snd (send_each self w recipients subject [] [])).
Proof.
  unfold send_to_multiple.
  destruct (send_each self w recipients subject [] []) as [[s f] w1].
  cbv zeta. cbn [fst snd]. split; [done|].
  destruct f as [|x f].
  - match goal with |- context [prints ?l ?w0] =>
      destruct (console_prints l w0) as (_ & _ & _ & -> & _) end. done.
  - match goal with |- context [prints ?l ?w0] =>
      destruct (console_prints l w0) as (_ & _ & _ & -> & _) end.
    cbn [print sessions].
    match goal with |- context [prints ?l ?w0] =>
      destruct (console_prints l w0) as (_ & _ & _ & -> & _) end. done.
Qed.

Lemma send_each_attempts (self : GmailSender.t) (subject : option (list N))
    (recipients : list (list N)) :
  forall (w : world) (successful failed : list (list N)),
    exists outcomes,
      attempts self subject w recipients outcomes
        (snd (send_each self w recipients subject successful failed))
      /\ fst (send_each self w recipients subject successful failed)
         = (successful ++ with_outcome true recipients outcomes,
            failed ++ with_outcome false recipients outcomes).
Proof.
  induction recipients as [|r rs IH]; intros w successful failed; cbn [send_each].
  - exists []. split; [constructor|]. unfold with_outcome. cbn. by rewrite !app_nil_r.
  - cbv zeta.
    pose proof (attempts_cons self subject w) as Hcons.
    unfold sending_to in Hcons.
    destruct (send_email self _ r subject None None false) as [sent w2] eqn:Hsend.
    destruct sent.
    + destruct (IH w2 (successful ++ [r]) failed) as (bs & Ha & He).
      exists (true :: bs). split.
      * specialize (Hcons (snd (send_each self w2 rs subject (successful ++ [r]) failed))
                      r rs bs).
        rewrite Hsend in Hcons. by apply Hcons.
      * rewrite He, <- app_assoc. done.
    + destruct (IH w2 successful (failed ++ [r])) as (bs & Ha & He).
      exists (false :: bs). split.
      * specialize (Hcons (snd (send_each self w2 rs subject successful (failed ++ [r])))
                      r rs bs).
        rewrite Hsend in Hcons. by apply Hcons.
      * rewrite He, <- app_assoc. done.
Qed.

(** C6: [send_to_multiple] makes one attempt for every recipient, in the
    order of the list and whatever the outcome of the attempts before it:
    it calls [send_email] once for each of them, after the line that
    announces the attempt, and the two lists it returns are the recipients
    for which the call returned [True] and those for which it returned
    [False]; they keep the order of the list and together are a permutation
    of it.  With a readable send log and a message that can be composed,
    every recipient takes one session of the transport, the next one; the
    first list holds the recipients whose session accepted the message, the
    second list the recipients whose session failed, in authentication or
    elsewhere. *)
Theorem send_to_multiple_partitions (self : GmailSender.t) (w : world)
    (recipients : list (list N)) (subject : option (list N)) :
  let result := send_to_multiple self w recipients subject in
  let successful := fst (fst result) in
  let failed := snd (fst result) in
  let schedule := sessions_of (smtp w) (sessions w) recipients in
  Permutation (successful ++ failed) recipients
  /\ (length successful + length failed = length recipients)%nat
  /\ sublist successful recipients /\ sublist failed recipients
  /\ Forall (fun r => In (sending_to r) (console (snd result))) recipients
  /\ (exists outcomes w',
        attempts self subject w recipients outcomes w'
        /\ successful = with_outcome true recipients outcomes
        /\ failed = with_outcome false recipients outcomes
        /\ console w' `prefix_of` console (snd result))
  /\ (email_send_log_json w <> Corrupt ->
      Forall (fun r => is_ok (create_message self w r subject None None) = true) recipients ->
      sessions (snd result) = (sessions w + length recipients)%nat
      /\ successful = List.map fst (List.filter (fun a => accepted (snd a)) schedule)
      /\ failed = List.map fst (List.filter (fun a => negb (accepted (snd a))) schedule)).
Proof.
  cbv zeta.
  assert (Hfirst : Permutation (fst (fst (send_to_multiple self w recipients subject))
                                ++ snd (fst (send_to_multiple self w recipients subject)))
                     recipients
                   /\ (length (fst (fst (send_to_multiple self w recipients subject)))
                       + length (snd (fst (send_to_multiple self w recipients subject)))
                       = length recipients)%nat
                   /\ sublist (fst (fst (send_to_multiple self w recipients subject))) recipients
                   /\ sublist (snd (fst (send_to_multiple self w recipients subject))) recipients
                   /\ Forall (fun r => In (sending_to r)
                                         (console (snd (send_to_multiple self w recipients
                                                          subject)))) recipients).
  { unfold send_to_multiple.
    destruct (send_each_spec self subject recipients w [] [])
      as (s & f & He & Hp & Hs & Hf & _ & Hall).
    cbv zeta in He, Hall.
    destruct (send_each self w recipients subject [] []) as [[s' f'] w1].
    cbn [fst snd] in He, Hall. injection He as -> ->. cbn [app].
    cbv zeta. cbn [fst snd].
    split; [done|]. split; [by rewrite <- (Permutation_length Hp), length_app|].
    split; [done|]. split; [done|].
    eapply List.Forall_impl; [|exact Hall]. intros r Hr. cbv beta in Hr |- *.
    revert Hr. apply in_grown.
    destruct f; repeat first [ reflexivity
                             | (etrans; [|apply prints_grows])
                             | (etrans; [|apply print_grows]) ]. }
  destruct Hfirst as (Hp & Hl & Hs & Hf & Hall).
  do 5 (split; [assumption|]).
  split.
  { destruct (send_each_attempts self subject recipients w [] []) as (bs & Ha & He).
    exists bs, (snd (send_each self w recipients subject [] [])).
    split; [exact Ha|]. unfold send_to_multiple.
    destruct (send_each self w recipients subject [] []) as [[s f] w1].
    cbn [fst snd app] in He |- *. injection He as -> ->. cbv zeta. cbn [fst snd].
    split; [done|]. split; [done|].
    destruct (with_outcome false recipients bs);
      repeat first [ reflexivity
                   | (etrans; [|apply prints_grows])
                   | (etrans; [|apply print_grows]) ]. }
  intros Hlog Hc.
  destruct (send_to_multiple_sessions self w recipients subject) as [-> ->].
  destruct (send_each_sessions self subject recipients w [] [] Hlog Hc) as [-> ->].
  done.
Qed.

Lemma send_to_multiple_partitions_witness :
  let script := fun n => match n with 1%nat => LoginRejected | _ => Accepts end in
  let w := Sample.world_of Sample.posts script in
  let recipients := [lit "a@example.com"; lit "b@example.com"; lit "c@example.com"] in
  let result := send_to_multiple Sample.sender w recipients None in
  email_send_log_json w <> Corrupt
  /\ Forall (fun r => is_ok (create_message Sample.sender w r None None None) = true)
       recipients
  /\ sessions (snd result) = 3%nat
  /\ fst (fst result) = [lit "a@example.com"; lit "c@example.com"]
  /\ snd (fst result) = [lit "b@example.com"].
Proof.
  intros script w recipients result.
  assert (Hlog : email_send_log_json w <> Corrupt) by discriminate.
  assert (Hc : Forall (fun r => is_ok (create_message Sample.sender w r None None None) = true)
                 recipients).
  { apply List.Forall_cons; [reflexivity|].
    apply List.Forall_cons; [reflexivity|].
    apply List.Forall_cons; [reflexivity|]. apply List.Forall_nil. }
  split; [exact Hlog|]. split; [exact Hc|].
  destruct (send_to_multiple_partitions Sample.sender w recipients None)
    as (_ & _ & _ & _ & _ & _ & H).
  exact (H Hlog Hc).
Defined.

(** Three recipients, of which the transport rejects the login for the
    second: the third is attempted and delivered. *)
Example send_to_multiple_second_rejected :
  let script := fun n => match n with 1%nat => LoginRejected | _ => Accepts end in
  let result :=
    send_to_multiple Sample.sender (Sample.world_of Sample.posts script)
      [lit "a@example.com"; lit "b@example.com"; lit "c@example.com"] None in
  fst result = ([lit "a@example.com"; lit "c@example.com"], [lit "b@example.com"])
  /\ List.map snd (outbox (snd result)) = [[lit "a@example.com"]; [lit "c@example.com"]]
  /\ List.map recipient (match email_send_log_json (snd result) with
                         | Document log => log
                         | _ => []
                         end)
     = [lit "a@example.com"; lit "c@example.com"].
Proof. repeat split; reflexivity. Qed.

(** *** The subject line *)

Lemma count_urgent_nonneg (posts : list (gmap (list N) value)) :
  forall n, count_urgent posts = Ok n -> 0 <= n.
Proof.
  induction posts as [|p ps IH]; cbn [count_urgent]; intros n H.
  - injection H as <-. lia.
  - inv_bind H. inv_bind H. inv_bind H. injection H as <-.
    specialize (IH _ Ha1). destruct a0; lia.
Qed.

Lemma digits_fuel_digits (fuel : nat) :
  forall n acc, Forall is_digit acc -> Forall is_digit (digits_fuel fuel n acc).
Proof.
  induction fuel as [|fuel IH]; intros n acc Hacc; cbn [digits_fuel]; [done|].
  assert (Hd : Forall is_digit ((48 + n mod 10)%N :: acc)).
  { apply List.Forall_cons; [|done]. unfold is_digit.
    assert (Hm : (n mod 10 < 10)%N) by (apply N.mod_lt; lia).
    revert Hm. generalize (n mod 10)%N. intros m Hm. lia. }
  destruct (N.ltb n 10); [done | by apply IH].
Qed.

Lemma str_of_nat_digits (k : nat) : Forall is_digit (str_of_Z (Z.of_nat k)).
Proof.
  assert (H : forall n, Forall is_digit (str_of_N n)).
  { intros n. apply digits_fuel_digits. apply List.Forall_nil. }
  destruct k; cbn [Z.of_nat str_of_Z]; apply H.
Qed.

Lemma digit_not_in (x : N) (s : list N) :
  (x < 48 \/ 57 < x)%N -> Forall is_digit s -> ~ In x s.
Proof.
  intros Hx Hs Hin. rewrite List.Forall_forall in Hs. specialize (Hs x Hin).
  unfold is_digit in Hs. lia.
Qed.

Lemma not_in_literal (x : N) (s : list N) :
  forallb (fun c => negb (N.eqb c x)) s = true -> ~ In x s.
Proof.
  intros H Hin. rewrite forallb_forall in H. specialize (H x Hin).
  rewrite N.eqb_refl in H. discriminate.
Qed.

Lemma create_message_subject (self : GmailSender.t) (w : world) (recipient : list N)
    (subject : option (list N)) (cc bcc : option addresses)
    (msg : message) (posts : list (gmap (list N) value)) :
  create_message self w recipient subject cc bcc = Ok (msg, posts) ->
  EmailFormatter.load_blog_posts w = Ok posts
  /\ exists urgent, count_urgent posts = Ok urgent
                    /\ Subject msg = choose_subject subject urgent posts.
Proof.
  unfold create_message. intros H.
  inv_bind H. inv_bind H. inv_bind H. inv_bind H. inv_bind H.
  injection H as <- <-. split; [done|]. exists a2. split; [done|]. reflexivity.
Qed.

(** C7 (counterexample): a caller that supplies the empty string as the
    subject gets the default subject, not the string it supplied. *)
Lemma empty_subject_is_replaced :
  choose_subject (Some []) 0 Sample.posts = lit "Weekly Blog Schedule - 3 Posts Due This Week"
  /\ option_map (fun r => Subject (fst r))
       (match create_message Sample.sender (Sample.world_of Sample.posts (fun _ => Accepts))
                (lit "a@example.com") (Some []) None None with
        | Ok r => Some r
        | Raise _ => None
        end)
     = Some ([128308%N] ++ lit " 2 URGENT Posts Due - Weekly Blog Schedule (3 total)").
Proof. split; reflexivity. Qed.

(** C7 (amended): the subject of every composed message.  A subject that the
    caller supplies and that is not the empty string is used as it is,
    whatever the number of urgent posts; without such a subject, the default
    subject shows the number of urgent posts and the total when a post is
    urgent, and the total only, with neither the red marker nor the word
    URGENT (the letter U does not occur), when none is. *)
Theorem subject_of_composed_message (self : GmailSender.t) (w : world) (recipient : list N)
    (subject : option (list N)) (cc bcc : option addresses)
    (msg : message) (posts : list (gmap (list N) value)) :
  create_message self w recipient subject cc bcc = Ok (msg, posts) ->
  exists urgent,
    count_urgent posts = Ok urgent /\ 0 <= urgent
    /\ match subject with
       | Some (c :: s) => Subject msg = c :: s
       | _ =>
           if 0 <? urgent then
             Subject msg =
               [128308%N] ++ lit " " ++ str_of_Z urgent
               ++ lit " URGENT Posts Due - Weekly Blog Schedule ("
               ++ str_of_Z (Z.of_nat (length posts)) ++ lit " total)"
           else
             urgent = 0
             /\ Subject msg =
                  lit "Weekly Blog Schedule - " ++ str_of_Z (Z.of_nat (length posts))
                  ++ lit " Posts Due This Week"
             /\ ~ In 128308%N (Subject msg) /\ ~ In 85%N (Subject msg)
       end.
Proof.
  intros H. apply create_message_subject in H as (_ & urgent & Hu & Hs).
  pose proof (count_urgent_nonneg _ _ Hu) as Hn.
  exists urgent. split; [done|]. split; [done|].
  assert (Hdefault :
    if 0 <? urgent then
      choose_subject None urgent posts =
        [128308%N] ++ lit " " ++ str_of_Z urgent
        ++ lit " URGENT Posts Due - Weekly Blog Schedule ("
        ++ str_of_Z (Z.of_nat (length posts)) ++ lit " total)"
    else
      urgent = 0
      /\ choose_subject None urgent posts =
           lit "Weekly Blog Schedule - " ++ str_of_Z (Z.of_nat (length posts))
           ++ lit " Posts Due This Week"
      /\ ~ In 128308%N (choose_subject None urgent posts)
      /\ ~ In 85%N (choose_subject None urgent posts)).
  { unfold choose_subject. destruct (0 <? urgent) eqn:E; [done|].
    apply Z.ltb_ge in E. split; [lia|]. split; [done|].
    split; intros Hin; apply in_app_or in Hin as [Hin | Hin];
      try apply in_app_or in Hin as [Hin | Hin].
    - by apply not_in_literal in Hin.
    - revert Hin. apply digit_not_in; [lia | apply str_of_nat_digits].
    - by apply not_in_literal in Hin.
    - by apply not_in_literal in Hin.
    - revert Hin. apply digit_not_in; [lia | apply str_of_nat_digits].
    - by apply not_in_literal in Hin. }
  rewrite Hs. destruct subject as [[|c s]|]; [exact Hdefault | reflexivity | exact Hdefault].
Qed.

Lemma subject_of_composed_message_witness :
  exists msg posts urgent,
    create_message Sample.sender (Sample.world_of Sample.posts (fun _ => Accepts))
      (lit "a@example.com") (Some (lit "Schedule")) None None = Ok (msg, posts)
    /\ count_urgent posts = Ok urgent
    /\ Subject msg = lit "Schedule".
Proof.
  set (r := match create_message Sample.sender (Sample.world_of Sample.posts (fun _ => Accepts))
                    (lit "a@example.com") (Some (lit "Schedule")) None None with
            | Ok r => r
            | Raise _ => (mkmessage [] [] [] [] None [] [] [] [] None, [])
            end).
  assert (H : create_message Sample.sender (Sample.world_of Sample.posts (fun _ => Accepts))
                (lit "a@example.com") (Some (lit "Schedule")) None None
              = Ok (fst r, snd r)) by reflexivity.
  destruct (subject_of_composed_message _ _ _ _ _ _ _ _ H) as (urgent & Hu & _ & Hs).
  exists (fst r), (snd r), urgent. split; [exact H|]. split; [exact Hu | exact Hs].
Defined.

(** *** The CSV table *)

Lemma read_in_field (tail : list N) (row : list (list N)) :
  field_end tail ->
  forall s acc, existsb special s = false ->
    CsvReader.read (s ++ tail) CsvReader.InField acc row = after_field tail (acc ++ s) row.
Proof.
  intros Ht. induction s as [|c s IH]; intros acc Hs.
  - rewrite app_nil_r. cbn [app]. destruct Ht as [-> | [t ->]]; [done|].
    cbn [CsvReader.read after_field]. by rewrite N.eqb_refl.
  - cbn [existsb] in Hs. apply orb_false_elim in Hs as [Hc Hs].
    unfold special in Hc. repeat (apply orb_false_elim in Hc as [Hc ?]).
    cbn [app CsvReader.read]. rewrite Hc. rewrite (IH _ Hs).
    by rewrite <- app_assoc.
Qed.

Lemma read_in_quoted (tail : list N) (row : list (list N)) :
  field_end tail ->
  forall s acc,
    CsvReader.read (double_quotes s ++ dq :: tail) CsvReader.InQuoted acc row
    = after_field tail (acc ++ s) row.
Proof.
  intros Ht. induction s as [|c s IH]; intros acc.
  - rewrite app_nil_r. cbn [double_quotes app CsvReader.read]. rewrite N.eqb_refl.
    destruct Ht as [-> | [t ->]]; [done|]. cbn [CsvReader.read after_field].
    by replace (N.eqb 44 dq) with false by done.
  - cbn [double_quotes]. destruct (N.eqb c dq) eqn:Hc.
    + apply N.eqb_eq in Hc as ->. cbn [app CsvReader.read]. rewrite N.eqb_refl.
      rewrite IH. by rewrite <- app_assoc.
    + cbn [app CsvReader.read]. rewrite Hc, IH. by rewrite <- app_assoc.
Qed.

Lemma read_csv_field (tail : list N) (row : list (list N)) (s : list N) :
  field_end tail ->
  CsvReader.read (csv_field s ++ tail) CsvReader.StartField [] row = after_field tail s row.
Proof.
  intros Ht. unfold csv_field. destruct (existsb special s) eqn:Hs.
  - cbn [app CsvReader.read]. rewrite N.eqb_refl. rewrite <- app_assoc.
    cbn [app]. by rewrite read_in_quoted.
  - destruct s as [|c s].
    + cbn [app]. destruct Ht as [-> | [t ->]]; [done|].
      cbn [CsvReader.read after_field]. by replace (N.eqb 44 dq) with false by done.
    + cbn [existsb] in Hs. apply orb_false_elim in Hs as [Hc Hs].
      unfold special in Hc. apply orb_false_elim in Hc as [Hc _].
      apply orb_false_elim in Hc as [Hc _]. apply orb_false_elim in Hc as [Hc Hq].
      cbn [app CsvReader.read]. rewrite Hc, Hq.
      by rewrite (read_in_field tail row Ht s [c] Hs).
Qed.

Lemma read_join (cells : list (list N)) :
  cells <> [] ->
  forall row, CsvReader.read (join (lit ",") (List.map csv_field cells))
                CsvReader.StartField [] row = row ++ cells.
Proof.
  induction cells as [|c cells IH]; [done|]. intros _ row.
  destruct cells as [|c' cells].
  - cbn [List.map join]. rewrite <- (app_nil_r (csv_field c)).
    rewrite read_csv_field by by left. done.
  - change (join (lit ",") (List.map csv_field (c :: c' :: cells)))
      with (csv_field c ++ 44%N :: join (lit ",") (List.map csv_field (c' :: cells))).
    rewrite read_csv_field by (right; eauto). cbn [after_field].
    rewrite IH by done. by rewrite <- app_assoc.
Qed.

(** Every row that [writerow] writes is read back as the cells it was
    written from. *)
Lemma writerow_read_row (cells : list (list N)) :
  cells <> [] ->
  exists line, writerow cells = line ++ crlf /\ CsvReader.read_row line = cells.
Proof.
  intros Hne. unfold writerow.
  destruct cells as [|c cells]; [done|].
  destruct c as [|x c]; [destruct cells as [|c' cells]|].
  - exists [dq; dq]. done.
  - eexists. split; [reflexivity|]. unfold CsvReader.read_row. by rewrite read_join.
  - eexists. split; [reflexivity|]. unfold CsvReader.read_row. by rewrite read_join.
Qed.

Lemma csv_row_ignores_extras (post : gmap (list N) value) (k : list N) (v : value) :
  ~ In k fieldnames -> csv_row (<[k := v]> post) = csv_row post.
Proof.
  intros Hk. unfold csv_row, _dict_to_list. f_equal. f_equal.
  apply map_ext_in. intros key Hkey. unfold get.
  rewrite lookup_insert_ne; [done|]. by intros ->.
Qed.

(** C8: [example_7_csv_export] writes, for every record set that loads, the
    header of the eight columns and one row for each record, and does not
    raise.  The row of a record reads back as one cell for each column: the
    text of the value that the record has under the column, the empty cell
    where it has none.  A string value is in its cell as it is, at any
    length, and a key outside the columns changes nothing in the row. *)
Theorem csv_export_cells (w : world) (posts : list (gmap (list N) value)) :
  blog_posts_due_json w = Document posts ->
  let result := example_7_csv_export w in
  fst result = Ok tt
  /\ blog_posts_csv (snd result)
     = Some (lit "title,due_date,days_until_due,status,priority,author,category,word_count_target"
             ++ crlf ++ List.concat (List.map csv_row posts))
  /\ (forall post,
        exists line,
          csv_row post = line ++ crlf
          /\ CsvReader.read_row line
             = [cell post "title"; cell post "due_date"; cell post "days_until_due";
                cell post "status"; cell post "priority"; cell post "author";
                cell post "category"; cell post "word_count_target"])
  /\ (forall post column, post !! lit column = None -> cell post column = [])
  /\ (forall post column s, post !! lit column = Some (VStr s) -> cell post column = s)
  /\ (forall post k v, ~ In k fieldnames -> csv_row (<[k := v]> post) = csv_row post).
Proof.
  intros Hfile result. subst result. unfold example_7_csv_export.
  cbv zeta. unfold ParseBlogPosts.load_blog_posts.
  cbn [print blog_posts_due_json]. rewrite Hfile. cbn [fst snd].
  split; [done|]. split; [done|].
  split; [|split; [|split]].
  - intros post. apply (writerow_read_row (List.map cell_text (_dict_to_list post))).
    done.
  - intros post column H. unfold cell, get. by rewrite H.
  - intros post column s H. unfold cell, get. by rewrite H.
  - apply csv_row_ignores_extras.
Qed.

Lemma csv_export_cells_witness :
  let w := Sample.world_of Sample.posts (fun _ => Accepts) in
  blog_posts_due_json w = Document Sample.posts
  /\ fst (example_7_csv_export w) = Ok tt.
Proof.
  intros w. split; [reflexivity|].
  exact (proj1 (csv_export_cells w Sample.posts eq_refl)).
Defined.

(** *** The request of the fetch *)

Lemma date_ltb_spec (a b : date) :
  date_ltb a b = true <->
  year a < year b
  \/ (year a = year b /\ (month a < month b \/ (month a = month b /\ day a < day b))).
Proof.
  unfold date_ltb.
  rewrite orb_true_iff, andb_true_iff, orb_true_iff, andb_true_iff.
  rewrite !Z.ltb_lt, !Z.eqb_eq. tauto.
Qed.

Lemma date_ltb_irrefl (d : date) : date_ltb d d = false.
Proof.
  apply not_true_iff_false. rewrite date_ltb_spec. lia.
Qed.

Lemma date_ltb_asym (a b : date) : date_ltb a b = true -> date_ltb b a = false.
Proof.
  intros H. apply not_true_iff_false. rewrite date_ltb_spec in *. lia.
Qed.

Lemma filter_formula_render (field : list N) (start stop : date) :
  filter_formula field (isoformat start) (isoformat stop)
  = Airtable.render (window_filter field start stop).
Proof.
  unfold filter_formula, window_filter.
  cbn [Airtable.render Airtable.render_term].
  repeat rewrite <- app_assoc. reflexivity.
Qed.

Lemma before_asym (field : list N) (r1 r2 : raw_record) :
  Airtable.before field r1 r2 = true -> Airtable.before field r2 r1 = false.
Proof.
  unfold Airtable.before.
  destruct (Airtable.field_date r1 field), (Airtable.field_date r2 field); try done.
  apply date_ltb_asym.
Qed.

Lemma insert_record_ascending (field : list N) (r : raw_record) (l : list raw_record) :
  ascending_by field l -> ascending_by field (Airtable.insert_record field r l).
Proof.
  unfold ascending_by. induction l as [|r' l IH]; intros Hl; cbn [Airtable.insert_record].
  - repeat constructor.
  - destruct (Airtable.before field r r') eqn:Hb.
    + constructor; [done|]. constructor. by apply before_asym.
    + apply Sorted_inv in Hl as [Hl Hhd]. constructor; [by apply IH|].
      destruct l as [|r'' l]; cbn [Airtable.insert_record].
      * by constructor.
      * destruct (Airtable.before field r r''); constructor; [done|].
        by apply HdRel_inv in Hhd.
Qed.

Lemma insert_record_perm (field : list N) (r : raw_record) (l : list raw_record) :
  Permutation (Airtable.insert_record field r l) (r :: l).
Proof.
  induction l as [|r' l IH]; cbn [Airtable.insert_record]; [done|].
  destruct (Airtable.before field r r'); [done|].
  rewrite IH. apply perm_swap.
Qed.

Lemma sort_records_spec (field : list N) (l : list raw_record) :
  ascending_by field (Airtable.sort_records field l)
  /\ Permutation (Airtable.sort_records field l) l.
Proof.
  unfold Airtable.sort_records.
  assert (H : forall acc, ascending_by field acc ->
            ascending_by field (fold_left (fun acc r => Airtable.insert_record field r acc) l acc)
            /\ Permutation (fold_left (fun acc r => Airtable.insert_record field r acc) l acc)
                 (acc ++ l)).
  { induction l as [|r l IH]; intros acc Hacc; cbn [fold_left].
    - by rewrite app_nil_r.
    - destruct (IH (Airtable.insert_record field r acc)) as [Hs Hp];
        [by apply insert_record_ascending|].
      split; [done|]. rewrite Hp, insert_record_perm. cbn [app]. apply Permutation_middle. }
  apply (H []). constructor.
Qed.

(** C9: the request of [get_posts_due_this_week] carries the formula that
    holds of exactly the records whose due-date field is a date later than
    today and earlier than the day seven days from today, neither of the two
    days included, and asks for an ascending sort by the due-date field; the
    service then lists exactly the records of the window, in ascending order
    of the due date. *)
Theorem fetch_window_is_exclusive (self : AirtableBlogFetcher.t) (w : world) :
  let request := build_request self w in
  let field := due_date_field w in
  let start := today w in
  let stop := add_days (today w) 7 in
  let window := window_filter field start stop in
  filterByFormula request = Airtable.render window
  /\ sort_field request = field
  /\ sort_direction request = lit "asc"
  /\ (forall record,
        Airtable.holds record window = true <->
        exists d, Airtable.field_date record field = Some d
                  /\ date_ltb start d = true /\ date_ltb d stop = true)
  /\ (forall record,
        Airtable.field_date record field = Some start
        \/ Airtable.field_date record field = Some stop
        \/ Airtable.field_date record field = None ->
        Airtable.holds record window = false)
  /\ (forall table,
        let listed :=
          Airtable.list_records table window (sort_field request) (sort_direction request) in
        (forall record, In record listed <->
                        In record table /\ Airtable.holds record window = true)
        /\ ascending_by field listed).
Proof.
  cbv zeta. split; [apply filter_formula_render|]. split; [done|]. split; [done|].
  assert (Hholds : forall record,
    Airtable.holds record (window_filter (due_date_field w) (today w) (add_days (today w) 7))
    = match Airtable.field_date record (due_date_field w) with
      | Some d => date_ltb (today w) d && date_ltb d (add_days (today w) 7)
      | None => false
      end).
  { intros record. unfold window_filter. cbn [Airtable.holds Airtable.eval].
    by destruct (Airtable.field_date record (due_date_field w)). }
  split; [|split].
  - intros record. rewrite Hholds.
    destruct (Airtable.field_date record (due_date_field w)) as [d|].
    + rewrite andb_true_iff. split.
      * intros [? ?]. by exists d.
      * by intros (d' & [= <-] & ? & ?).
    + split; [done|]. by intros (d' & [=] & _).
  - intros record H. rewrite Hholds. destruct H as [-> | [-> | ->]]; [| |done].
    + by rewrite date_ltb_irrefl.
    + by rewrite date_ltb_irrefl, andb_false_r.
  - intros table. unfold Airtable.list_records. cbn [build_request sort_field sort_direction].
    rewrite decide_True by done.
    destruct (sort_records_spec (due_date_field w)
                (List.filter (fun r => Airtable.holds r
                   (window_filter (due_date_field w) (today w) (add_days (today w) 7))) table))
      as [Hs Hp].
    split; [|done]. intros record. split.
    + intros H. apply (Permutation_in _ Hp) in H. by apply filter_In in H.
    + intros H. apply (Permutation_in _ (Permutation_sym Hp)). by apply filter_In.
Qed.

(** The request on 2025-01-09. *)
Example filter_on_2025_01_09 :
  filterByFormula (build_request Sample.fetcher Sample.w0)
  = lit "AND(IS_AFTER({Due Date}, '2025-01-09'), IS_BEFORE({Due Date}, '2025-01-16'))".
Proof. reflexivity. Qed.

(** *** Records without the days-until-due entry *)

Lemma group_by_date_result (posts : list (gmap (list N) value)) :
  forall acc,
    (exists g, group_by_date posts acc = Ok g)
    \/ group_by_date posts acc = Raise (KeyError (lit "due_date")).
Proof.
  induction posts as [|p ps IH]; intros acc; cbn [group_by_date].
  - eauto.
  - unfold getitem. destruct (p !! lit "due_date") as [key|]; cbn [bind]; [apply IH | by right].
Qed.

Lemma count_urgent_missing (posts : list (gmap (list N) value)) :
  Exists lacks_days posts -> exists e, count_urgent posts = Raise e.
Proof.
  induction 1 as [p ps Hp | p ps _ [e IH]]; cbn [count_urgent]; unfold getitem.
  - rewrite Hp. cbn [bind]. eauto.
  - destruct (p !! lit "days_until_due") as [v|]; cbn [bind]; [|eauto].
    destruct (le_int v 2); cbn [bind]; [|eauto]. rewrite IH. cbn [bind]. eauto.
Qed.

Lemma count_urgent_missing_key (posts : list (gmap (list N) value)) :
  Exists lacks_days posts -> Forall days_is_number posts ->
  count_urgent posts = Raise (KeyError (lit "days_until_due")).
Proof.
  induction 1 as [p ps Hp | p ps _ IH]; intros Hn; cbn [count_urgent]; unfold getitem.
  - by rewrite Hp.
  - apply List.Forall_cons_iff in Hn as [Hp Hps].
    destruct (p !! lit "days_until_due") as [v|] eqn:E; cbn [bind]; [|done].
    destruct (Hp v E) as [n ->]. cbn [le_int bind]. by rewrite IH.
Qed.

Lemma create_html_email_missing (w : world) (posts : list (gmap (list N) value)) :
  Exists lacks_days posts ->
  (exists e, create_html_email w posts = Raise e)
  /\ (Forall days_is_number posts -> exists k, create_html_email w posts = Raise (KeyError k)).
Proof.
  intros H. unfold create_html_email.
  destruct (group_by_date_result posts []) as [[g ->] | ->]; cbn [bind]; [|by eauto].
  split.
  - destruct (count_urgent_missing posts H) as [e ->]. cbn [bind]. eauto.
  - intros Hn. rewrite (count_urgent_missing_key posts H Hn). cbn [bind]. eauto.
Qed.

Lemma create_plain_text_email_missing (w : world) (posts : list (gmap (list N) value)) :
  Exists lacks_days posts ->
  (exists e, create_plain_text_email w posts = Raise e)
  /\ (Forall days_is_number posts ->
      exists k, create_plain_text_email w posts = Raise (KeyError k)).
Proof.
  intros H. unfold create_plain_text_email.
  destruct (group_by_date_result posts []) as [[g ->] | ->]; cbn [bind]; [|by eauto].
  split.
  - destruct (count_urgent_missing posts H) as [e ->]. cbn [bind]. eauto.
  - intros Hn. rewrite (count_urgent_missing_key posts H Hn). cbn [bind]. eauto.
Qed.

(** C10 (counterexample): a record set whose first record has the text
    "soon" as its days until due and whose second record lacks the entry.
    The count of urgent posts, the two messages and [create_message] raise
    [TypeError] at the first record: the failure is not a key-lookup
    error. *)
Lemma rendering_raises_type_error :
  let posts := [<[lit "days_until_due" := VStr (lit "soon")]> (Sample.post_undated "A");
                Sample.post_undated "B"] in
  let w := Sample.world_of posts (fun _ => Accepts) in
  (lacks_days (Sample.post_undated "B")
   /\ count_urgent posts = Raise TypeError
   /\ create_html_email w posts = Raise TypeError
   /\ create_plain_text_email w posts = Raise TypeError)
  /\ create_message Sample.sender w (lit "a@example.com") None None None = Raise TypeError.
Proof. repeat split; reflexivity. Qed.

(** C10 (amended): on a record set with a record that lacks the
    days-until-due entry, [create_html_email], [create_plain_text_email],
    the count of urgent posts that [create_message] takes for the subject,
    and [create_message] itself raise instead of producing output; where
    every entry that is present is an integer, the exception is a
    [KeyError]. *)
Theorem rendering_needs_days_until_due (self : GmailSender.t) (w : world)
    (posts : list (gmap (list N) value)) (recipient : list N) (subject : option (list N))
    (cc bcc : option addresses) :
  Exists lacks_days posts ->
  let compose :=
    create_message self (set_posts_file (Document posts) w) recipient subject cc bcc in
  ((exists e, create_html_email w posts = Raise e)
   /\ (exists e, create_plain_text_email w posts = Raise e)
   /\ (exists e, count_urgent posts = Raise e)
   /\ (exists e, compose = Raise e))
  /\ (Forall days_is_number posts ->
      (exists k, create_html_email w posts = Raise (KeyError k))
      /\ (exists k, create_plain_text_email w posts = Raise (KeyError k))
      /\ count_urgent posts = Raise (KeyError (lit "days_until_due"))
      /\ (exists k, compose = Raise (KeyError k))).
Proof.
  intros H compose.
  destruct (create_html_email_missing w posts H) as [Hh Hhk].
  destruct (create_plain_text_email_missing w posts H) as [Ht Htk].
  destruct (create_html_email_missing (set_posts_file (Document posts) w) posts H)
    as [[e He] Hck].
  split; [|intros Hn]; repeat split; auto.
  - by apply count_urgent_missing.
  - exists e. unfold compose, create_message. cbn [EmailFormatter.load_blog_posts set_posts_file
      blog_posts_due_json bind]. by rewrite He.
  - by apply count_urgent_missing_key.
  - destruct (Hck Hn) as [k Hk]. exists k. unfold compose, create_message.
    cbn [EmailFormatter.load_blog_posts set_posts_file blog_posts_due_json bind].
    by rewrite Hk.
Qed.

Lemma rendering_needs_days_until_due_witness :
  Exists lacks_days [Sample.post_of "A" "2025-01-10" 1 ""; Sample.post_undated "B"]
  /\ count_urgent [Sample.post_of "A" "2025-01-10" 1 ""; Sample.post_undated "B"]
     = Raise (KeyError (lit "days_until_due")).
Proof.
  assert (H : Exists lacks_days
                [Sample.post_of "A" "2025-01-10" 1 ""; Sample.post_undated "B"]).
  { apply List.Exists_cons_tl, List.Exists_cons_hd. reflexivity. }
  split; [exact H|].
  refine (proj1 (proj2 (proj2
    (proj2 (rendering_needs_days_until_due Sample.sender Sample.w0 _ (lit "a@example.com")
              None None None H) _)))).
  apply List.Forall_cons; [|apply List.Forall_cons; [|apply List.Forall_nil]];
    intros v Hv.
  - exists 1. apply (inj Some). rewrite <- Hv. reflexivity.
  - exfalso. cut (@None value = Some v); [discriminate|]. rewrite <- Hv. reflexivity.
Defined.

(** ** Further properties of the sender *)

Lemma on_exception_frame (e : exn) (w : world) :
  fst (on_exception e w) = false
  /\ outbox (snd (on_exception e w)) = outbox w
  /\ email_send_log_json (snd (on_exception e w)) = email_send_log_json w
  /\ sessions (snd (on_exception e w)) = sessions w
  /\ blog_posts_due_json (snd (on_exception e w)) = blog_posts_due_json w
  /\ blog_posts_report_md (snd (on_exception e w)) = blog_posts_report_md w
  /\ blog_posts_csv (snd (on_exception e w)) = blog_posts_csv w.
Proof.
  destruct e; cbn [on_exception fst snd]; try done.
Qed.

(** X1: In test mode [send_email] composes the message and reports whether that
    succeeded: it returns [True] exactly when [create_message] returns, and
    then prints the sender, the recipient, the CC header when there is one,
    the subject and the number of posts.  It opens no session, hands nothing
    to the transport and leaves the send log as it is. *)
Theorem send_email_test_mode (self : GmailSender.t) (w : world) (recipient : list N)
    (subject : option (list N)) (cc bcc : option addresses) :
  let composed := create_message self w recipient subject cc bcc in
  let result := send_email self w recipient subject cc bcc true in
  fst result = is_ok composed
  /\ sessions (snd result) = sessions w
  /\ outbox (snd result) = outbox w
  /\ email_send_log_json (snd result) = email_send_log_json w
  /\ match composed with
     | Ok (msg, posts) =>
         console (snd result)
         = console w
           ++ [[128231%N] ++ lit " TEST MODE - Email prepared but not sent";
               lit "   From: " ++ From msg;
               lit "   To: " ++ To msg]
           ++ match Cc msg with
              | Some (c :: s) => [lit "   CC: " ++ c :: s]
              | _ => []
              end
           ++ [lit "   Subject: " ++ Subject msg;
               lit "   Posts included: " ++ str_of_Z (Z.of_nat (length posts))]
     | Raise e =>
         e <> SMTPAuthenticationError
         /\ console (snd result) = console w ++ [error_line w e]
     end.
Proof.
  cbv zeta. unfold send_email.
  pose proof (no_auth_create_message self w recipient subject cc bcc) as Hna.
  destruct (create_message self w recipient subject cc bcc) as [[msg posts]|e].
  - cbn [is_ok fst snd]. destruct (Cc msg) as [[|c s]|];
      cbn [print sessions outbox email_send_log_json console];
      repeat (split; [reflexivity|]); by rewrite <- !app_assoc.
  - destruct (on_exception_frame e w) as (-> & -> & -> & -> & _).
    repeat (split; [reflexivity|]). split; [by apply Hna|].
    destruct (on_exception_effect e w) as (_ & _ & _ & ->).
    destruct e; try done. by specialize (Hna _ eq_refl).
Qed.

(** X2: The addresses of [bcc_emails] are in no header of the message:
    [create_message] builds the same message whatever they are.  The
    transport nevertheless gets them: when it accepts the message, the
    envelope holds the recipient, then the CC addresses, then the BCC
    addresses.  The CC header is the single address, or the addresses of the
    list joined with a comma and a space. *)
Theorem bcc_is_envelope_only (self : GmailSender.t) (w : world) (recipient : list N)
    (subject : option (list N)) (cc bcc : option addresses)
    (msg : message) (posts : list (gmap (list N) value)) :
  create_message self w recipient subject cc bcc = Ok (msg, posts) ->
  smtp w (sessions w) = Accepts ->
  (forall bcc', create_message self w recipient subject cc bcc' = Ok (msg, posts))
  /\ To msg = recipient
  /\ Cc msg = (if given cc
               then match cc with
                    | Some (Addresses l) => Some (join (lit ", ") l)
                    | Some (Address a) => Some a
                    | None => None
                    end
               else None)
  /\ outbox (snd (send_email self w recipient subject cc bcc false))
     = outbox w ++ [(msg, recipient :: extra_recipients cc ++ extra_recipients bcc)].
Proof.
  intros Hc Hs. split; [intros bcc'; exact Hc|].
  assert (To msg = recipient
          /\ Cc msg = (if given cc
                       then match cc with
                            | Some (Addresses l) => Some (join (lit ", ") l)
                            | Some (Address a) => Some a
                            | None => None
                            end
                       else None)) as [Hto Hcc].
  { unfold create_message in Hc.
    inv_bind Hc. inv_bind Hc. inv_bind Hc. inv_bind Hc. inv_bind Hc.
    apply ok_inj in Hc. injection Hc as <- _. done. }
  split; [done|]. split; [done|].
  unfold send_email. rewrite Hc. cbv zeta. unfold open_session.
  cbn [print smtp sessions]. rewrite Hs.
  unfold transmit, _log_send, extra_recipients.
  destruct (given cc), (given bcc);
    cbn [print deliver email_send_log_json outbox console now];
    destruct (email_send_log_json w); cbn [snd set_log_file outbox];
    try done;
    match goal with
    | |- context [on_exception ?e ?w0] =>
        by destruct (on_exception_frame e w0) as (_ & -> & _)
    end.
Qed.

Lemma bcc_is_envelope_only_witness :
  let w := Sample.world_of Sample.posts (fun _ => Accepts) in
  let bcc := Some (Addresses [lit "x@example.com"; lit "y@example.com"]) in
  List.map snd (outbox (snd (send_email Sample.sender w (lit "a@example.com") None
                               (Some (Address (lit "c@example.com"))) bcc false)))
  = [[lit "a@example.com"; lit "c@example.com"; lit "x@example.com"; lit "y@example.com"]].
Proof.
  intros w bcc.
  set (r := match create_message Sample.sender w (lit "a@example.com") None
                    (Some (Address (lit "c@example.com"))) bcc with
            | Ok r => r
            | Raise _ => (mkmessage [] [] [] [] None [] [] [] [] None, [])
            end).
  assert (H : create_message Sample.sender w (lit "a@example.com") None
                (Some (Address (lit "c@example.com"))) bcc = Ok (fst r, snd r))
    by reflexivity.
  destruct (bcc_is_envelope_only _ _ _ _ _ _ _ _ H eq_refl) as (_ & _ & _ & ->).
  reflexivity.
Defined.

(** X3: Whatever the mode and the outcome, [send_email] leaves the record file
    and the two report files as they are, and opens at most one session with
    the transport: exactly one when the message was composed outside test
    mode, none otherwise. *)
Theorem send_email_frame (self : GmailSender.t) (w : world) (recipient : list N)
    (subject : option (list N)) (cc bcc : option addresses) (test_mode : bool) :
  let result := send_email self w recipient subject cc bcc test_mode in
  blog_posts_due_json (snd result) = blog_posts_due_json w
  /\ blog_posts_report_md (snd result) = blog_posts_report_md w
  /\ blog_posts_csv (snd result) = blog_posts_csv w
  /\ sessions (snd result)
     = (if negb test_mode && is_ok (create_message self w recipient subject cc bcc)
        then S (sessions w) else sessions w).
Proof.
  cbv zeta. unfold send_email.
  destruct (create_message self w recipient subject cc bcc) as [[msg posts]|e].
  - destruct test_mode; cbn [negb andb is_ok].
    + destruct (Cc msg) as [[|c s]|]; done.
    + cbv zeta. unfold open_session. cbn [print smtp sessions].
      destruct (smtp w (sessions w)) as [m|m| |m| |reached m];
        [| | | | |destruct reached];
        try (match goal with
             | |- context [on_exception ?e ?w0] =>
                 by destruct (on_exception_frame e w0) as (_ & _ & _ & -> & -> & -> & ->)
             end).
      * unfold transmit, _log_send.
        destruct (given cc), (given bcc);
          cbn [print deliver email_send_log_json];
          destruct (email_send_log_json w); cbn [snd];
          try done;
          match goal with
          | |- context [on_exception ?e ?w0] =>
              by destruct (on_exception_frame e w0) as (_ & _ & _ & -> & -> & -> & ->)
          end.
      * match goal with
        | |- context [on_exception ?e ?w0] =>
            destruct (on_exception_frame e w0) as (_ & _ & _ & -> & -> & -> & ->)
        end.
        unfold transmit, _log_send.
        destruct (given cc), (given bcc);
          cbn [print deliver email_send_log_json];
          by destruct (email_send_log_json w).
  - rewrite andb_false_r.
    by destruct (on_exception_frame e w) as (_ & _ & _ & -> & -> & -> & ->).
Qed.

(** ** The grouping by due date *)

Lemma key_in (k : value) (ps : list (gmap (list N) value))
    (g : list (value * list (gmap (list N) value))) :
  In (k, ps) g -> as_int k ∈ List.map as_int (List.map fst g).
Proof.
  intros H. apply list_elem_of_In. apply (in_map as_int).
  apply (in_map fst) in H. exact H.
Qed.

Lemma group_of_append_to (k k' : value) (p : gmap (list N) value)
    (g : list (value * list (gmap (list N) value))) :
  group_of k' (append_to k p g) = group_of k' g ++ (if value_eqb k k' then [p] else []).
Proof.
  induction g as [|[k0 ps] g IH]; cbn [append_to group_of].
  - by destruct (value_eqb k k').
  - unfold value_eqb in *.
    destruct (decide (as_int k0 = as_int k)) as [Hk|Hk];
      [rewrite (bool_decide_eq_true_2 _ Hk) | rewrite (bool_decide_eq_false_2 _ Hk)];
      cbn [group_of]; unfold value_eqb;
      (destruct (decide (as_int k0 = as_int k')) as [Hk'|Hk'];
       [rewrite (bool_decide_eq_true_2 _ Hk') | rewrite (bool_decide_eq_false_2 _ Hk')]).
    + by rewrite bool_decide_eq_true_2 by congruence.
    + rewrite bool_decide_eq_false_2 by congruence. by rewrite app_nil_r.
    + rewrite bool_decide_eq_false_2 by congruence. by rewrite app_nil_r.
    + apply IH.
Qed.

Lemma keys_append_to (k : value) (p : gmap (list N) value)
    (g : list (value * list (gmap (list N) value))) :
  List.map fst (append_to k p g)
  = List.map fst g
    ++ (if decide (as_int k ∈ List.map as_int (List.map fst g)) then [] else [k]).
Proof.
  induction g as [|[k0 ps] g IH]; cbn [append_to List.map fst].
  - rewrite decide_False; [done | by intros ?%elem_of_nil].
  - unfold value_eqb.
    destruct (decide (as_int k0 = as_int k)) as [Hk|Hk];
      [rewrite (bool_decide_eq_true_2 _ Hk) | rewrite (bool_decide_eq_false_2 _ Hk)];
      cbn [List.map fst].
    + rewrite decide_True; [by rewrite app_nil_r | rewrite Hk; by left].
    + rewrite IH. cbn [app]. f_equal. f_equal.
      destruct (decide (as_int k ∈ List.map as_int (List.map fst g))) as [Hin|Hin].
      * rewrite decide_True; [done | by right].
      * rewrite decide_False; [done|]. intros [Heq|]%elem_of_cons; [by symmetry in Heq | done].
Qed.

Lemma concat_append_to (k : value) (p : gmap (list N) value)
    (g : list (value * list (gmap (list N) value))) :
  Permutation (List.concat (List.map snd (append_to k p g)))
    (List.concat (List.map snd g) ++ [p]).
Proof.
  induction g as [|[k0 ps] g IH]; cbn [append_to List.map snd List.concat]; [done|].
  destruct (value_eqb k0 k); cbn [List.map snd List.concat].
  - rewrite <- !app_assoc. apply Permutation_app_head, Permutation_app_comm.
  - rewrite IH. by rewrite app_assoc.
Qed.

Lemma distinct_append_to (k : value) (p : gmap (list N) value)
    (g : list (value * list (gmap (list N) value))) :
  distinct_keys g -> distinct_keys (append_to k p g).
Proof.
  unfold distinct_keys. intros Hnd. rewrite keys_append_to.
  destruct (decide (as_int k ∈ List.map as_int (List.map fst g))) as [|Hn].
  - by rewrite app_nil_r.
  - rewrite List.map_app. apply NoDup_app. split; [done|].
    split; [|apply NoDup_singleton].
    by intros x Hx ->%list_elem_of_singleton.
Qed.

Lemma stored_append_to (k : value) (p : gmap (list N) value)
    (g : list (value * list (gmap (list N) value))) :
  distinct_keys g ->
  Forall (fun entry => snd entry = group_of (fst entry) g) g ->
  Forall (fun entry => snd entry = group_of (fst entry) (append_to k p g)) (append_to k p g).
Proof.
  unfold distinct_keys.
  intros Hnd Hg. apply List.Forall_forall. intros [k' ps'] Hin. cbn [fst snd].
  rewrite group_of_append_to.
  assert (Hkeys : forall k0 ps0, In (k0, ps0) g -> ps0 = group_of k0 g).
  { intros k0 ps0 H0. rewrite List.Forall_forall in Hg. apply (Hg _ H0). }
  clear Hg. revert Hnd Hkeys Hin.
  induction g as [|[k0 ps] g IH]; cbn [append_to List.map fst]; intros Hnd Hkeys Hin.
  - destruct Hin as [[= <- <-]|[]]. unfold value_eqb. by rewrite bool_decide_eq_true_2.
  - apply NoDup_cons in Hnd as [Hk0 Hnd].
    pose proof (Hkeys k0 ps (or_introl eq_refl)) as Hps.
    unfold value_eqb in Hin |- *.
    destruct (decide (as_int k0 = as_int k)) as [Hk|Hk];
      [rewrite (bool_decide_eq_true_2 _ Hk) in Hin
      |rewrite (bool_decide_eq_false_2 _ Hk) in Hin].
    + destruct Hin as [[= <- <-]|Hin].
      * rewrite bool_decide_eq_true_2 by done. cbn [group_of]. unfold value_eqb.
        by rewrite bool_decide_eq_true_2.
      * pose proof (Hkeys _ _ (or_intror Hin)) as ->.
        rewrite bool_decide_eq_false_2; [by rewrite app_nil_r|].
        intros Heq. apply Hk0. rewrite Hk, Heq. by eapply key_in.
    + destruct Hin as [[= <- <-]|Hin].
      * rewrite bool_decide_eq_false_2 by done. rewrite app_nil_r. cbn [group_of].
        unfold value_eqb. by rewrite bool_decide_eq_true_2.
      * cbn [group_of]. unfold value_eqb.
        destruct (decide (as_int k0 = as_int k')) as [Hk'|Hk'].
        -- exfalso. apply Hk0. rewrite Hk'.
           apply key_in in Hin. rewrite keys_append_to, List.map_app in Hin.
           apply elem_of_app in Hin as [|Hin]; [done|].
           destruct (decide (as_int k ∈ List.map as_int (List.map fst g))); cbn [List.map] in Hin.
           ++ by apply elem_of_nil in Hin.
           ++ apply list_elem_of_singleton in Hin. congruence.
        -- rewrite (bool_decide_eq_false_2 _ Hk').
           apply IH; [done| |done]. intros k1 ps1 H1.
           specialize (Hkeys _ _ (or_intror H1)). cbn [group_of] in Hkeys.
           unfold value_eqb in Hkeys.
           rewrite bool_decide_eq_false_2 in Hkeys; [done|].
           intros Heq. apply Hk0. rewrite Heq. by eapply key_in.
Qed.

Lemma group_by_date_spec (posts : list (gmap (list N) value)) :
  forall acc groups,
    group_by_date posts acc = Ok groups ->
    distinct_keys acc ->
    Forall (fun entry => snd entry = group_of (fst entry) acc) acc ->
    distinct_keys groups
    /\ Forall (fun entry => snd entry = group_of (fst entry) groups) groups
    /\ (forall k, In k (List.map fst groups) ->
                  In k (List.map fst acc)
                  \/ exists p, In p posts /\ p !! lit "due_date" = Some k)
    /\ (forall k, as_int k ∈ List.map as_int (List.map fst groups) <->
                  as_int k ∈ List.map as_int (List.map fst acc)
                  \/ exists p, In p posts /\ due_on k p = true)
    /\ (forall k, group_of k groups = group_of k acc ++ List.filter (due_on k) posts)
    /\ Permutation (List.concat (List.map snd groups))
         (List.concat (List.map snd acc) ++ posts).
Proof.
  induction posts as [|p posts IH]; cbn [group_by_date]; intros acc groups H Hnd Hst.
  - apply ok_inj in H as <-. split; [done|]. split; [done|].
    split; [|split; [|split]].
    + intros k. by left.
    + intros k. split; [by left|]. by intros [|(p & [] & _)].
    + intros k. by rewrite app_nil_r.
    + by rewrite app_nil_r.
  - inv_bind H. rename a into key. unfold getitem in Ha.
    destruct (p !! lit "due_date") as [v|] eqn:Hp; [|done]. apply ok_inj in Ha as ->.
    destruct (IH _ _ H (distinct_append_to _ _ _ Hnd) (stored_append_to _ _ _ Hnd Hst))
      as (Hn & Hs & Hfrom & Hkeys & Hgroup & Hperm).
    split; [done|]. split; [done|]. split; [|split; [|split]].
    + intros k Hk. destruct (Hfrom k Hk) as [Hin | (q & Hq & Hqk)].
      * rewrite keys_append_to in Hin. apply in_app_or in Hin as [|Hin]; [by left|].
        destruct (decide (as_int key ∈ List.map as_int (List.map fst acc))); [done|].
        destruct Hin as [<-|[]]. right. exists p. split; [by left | done].
      * right. exists q. split; [by right | done].
    + intros k. rewrite Hkeys, keys_append_to, List.map_app, elem_of_app. split.
      * intros [[Hin | Hin] | (q & Hq & Hk)].
        -- by left.
        -- destruct (decide (as_int key ∈ List.map as_int (List.map fst acc)));
             cbn [List.map] in Hin; [by apply elem_of_nil in Hin|].
           apply list_elem_of_singleton in Hin.
           right. exists p. split; [by left|]. unfold due_on, value_eqb. rewrite Hp.
           by apply bool_decide_eq_true_2.
        -- right. exists q. split; [by right | done].
      * intros [Hin | (q & [<-|Hq] & Hk)].
        -- left. by left.
        -- left. unfold due_on, value_eqb in Hk. rewrite Hp in Hk.
           apply bool_decide_eq_true_1 in Hk.
           destruct (decide (as_int key ∈ List.map as_int (List.map fst acc))) as [Hin|];
             [left; by rewrite <- Hk | right; rewrite <- Hk; by left].
        -- right. by exists q.
    + intros k. rewrite Hgroup, group_of_append_to, <- app_assoc. f_equal.
      cbn [List.filter]. unfold due_on at 2. rewrite Hp. by destruct (value_eqb key k).
    + rewrite Hperm, concat_append_to. rewrite <- app_assoc. done.
Qed.

(** X4: [posts_by_date], the grouping that the three reports build.  Its
    keys are due dates of records, and no two of them are equal as
    dictionary keys, for which [True] is [1] and [False] is [0]; a key is in
    the dictionary exactly when it is equal to the due date of a record; the
    group of a key holds exactly the records whose due date is equal to it,
    in the order of the record set; and the groups together hold every
    record once.  The grouping exists exactly when every record has a
    due-date entry. *)
Theorem group_by_date_partitions (posts : list (gmap (list N) value)) :
  (is_ok (group_by_date posts []) = true <->
   Forall (fun p => is_Some (p !! lit "due_date")) posts)
  /\ forall groups,
       group_by_date posts [] = Ok groups ->
       distinct_keys groups
       /\ (forall k, In k (List.map fst groups) ->
                     exists p, In p posts /\ p !! lit "due_date" = Some k)
       /\ (forall k, as_int k ∈ List.map as_int (List.map fst groups) <->
                     exists p, In p posts /\ due_on k p = true)
       /\ (forall k, group_of k groups = List.filter (due_on k) posts)
       /\ Forall (fun entry => snd entry = group_of (fst entry) groups) groups
       /\ Permutation (List.concat (List.map snd groups)) posts.
Proof.
  split.
  - generalize (@nil (value * list (gmap (list N) value))).
    induction posts as [|p posts IH]; intros acc; cbn [group_by_date].
    + split; [intros _; apply List.Forall_nil | done].
    + unfold getitem. destruct (p !! lit "due_date") as [v|] eqn:Hp; cbn [bind].
      * rewrite IH. split; [intros H; apply List.Forall_cons; [by rewrite Hp | done]|].
        intros H. by apply List.Forall_cons_iff in H as [_ H].
      * split; [done|]. intros H. apply List.Forall_cons_iff in H as [[v Hv] _].
        by rewrite Hp in Hv.
  - intros groups H.
    destruct (group_by_date_spec posts [] groups H) as (Hn & Hs & Hf & Hk & Hg & Hp);
      [apply NoDup_nil_2 | apply List.Forall_nil |].
    split; [done|]. split; [|split; [|split; [|split]]]; [| |exact Hg|done|done].
    + intros k Hin. by destruct (Hf k Hin) as [[]|].
    + intros k. rewrite Hk. split; [intros [Hin|]; [by apply elem_of_nil in Hin | done]
                                   | by right].
Qed.

(** True and 1 as due dates: one group, under the key that came first. *)
Example group_by_date_bool_and_int :
  let a := <[lit "due_date" := VBool true]> (Sample.post_undated "A") in
  let b := <[lit "due_date" := VInt 1]> (Sample.post_undated "B") in
  group_by_date [a; b] [] = Ok [(VBool true, [a; b])].
Proof. reflexivity. Qed.

(** ** The statistics *)

(** X5: The two counts of the report header: each is the number of records of
    the record set with the property, so it lies between zero and the total;
    the count of urgent posts is the number of records with at most two days
    until due, the count of posts not started the number of records whose
    status is the text Not Started. *)
Theorem statistics_within_total (posts : list (gmap (list N) value)) (urgent not_started : Z) :
  count_urgent posts = Ok urgent ->
  count_not_started posts = Ok not_started ->
  urgent
  = Z.of_nat (length (List.filter
                        is_urgent
                        posts))
  /\ not_started
     = Z.of_nat (length (List.filter
                           is_not_started
                           posts))
  /\ 0 <= urgent <= Z.of_nat (length posts)
  /\ 0 <= not_started <= Z.of_nat (length posts).
Proof.
  intros Hu Hn.
  assert (H1 : urgent
               = Z.of_nat (length (List.filter
                   is_urgent posts))).
  { clear Hn. revert urgent Hu.
    induction posts as [|p posts IH]; cbn [count_urgent]; intros urgent Hu.
    - by apply ok_inj in Hu as <-.
    - inv_bind Hu. inv_bind Hu. inv_bind Hu. apply ok_inj in Hu as <-.
      rewrite (IH _ Ha1). cbn [List.filter].
      replace (is_urgent p) with a0 by (unfold is_urgent; by rewrite Ha; cbn [bind]; rewrite Ha0).
      destruct a0; cbn [length]; lia. }
  assert (H2 : not_started
               = Z.of_nat (length (List.filter
                   is_not_started posts))).
  { clear Hu H1. revert not_started Hn.
    induction posts as [|p posts IH]; cbn [count_not_started]; intros not_started Hn.
    - by apply ok_inj in Hn as <-.
    - inv_bind Hn. inv_bind Hn. apply ok_inj in Hn as <-.
      rewrite (IH _ Ha0). cbn [List.filter]. unfold getitem in Ha.
      destruct (p !! lit "status") as [v|] eqn:Hs; [|done]. apply ok_inj in Ha as ->.
      assert (Hp : is_not_started p = bool_decide (a = VStr (lit "Not Started"))).
      { unfold is_not_started. rewrite Hs. apply bool_decide_ext.
        split; [by intros [= ->] | by intros ->]. }
      rewrite Hp.
      destruct (decide (a = VStr (lit "Not Started"))) as [->|Hne].
      + rewrite bool_decide_eq_true_2 by done. cbn [length]. lia.
      + by rewrite bool_decide_eq_false_2. }
  split; [done|]. split; [done|]. rewrite H1, H2.
  pose proof (filter_length_le
                is_urgent posts).
  pose proof (filter_length_le
                is_not_started
                posts).
  lia.
Qed.

Lemma statistics_within_total_witness :
  count_urgent Sample.posts = Ok 2
  /\ count_not_started Sample.posts = Ok 3
  /\ 0 <= 2 <= Z.of_nat (length Sample.posts).
Proof.
  assert (Hu : count_urgent Sample.posts = Ok 2) by reflexivity.
  assert (Hn : count_not_started Sample.posts = Ok 3) by reflexivity.
  split; [exact Hu|]. split; [exact Hn|].
  exact (proj1 (proj2 (proj2 (statistics_within_total Sample.posts 2 3 Hu Hn)))).
Defined.

(** ** Record sets that the reports render *)

Lemma displayable_entries (p : gmap (list N) value) :
  displayable p ->
  exists title due status author priority category target notes,
    p !! lit "title" = Some title /\ p !! lit "due_date" = Some due
    /\ p !! lit "status" = Some status /\ p !! lit "author" = Some author
    /\ p !! lit "priority" = Some priority /\ p !! lit "category" = Some category
    /\ p !! lit "word_count_target" = Some target
    /\ p !! lit "notes" = Some notes /\ textual notes.
Proof.
  intros [Hkeys (notes & Hnotes & Htext)].
  repeat (apply List.Forall_cons_iff in Hkeys as [[? ?] Hkeys]).
  eauto 20.
Qed.

Ltac split_ifs :=
  repeat match goal with
         | |- context [if ?b then _ else _] => destruct b
         end.

Lemma html_card_ok (p : gmap (list N) value) :
  renderable p -> exists html, html_card p = Ok html.
Proof.
  intros (Hd & _ & (n & Hn)).
  destruct (displayable_entries p Hd)
    as (title & due & status & author & priority & category & target & notes
        & Ht & _ & Hs & Ha & Hp & Hc & Hw & Hnotes & Htext).
  unfold html_card, getitem. rewrite Hn, Ht, Hs, Hp, Ha, Hc, Hw, Hnotes.
  cbn [bind le_int]. unfold textual in Htext.
  destruct (truthy notes) eqn:Htr.
  - destruct (Htext eq_refl) as [s ->]. rewrite notes_preview_str.
    split_ifs; cbn [bind]; eauto.
  - split_ifs; cbn [bind]; eauto.
Qed.

Lemma text_entry_ok (i : Z) (p : gmap (list N) value) :
  renderable p -> exists text, text_entry i p = Ok text.
Proof.
  intros (Hd & _ & (n & Hn)).
  destruct (displayable_entries p Hd)
    as (title & due & status & author & priority & category & target & notes
        & Ht & _ & Hs & Ha & Hp & Hc & Hw & Hnotes & Htext).
  unfold text_entry, getitem. rewrite Hn, Ht, Hs, Hp, Ha, Hc, Hw, Hnotes.
  cbn [bind]. unfold textual in Htext.
  destruct (truthy notes) eqn:Htr.
  - destruct (Htext eq_refl) as [s ->]. rewrite notes_preview_str.
    split_ifs; cbn [bind]; eauto.
  - split_ifs; cbn [bind]; eauto.
Qed.

Lemma markdown_entry_ok (p : gmap (list N) value) :
  displayable p -> exists markdown, markdown_entry p = Ok markdown.
Proof.
  intros Hd.
  destruct (displayable_entries p Hd)
    as (title & due & status & author & priority & category & target & notes
        & Ht & _ & Hs & Ha & Hp & Hc & Hw & Hnotes & Htext).
  unfold markdown_entry, getitem. rewrite Ht, Hs, Hp, Hw, Hnotes.
  cbn [bind]. unfold textual in Htext.
  destruct (truthy notes) eqn:Htr.
  - destruct (Htext eq_refl) as [s ->]. rewrite markdown_excerpt_str.
    split_ifs; cbn [bind]; eauto.
  - split_ifs; cbn [bind]; eauto.
Qed.

Lemma html_cards_ok (ps : list (gmap (list N) value)) :
  Forall renderable ps -> exists html, html_cards ps = Ok html.
Proof.
  induction 1 as [|p ps Hp _ [cards IH]]; cbn [html_cards]; [eauto|].
  destruct (html_card_ok p Hp) as [card ->]. rewrite IH. cbn [bind]. eauto.
Qed.

Lemma text_entries_ok (ps : list (gmap (list N) value)) :
  Forall renderable ps -> forall i, exists text, text_entries i ps = Ok text.
Proof.
  induction 1 as [|p ps Hp _ IH]; intros i; cbn [text_entries]; [eauto|].
  destruct (text_entry_ok i p Hp) as [entry ->]. destruct (IH (i + 1)) as [entries ->].
  cbn [bind]. eauto.
Qed.

Lemma markdown_entries_ok (ps : list (gmap (list N) value)) :
  Forall renderable ps -> exists markdown, markdown_entries ps = Ok markdown.
Proof.
  induction 1 as [|p ps Hp _ [entries IH]]; cbn [markdown_entries]; [eauto|].
  destruct (markdown_entry_ok p (proj1 Hp)) as [entry ->]. rewrite IH. cbn [bind]. eauto.
Qed.

Lemma insert_sorted_ok (x : value) (l : list value) :
  is_date x -> Forall is_date l -> exists l', insert_sorted x l = Ok l'.
Proof.
  intros (s & d & -> & _). induction 1 as [|y l (t & e & -> & _) _ [l' IH]];
    cbn [insert_sorted EmailFormatter.lt bind]; [eauto|].
  destruct (str_ltb s t); [eauto|]. rewrite IH. cbn [bind]. eauto.
Qed.

Lemma sorted_ok (l : list value) :
  Forall is_date l -> exists l', sorted l = Ok l'.
Proof.
  unfold sorted. assert (Hnil : Forall is_date []) by apply List.Forall_nil.
  revert Hnil. generalize (@nil value). intros acc Hacc H. revert acc Hacc.
  induction H as [|x l Hx _ IH]; intros acc Hacc; cbn [sorted_from]; [eauto|].
  destruct (insert_sorted_ok x acc Hx Hacc) as [acc' Hi]. rewrite Hi. cbn [bind].
  apply IH. destruct (insert_sorted_spec _ _ _ Hi) as [Hp _].
  rewrite List.Forall_forall. intros y Hy.
  apply (Permutation_in _ Hp) in Hy as [<-|Hy]; [done|].
  rewrite List.Forall_forall in Hacc. by apply Hacc.
Qed.

Lemma count_urgent_ok (ps : list (gmap (list N) value)) :
  Forall renderable ps -> exists n, count_urgent ps = Ok n.
Proof.
  induction 1 as [|p ps (_ & _ & (n & Hn)) _ [m IH]]; cbn [count_urgent]; [eauto|].
  unfold getitem. rewrite Hn, IH. cbn [bind le_int]. eauto.
Qed.

Lemma count_not_started_ok (ps : list (gmap (list N) value)) :
  Forall renderable ps -> exists n, count_not_started ps = Ok n.
Proof.
  induction 1 as [|p ps (Hd & _) _ [m IH]]; cbn [count_not_started]; [eauto|].
  destruct (displayable_entries p Hd)
    as (title & due & status & author & priority & category & target & notes
        & _ & _ & Hs & _).
  unfold getitem. rewrite Hs, IH. cbn [bind]. eauto.
Qed.

Lemma group_by_date_total (ps : list (gmap (list N) value)) :
  Forall renderable ps -> forall acc, exists groups, group_by_date ps acc = Ok groups.
Proof.
  induction 1 as [|p ps (_ & (s & d & Hs & _) & _) _ IH]; intros acc;
    cbn [group_by_date]; [eauto|].
  unfold getitem. rewrite Hs. cbn [bind]. apply IH.
Qed.

(** A calendar date is read as such by every interpreter. *)
Lemma number_digits (s : list N) :
  forall acc n, number s acc = Some n ->
  forallb (fun c => N.leb 48 c && N.leb c 57) s = true.
Proof.
  induction s as [|c s IH]; intros acc n; cbn [number forallb]; [done|].
  unfold digit_val. destruct (N.leb 48 c && N.leb c 57); [apply IH | done].
Qed.

Lemma calendar_date_form (s : list N) (d : date) :
  calendar_date s = Some d -> calendar_form s = true.
Proof.
  unfold calendar_date, calendar_form.
  destruct s as [|y1 [|y2 [|y3 [|y4 [|s1 [|m1 [|m2 [|s2 [|d1 [|d2 [|]]]]]]]]]]]; try done.
  destruct (number [y1; y2; y3; y4] 0) as [y|] eqn:Hy; [|done].
  destruct (number [m1; m2] 0) as [m|] eqn:Hm; [|done].
  destruct (number [d1; d2] 0) as [dd|] eqn:Hdd; [|done].
  apply number_digits in Hy, Hm, Hdd.
  destruct (N.eqb s1 45); [|done]. destruct (N.eqb s2 45); [|done]. intros _.
  change [y1; y2; y3; y4; m1; m2; d1; d2] with ([y1; y2; y3; y4] ++ [m1; m2] ++ [d1; d2]).
  by rewrite !forallb_app, Hy, Hm, Hdd.
Qed.

Lemma fromisoformat_date (w : world) (s : list N) (d : date) :
  calendar_date s = Some d -> fromisoformat w (VStr s) = Ok d.
Proof.
  intros H. cbn [fromisoformat]. by rewrite (calendar_date_form s d H), H.
Qed.

(** What the grouping of renderable records looks like: the keys are
    calendar dates and every group holds renderable records. *)
Lemma grouping_of_renderable (posts : list (gmap (list N) value))
    (groups : list (value * list (gmap (list N) value))) :
  Forall renderable posts ->
  group_by_date posts [] = Ok groups ->
  Forall is_date (List.map fst groups)
  /\ forall key, Forall renderable (group_of key groups).
Proof.
  intros Hposts Hg.
  destruct (group_by_date_spec posts [] groups Hg) as (_ & _ & Hkeys & _ & Hgroup & _);
    [apply NoDup_nil_2 | apply List.Forall_nil |].
  split.
  - rewrite List.Forall_forall. intros key Hkey.
    apply Hkeys in Hkey as [[]|(p & Hp & Hdue)].
    rewrite List.Forall_forall in Hposts.
    destruct (Hposts p Hp) as (_ & (s & d & Hs & Hd) & _).
    rewrite Hs in Hdue. injection Hdue as <-. by exists s, d.
  - intros key. rewrite Hgroup. cbn [app].
    rewrite List.Forall_forall in *. intros p Hp. apply filter_In in Hp as [Hp _].
    by apply Hposts.
Qed.

Lemma html_sections_ok (w : world) (groups : list (value * list (gmap (list N) value)))
    (dates : list value) :
  Forall is_date dates ->
  (forall key, Forall renderable (group_of key groups)) ->
  exists html, html_sections w groups dates = Ok html.
Proof.
  intros Hdates Hgroups.
  induction Hdates as [|date dates (s & d & -> & Hd) _ [sections IH]];
    cbn [html_sections]; [eauto|].
  unfold html_section. rewrite (fromisoformat_date w s d Hd). cbn [bind].
  destruct (html_cards_ok _ (Hgroups (VStr s))) as [cards ->]. rewrite IH.
  cbn [bind]. eauto.
Qed.

Lemma text_sections_ok (w : world) (groups : list (value * list (gmap (list N) value)))
    (dates : list value) :
  Forall is_date dates ->
  (forall key, Forall renderable (group_of key groups)) ->
  exists text, text_sections w groups dates = Ok text.
Proof.
  intros Hdates Hgroups.
  induction Hdates as [|date dates (s & d & -> & Hd) _ [sections IH]];
    cbn [text_sections]; [eauto|].
  unfold text_section. rewrite (fromisoformat_date w s d Hd). cbn [bind].
  destruct (text_entries_ok _ (Hgroups (VStr s)) 1) as [entries ->]. rewrite IH.
  cbn [bind]. eauto.
Qed.

Lemma markdown_sections_ok (w : world) (groups : list (value * list (gmap (list N) value)))
    (dates : list value) :
  Forall is_date dates ->
  (forall key, Forall renderable (group_of key groups)) ->
  exists markdown, markdown_sections w groups dates = Ok markdown.
Proof.
  intros Hdates Hgroups.
  induction Hdates as [|date dates (s & d & -> & Hd) _ [sections IH]];
    cbn [markdown_sections]; [eauto|].
  unfold markdown_section. rewrite (fromisoformat_date w s d Hd). cbn [bind].
  destruct (markdown_entries_ok _ (Hgroups (VStr s))) as [entries ->]. rewrite IH.
  cbn [bind]. eauto.
Qed.

Lemma reports_ok (w : world) (posts : list (gmap (list N) value)) :
  Forall renderable posts ->
  (exists html, create_html_email w posts = Ok html)
  /\ (exists text, create_plain_text_email w posts = Ok text)
  /\ (exists markdown, markdown_report w posts = Ok markdown).
Proof.
  intros Hposts.
  destruct (group_by_date_total posts Hposts []) as [groups Hg].
  destruct (grouping_of_renderable posts groups Hposts Hg) as [Hkeys Hgroups].
  destruct (count_urgent_ok posts Hposts) as [urgent Hu].
  destruct (count_not_started_ok posts Hposts) as [not_started Hn].
  destruct (sorted_ok _ Hkeys) as [dates Hd].
  assert (Hdates : Forall is_date dates).
  { destruct (sorted_spec _ _ Hd) as [Hp _]. rewrite List.Forall_forall in *.
    intros key Hkey. apply Hkeys. by apply (Permutation_in _ Hp). }
  destruct (html_sections_ok w groups dates Hdates Hgroups) as [hs Hhs].
  destruct (text_sections_ok w groups dates Hdates Hgroups) as [ts Hts].
  destruct (markdown_sections_ok w groups dates Hdates Hgroups) as [ms Hms].
  unfold create_html_email, create_plain_text_email, markdown_report.
  rewrite Hg, Hu, Hn. cbn [bind]. rewrite Hd. cbn [bind]. rewrite Hhs, Hts, Hms.
  cbn [bind]. split; [eauto | split; eauto].
Qed.

Lemma create_message_ok (self : GmailSender.t) (w : world) (recipient : list N)
    (subject : option (list N)) (cc bcc : option addresses)
    (posts : list (gmap (list N) value)) :
  Forall renderable posts ->
  blog_posts_due_json w = Document posts ->
  exists msg, create_message self w recipient subject cc bcc = Ok (msg, posts).
Proof.
  intros Hposts Hfile.
  destruct (reports_ok w posts Hposts) as ([html Hh] & [text Ht] & _).
  destruct (count_urgent_ok posts Hposts) as [urgent Hu].
  unfold create_message, EmailFormatter.load_blog_posts.
  rewrite Hfile. cbn [bind]. rewrite Hh, Ht, Hu. cbn [bind].
  destruct (decide (lower (getenv (GMAIL_ATTACH_JSON w) (lit "false")) = lit "true"));
    cbn [bind]; eauto.
Qed.

(** X6: The reports are total on the records of the data model: when every
    record has the entries of the data model, a due date that is a calendar
    date, days until due that are a number and notes that are empty or a
    text, the HTML message, the plain-text message and the Markdown report
    are produced, and [create_message] composes a message from the record
    file that holds the records. *)
Theorem renderable_records_render (self : GmailSender.t) (w : world) (recipient : list N)
    (subject : option (list N)) (cc bcc : option addresses)
    (posts : list (gmap (list N) value)) :
  Forall renderable posts ->
  (exists html, create_html_email w posts = Ok html)
  /\ (exists text, create_plain_text_email w posts = Ok text)
  /\ (exists markdown, markdown_report w posts = Ok markdown)
  /\ (exists msg,
        create_message self (set_posts_file (Document posts) w) recipient subject cc bcc
        = Ok (msg, posts)).
Proof.
  intros Hposts. destruct (reports_ok w posts Hposts) as (Hh & Ht & Hm).
  repeat (split; [assumption|]). by apply create_message_ok.
Qed.

Lemma sample_posts_renderable : Forall renderable Sample.posts.
Proof.
  assert (H : forall title due days notes d,
             calendar_date (lit due) = Some d ->
             renderable (Sample.post_of title due days notes)).
  { intros title due days notes d Hd. split; [split|split].
    - repeat (apply List.Forall_cons; [by eexists|]). apply List.Forall_nil.
    - exists (VStr (lit notes)). split; [reflexivity|]. intros _. by eexists.
    - exists (lit due), d. split; [reflexivity | exact Hd].
    - exists days. reflexivity. }
  apply List.Forall_cons; [|apply List.Forall_cons; [|apply List.Forall_cons;
    [|apply List.Forall_nil]]].
  - apply (H _ _ _ _ (mkdate 2025 1 10)). reflexivity.
  - apply (H _ _ _ _ (mkdate 2025 1 10)). reflexivity.
  - apply (H _ _ _ _ (mkdate 2025 1 12)). reflexivity.
Qed.

Lemma renderable_records_render_witness :
  Forall renderable Sample.posts
  /\ exists html, create_html_email Sample.w0 Sample.posts = Ok html.
Proof.
  split; [exact sample_posts_renderable|].
  exact (proj1 (renderable_records_render Sample.sender Sample.w0 (lit "a@example.com")
                  None None None Sample.posts sample_posts_renderable)).
Defined.

(** ** From the records of the service to the reports *)

Lemma process_record_renderable (w : world) (record : raw_record) :
  well_formed w record ->
  exists p, process_record w record = Ok p /\ renderable p.
Proof.
  unfold well_formed, process_record.
  set (fields := default ∅ (raw_fields record)).
  intros [(s & d & Hdue & Hd) Hnotes].
  assert (Hget : get fields (due_date_field w) VNone = VStr s)
    by (unfold get; by rewrite Hdue).
  assert (Htr : truthy (VStr s) = true).
  { destruct s; [|done]. by vm_compute in Hd. }
  cbv zeta. rewrite !Hget, Htr, (fromisoformat_date w s d Hd). cbn [bind].
  eexists. split; [reflexivity|]. split; [split|split].
  - repeat (apply List.Forall_cons;
            [eexists; repeat (rewrite lookup_insert_ne by done); apply lookup_insert_eq|]).
    apply List.Forall_nil.
  - eexists. split; [|exact Hnotes].
    repeat (rewrite lookup_insert_ne by done). apply lookup_insert_eq.
  - exists s, d. split; [|done].
    repeat (rewrite lookup_insert_ne by done). apply lookup_insert_eq.
  - eexists. apply lookup_insert_eq.
Qed.

Lemma process_records_renderable (w : world) (records : list raw_record) :
  Forall (well_formed w) records ->
  exists posts, _process_records w records = Ok posts
                /\ Forall renderable posts /\ length posts = length records.
Proof.
  induction 1 as [|r rs Hr _ (posts & IH & Hposts & Hlen)]; cbn [_process_records].
  - exists []. by repeat split.
  - destruct (process_record_renderable w r Hr) as (p & -> & Hp). rewrite IH.
    cbn [bind]. exists (p :: posts). split; [done|]. split; [by constructor|].
    cbn [length]. by rewrite Hlen.
Qed.

(** X7: Records of the service that have a due date which is a calendar date,
    and notes which are absent, empty or a text, pass through the whole
    pipeline: [_process_records] normalises each of them, and the reports of
    the normalised records are produced, on the day of the fetch and on any
    later day. *)
Theorem well_formed_records_render (w : world) (records : list raw_record) (t : datetime) :
  Forall (well_formed w) records ->
  exists posts,
    _process_records w records = Ok posts
    /\ length posts = length records
    /\ (exists html, create_html_email (at_time t w) posts = Ok html)
    /\ (exists text, create_plain_text_email (at_time t w) posts = Ok text)
    /\ (exists markdown, markdown_report (at_time t w) posts = Ok markdown).
Proof.
  intros H. destruct (process_records_renderable w records H) as (posts & Hp & Hr & Hl).
  exists posts. split; [done|]. split; [done|]. by apply reports_ok.
Qed.

Lemma sample_table_well_formed : Forall (well_formed Sample.w0) Sample.table.
Proof.
  assert (H : forall id title due d,
             calendar_date (lit due) = Some d ->
             well_formed Sample.w0 (Sample.record id title due)).
  { intros id title due d Hd. split.
    - exists (lit due), d. split; [reflexivity | exact Hd].
    - intros Htr. by eexists. }
  apply List.Forall_cons; [|apply List.Forall_cons; [|apply List.Forall_cons;
    [|apply List.Forall_nil]]].
  - apply (H _ _ _ (mkdate 2025 1 10)). reflexivity.
  - apply (H _ _ _ (mkdate 2025 1 10)). reflexivity.
  - apply (H _ _ _ (mkdate 2025 1 12)). reflexivity.
Qed.

Lemma well_formed_records_render_witness :
  Forall (well_formed Sample.w0) Sample.table
  /\ exists posts, _process_records Sample.w0 Sample.table = Ok posts
                   /\ length posts = 3%nat.
Proof.
  split; [exact sample_table_well_formed|].
  destruct (well_formed_records_render Sample.w0 Sample.table (Sample.clock 2025 1 10)
              sample_table_well_formed) as (posts & Hp & Hl & _).
  exists posts. split; [exact Hp | exact Hl].
Defined.

(** ** The send log and the outbox after [send_to_multiple] *)

Lemma send_email_accounting (self : GmailSender.t) (w : world) (recipient : list N)
    (subject : option (list N)) :
  email_send_log_json w <> Corrupt ->
  let result := send_email self w recipient subject None None false in
  email_send_log_json (snd result) <> Corrupt
  /\ ((exists msg entry,
         outbox (snd result) = outbox w ++ [(msg, [recipient])]
         /\ log_of (snd result) = log_of w ++ [entry]
         /\ World.recipient entry = recipient
         /\ sender entry = sender_email self
         /\ (fst result = true
             \/ fst result = false
                /\ exists m, smtp w (sessions w) = QuitRefused Completed m))
      \/ (fst result = false
          /\ outbox (snd result) = outbox w /\ log_of (snd result) = log_of w)).
Proof.
  intros Hlog. cbv zeta. unfold send_email.
  destruct (create_message self w recipient subject None None) as [[msg posts]|e].
  - cbv zeta. unfold open_session. cbn [print smtp sessions given app].
    destruct (smtp w (sessions w)) as [m|m| |m| |reached m];
      [| | | | |destruct reached];
      try (match goal with
           | |- context [GmailSender.on_exception ?e ?w0] =>
               destruct (on_exception_frame e w0) as (-> & Ho & Hl & _);
               unfold log_of; rewrite Ho, Hl; split; [done|]; right; by cbn
           end).
    + unfold transmit, _log_send, log_of.
      cbn [given print deliver email_send_log_json outbox console now].
      destruct (email_send_log_json w); [|done|]; cbn; (split; [done|]); left; eauto 10.
    + match goal with
      | |- context [GmailSender.on_exception ?e ?w0] =>
          destruct (on_exception_frame e w0) as (-> & Ho & Hl & _);
          unfold log_of; rewrite Ho, Hl
      end.
      unfold transmit, _log_send.
      cbn [given print deliver email_send_log_json outbox console now].
      destruct (email_send_log_json w); [|done|]; cbn; (split; [done|]); left;
        do 2 eexists; repeat (split; [reflexivity|]); right; eauto.
  - destruct (on_exception_frame e w) as (-> & Ho & Hl & _).
    unfold log_of. rewrite Ho, Hl. split; [done|]. by right.
Qed.

Lemma prints_frame (lines : list (list N)) :
  forall w, outbox (prints lines w) = outbox w
            /\ email_send_log_json (prints lines w) = email_send_log_json w
            /\ sessions (prints lines w) = sessions w.
Proof.
  unfold prints. induction lines as [|l ls IH]; intros w; cbn [fold_left]; [done|].
  by destruct (IH (print l w)) as (-> & -> & ->).
Qed.

(** The recipients for which the transport got the message: those reported
    as successful, and those whose session refused the [QUIT] after the
    message was sent and logged. *)
Lemma send_each_accounting (self : GmailSender.t) (subject : option (list N))
    (recipients : list (list N)) :
  forall (w : world) (successful failed : list (list N)),
    email_send_log_json w <> Corrupt ->
    let result := send_each self w recipients subject successful failed in
    exists s f handed sent entries,
      fst result = (successful ++ s, failed ++ f)
      /\ sublist s handed /\ sublist handed recipients
      /\ outbox (snd result) = outbox w ++ sent
      /\ List.map snd sent = List.map (fun r => [r]) handed
      /\ log_of (snd result) = log_of w ++ entries
      /\ List.map World.recipient entries = handed
      /\ Forall (fun entry => sender entry = sender_email self) entries
      /\ email_send_log_json (snd result) <> Corrupt
      /\ ((forall n m, smtp w n <> QuitRefused Completed m) -> handed = s).
Proof.
  induction recipients as [|r rs IH]; intros w successful failed Hlog; cbn [send_each].
  - exists [], [], [], [], []. rewrite !app_nil_r. cbn [fst snd]. by repeat split.
  - cbv zeta.
    set (w1 := print (nl ++ [128231%N] ++ lit " Sending to " ++ r ++ lit "...") w).
    pose proof (send_email_accounting self w1 r subject Hlog) as [Hlog2 Hacc].
    destruct (send_email_inputs self w1 r subject None None false) as [_ Hsmtp].
    cbv zeta in Hlog2, Hacc.
    destruct (send_email self w1 r subject None None false) as [sent w2].
    cbn [fst snd] in Hlog2, Hacc, Hsmtp.
    change (smtp w1) with (smtp w) in Hsmtp, Hacc.
    destruct Hacc as [(msg & entry & Ho & Hl & Hr & Hs & Hres) | (-> & Ho & Hl)].
    + destruct Hres as [-> | [-> [m Hm]]].
      * destruct (IH w2 (successful ++ [r]) failed Hlog2)
          as (s & f & handed & out & entries & He & Hsh & Hhr & Ho' & Hm & Hl' & Hr' & Hs'
              & Hc & Hq).
        exists (r :: s), f, (r :: handed), ((msg, [r]) :: out), (entry :: entries).
        rewrite He, Ho', Hl', Ho, Hl, <- !app_assoc. cbn [List.map snd app].
        rewrite Hm, Hr, Hr'. rewrite Hsmtp in Hq.
        repeat split; try done; try (by constructor).
        intros Hno. by rewrite (Hq Hno).
      * destruct (IH w2 successful (failed ++ [r]) Hlog2)
          as (s & f & handed & out & entries & He & Hsh & Hhr & Ho' & Hm' & Hl' & Hr' & Hs'
              & Hc & Hq).
        exists s, (r :: f), (r :: handed), ((msg, [r]) :: out), (entry :: entries).
        rewrite He, Ho', Hl', Ho, Hl, <- !app_assoc. cbn [List.map snd app].
        rewrite Hm', Hr, Hr'.
        repeat split; try done; try (by constructor).
        intros Hno. by destruct (Hno _ _ Hm).
    + destruct (IH w2 successful (failed ++ [r]) Hlog2)
        as (s & f & handed & out & entries & He & Hsh & Hhr & Ho' & Hm & Hl' & Hr' & Hs'
            & Hc & Hq).
      exists s, (r :: f), handed, out, entries.
      rewrite He, Ho', Hl', Ho, Hl, <- !app_assoc. rewrite Hsmtp in Hq.
      repeat split; try done. by constructor.
Qed.

Lemma send_to_multiple_effect (self : GmailSender.t) (w : world)
    (recipients : list (list N)) (subject : option (list N)) :
  exists w1, send_each self w recipients subject [] [] = (fst (send_to_multiple self w recipients subject), w1)
             /\ outbox (snd (send_to_multiple self w recipients subject)) = outbox w1
             /\ email_send_log_json (snd (send_to_multiple self w recipients subject))
                = email_send_log_json w1
             /\ sessions (snd (send_to_multiple self w recipients subject)) = sessions w1.
Proof.
  unfold send_to_multiple.
  destruct (send_each self w recipients subject [] []) as [[s f] w1].
  exists w1. cbv zeta. cbn [fst snd]. split; [done|].
  destruct f as [|x f].
  - match goal with |- context [prints ?l ?w0] =>
      destruct (prints_frame l w0) as (-> & -> & ->) end. done.
  - match goal with |- context [prints ?l ?w0] =>
      destruct (prints_frame l w0) as (-> & -> & ->) end.
    cbn [print outbox email_send_log_json sessions].
    match goal with |- context [prints ?l ?w0] =>
      destruct (prints_frame l w0) as (-> & -> & ->) end. done.
Qed.

(** X8: With a send log that is absent or readable, the outbox and the log
    account for [send_to_multiple].  The transport gets one message for each
    recipient of a list [handed], addressed to that recipient alone, and the
    log gets one entry for each of them, with the sender's address, both in
    the order of the list of recipients.  Every recipient reported as
    successful is in [handed]; when no session of the transport refuses the
    [QUIT] after the message was sent, [handed] is the list of the
    recipients reported as successful, so that nothing is sent or logged for
    a recipient reported as failed. *)
Theorem send_to_multiple_accounting (self : GmailSender.t) (w : world)
    (recipients : list (list N)) (subject : option (list N)) :
  email_send_log_json w <> Corrupt ->
  let result := send_to_multiple self w recipients subject in
  let successful := fst (fst result) in
  exists handed sent entries,
    sublist successful handed /\ sublist handed recipients
    /\ outbox (snd result) = outbox w ++ sent
    /\ List.map snd sent = List.map (fun r => [r]) handed
    /\ log_of (snd result) = log_of w ++ entries
    /\ List.map World.recipient entries = handed
    /\ Forall (fun entry => sender entry = sender_email self) entries
    /\ ((forall n m, smtp w n <> QuitRefused Completed m) -> handed = successful).
Proof.
  intros Hlog. cbv zeta.
  destruct (send_to_multiple_effect self w recipients subject) as (w1 & He & Ho & Hl & _).
  destruct (send_each_accounting self subject recipients w [] [] Hlog)
    as (s & f & handed & sent & entries & He' & Hsh & Hhr & Ho' & Hm & Hl' & Hr & Hs & _ & Hq).
  cbv zeta in He', Ho', Hl'. rewrite He in He', Ho', Hl'. cbn [fst snd app] in He', Ho', Hl'.
  rewrite He'. cbn [fst]. exists handed, sent, entries.
  unfold log_of in *. rewrite Ho, Hl. done.
Qed.

Lemma send_to_multiple_accounting_witness :
  let script := fun n => match n with
                         | 1%nat => LoginRejected
                         | 2%nat => QuitRefused Completed (lit "busy")
                         | _ => Accepts
                         end in
  let w := Sample.world_of Sample.posts script in
  let result :=
    send_to_multiple Sample.sender w
      [lit "a@example.com"; lit "b@example.com"; lit "c@example.com"] None in
  email_send_log_json w <> Corrupt
  /\ fst result = ([lit "a@example.com"], [lit "b@example.com"; lit "c@example.com"])
  /\ exists sent, outbox (snd result) = sent
                  /\ List.map snd sent = [[lit "a@example.com"]; [lit "c@example.com"]].
Proof.
  intros script w result.
  assert (Hlog : email_send_log_json w <> Corrupt) by discriminate.
  split; [exact Hlog|]. split; [reflexivity|].
  destruct (send_to_multiple_accounting Sample.sender w
              [lit "a@example.com"; lit "b@example.com"; lit "c@example.com"] None Hlog)
    as (handed & sent & entries & _ & _ & Ho & _).
  exists sent. split; [exact Ho|].
  change (outbox w ++ sent) with sent in Ho. rewrite <- Ho. reflexivity.
Defined.

Lemma html_sections_print (line : list N) (w : world)
    (g : list (value * list (gmap (list N) value))) (dates : list value) :
  html_sections (print line w) g dates = html_sections w g dates.
Proof. induction dates as [|d dates IH]; cbn [html_sections]; [done|]. by rewrite IH. Qed.

Lemma text_sections_print (line : list N) (w : world)
    (g : list (value * list (gmap (list N) value))) (dates : list value) :
  text_sections (print line w) g dates = text_sections w g dates.
Proof. induction dates as [|d dates IH]; cbn [text_sections]; [done|]. by rewrite IH. Qed.

Lemma create_message_print (self : GmailSender.t) (line : list N) (w : world)
    (recipient : list N) (subject : option (list N)) (cc bcc : option addresses) :
  create_message self (print line w) recipient subject cc bcc
  = create_message self w recipient subject cc bcc.
Proof.
  assert (Hh : forall posts, create_html_email (print line w) posts = create_html_email w posts).
  { intros posts. unfold create_html_email.
    destruct (group_by_date posts []); cbn [bind]; [|done].
    destruct (count_urgent posts); cbn [bind]; [|done].
    destruct (count_not_started posts); cbn [bind]; [|done].
    destruct (sorted _); cbn [bind]; [|done]. by rewrite html_sections_print. }
  assert (Ht : forall posts,
             create_plain_text_email (print line w) posts = create_plain_text_email w posts).
  { intros posts. unfold create_plain_text_email.
    destruct (group_by_date posts []); cbn [bind]; [|done].
    destruct (count_urgent posts); cbn [bind]; [|done].
    destruct (count_not_started posts); cbn [bind]; [|done].
    destruct (sorted _); cbn [bind]; [|done]. by rewrite text_sections_print. }
  unfold create_message.
  change (EmailFormatter.load_blog_posts (print line w)) with (EmailFormatter.load_blog_posts w).
  destruct (EmailFormatter.load_blog_posts w) as [posts|e]; cbn [bind]; [|done].
  by rewrite Hh, Ht.
Qed.

(** X19: When the send log exists and cannot be read, a message that the
    transport accepts is sent all the same, and then reported as not sent:
    [send_email] hands the message to the transport, fails to update the
    log, prints the error line and returns [False]; the log stays as it is.
    [send_to_multiple] therefore lists such a recipient as failed. *)
Theorem unreadable_log_reports_sent_message_as_failed (self : GmailSender.t) (w : world)
    (recipient : list N) (subject : option (list N)) (cc bcc : option addresses)
    (msg : message) (posts : list (gmap (list N) value)) :
  email_send_log_json w = Corrupt ->
  create_message self w recipient subject cc bcc = Ok (msg, posts) ->
  smtp w (sessions w) = Accepts ->
  let result := send_email self w recipient subject cc bcc false in
  fst result = false
  /\ outbox (snd result)
     = outbox w ++ [(msg, recipient :: extra_recipients cc ++ extra_recipients bcc)]
  /\ email_send_log_json (snd result) = Corrupt
  /\ last (console (snd result)) = Some (error_line w JSONDecodeError)
  /\ (cc = None -> bcc = None ->
      fst (send_to_multiple self w [recipient] subject) = ([], [recipient])).
Proof.
  intros Hlog Hc Hs. cbv zeta.
  assert (H : forall cc bcc msg,
             create_message self w recipient subject cc bcc = Ok (msg, posts) ->
             fst (send_email self w recipient subject cc bcc false) = false
             /\ outbox (snd (send_email self w recipient subject cc bcc false))
                = outbox w ++ [(msg, recipient :: extra_recipients cc ++ extra_recipients bcc)]
             /\ email_send_log_json (snd (send_email self w recipient subject cc bcc false))
                = Corrupt
             /\ last (console (snd (send_email self w recipient subject cc bcc false)))
                = Some (error_line w JSONDecodeError)).
  { clear Hc. intros cc0 bcc0 msg0 Hc. unfold send_email. rewrite Hc. cbv zeta.
    unfold open_session. cbn [print smtp sessions]. rewrite Hs.
    unfold transmit, _log_send, extra_recipients.
    destruct (given cc0), (given bcc0);
      cbn [print deliver email_send_log_json outbox console now];
      rewrite Hlog;
      cbn [GmailSender.on_exception fst snd print outbox email_send_log_json console describe];
      (split; [done|]); (split; [done|]); (split; [done|]); by rewrite last_snoc. }
  destruct (H cc bcc msg Hc) as (Hf & Ho & Hl & Hlast).
  repeat (split; [assumption|]). intros -> ->.
  unfold send_to_multiple. cbn [send_each].
  cbv zeta.
  set (w1 := print (nl ++ [128231%N] ++ lit " Sending to " ++ recipient ++ lit "...") w).
  assert (Hc1 : create_message self w1 recipient subject None None = Ok (msg, posts))
    by (unfold w1; by rewrite create_message_print).
  assert (Hf1 : fst (send_email self w1 recipient subject None None false) = false).
  { unfold send_email. rewrite Hc1. cbv zeta. unfold open_session.
    cbn [print smtp sessions w1]. rewrite Hs. unfold transmit, _log_send.
    cbn [given print deliver email_send_log_json w1]. rewrite Hlog. done. }
  destruct (send_email self w1 recipient subject None None false) as [sent w2].
  cbn [fst] in Hf1. subst sent. done.
Qed.

Lemma unreadable_log_reports_sent_message_as_failed_witness :
  let w := set_log_file Corrupt (Sample.world_of Sample.posts (fun _ => Accepts)) in
  email_send_log_json w = Corrupt
  /\ fst (send_to_multiple Sample.sender w [lit "a@example.com"] None)
     = ([], [lit "a@example.com"]).
Proof.
  intros w.
  set (r := match create_message Sample.sender w (lit "a@example.com") None None None with
            | Ok r => r
            | Raise _ => (mkmessage [] [] [] [] None [] [] [] [] None, [])
            end).
  assert (H : create_message Sample.sender w (lit "a@example.com") None None None
              = Ok (fst r, snd r)) by reflexivity.
  split; [reflexivity|].
  exact (proj2 (proj2 (proj2 (proj2
    (unreadable_log_reports_sent_message_as_failed Sample.sender w (lit "a@example.com")
       None None None (fst r) (snd r) eq_refl H eq_refl)))) eq_refl eq_refl).
Defined.

(** ** The recipients of [automated_send] *)

Lemma lstrip_spec (s : list N) :
  exists pre, s = pre ++ lstrip s /\ blank pre
              /\ match lstrip s with c :: _ => isspace c = false | [] => True end.
Proof.
  induction s as [|c s (pre & Hs & Hpre & Hhd)]; cbn [lstrip].
  - exists []. repeat split. apply List.Forall_nil.
  - destruct (isspace c) eqn:Hc.
    + exists (c :: pre). cbn [app]. rewrite <- Hs. repeat split; [|done].
      by apply List.Forall_cons.
    + exists []. repeat split; [apply List.Forall_nil | done].
Qed.

Lemma rstrip_spec (s : list N) :
  exists post, s = rstrip s ++ post /\ blank post
               /\ match rev (rstrip s) with c :: _ => isspace c = false | [] => True end.
Proof.
  unfold rstrip. destruct (lstrip_spec (rev s)) as (pre & Hs & Hpre & Hhd).
  exists (rev pre). split; [|split].
  - rewrite <- rev_app_distr, <- Hs. by rewrite rev_involutive.
  - unfold blank. apply List.Forall_rev. exact Hpre.
  - by rewrite rev_involutive.
Qed.

Lemma strip_spec (s : list N) :
  exists pre post, s = pre ++ strip s ++ post /\ blank pre /\ blank post /\ trimmed (strip s).
Proof.
  unfold strip. destruct (lstrip_spec s) as (pre & Hs & Hpre & Hhd).
  destruct (rstrip_spec (lstrip s)) as (post & Ht & Hpost & Hlast).
  exists pre, post. split; [by rewrite <- Ht|]. split; [done|]. split; [done|].
  split; [|done]. rewrite Ht in Hhd. by destruct (rstrip (lstrip s)).
Qed.

Lemma split_nonempty (sep : N) (s : list N) : split sep s <> [].
Proof.
  destruct s as [|c s]; cbn [split]; [done|].
  destruct (N.eqb c sep); [done|]. by destruct (split sep s).
Qed.

Lemma split_join (sep : N) (s : list N) : join [sep] (split sep s) = s.
Proof.
  induction s as [|c s IH]; cbn [split]; [done|].
  pose proof (split_nonempty sep s) as Hne.
  destruct (N.eqb c sep) eqn:Hc.
  - apply N.eqb_eq in Hc as ->. destruct (split sep s) as [|p ps]; [done|].
    change (join [sep] ([] :: p :: ps)) with (sep :: join [sep] (p :: ps)).
    by rewrite IH.
  - destruct (split sep s) as [|p ps]; [done|].
    destruct ps as [|q ps]; cbn [join] in IH |- *; by rewrite <- IH.
Qed.

Lemma split_pieces (sep : N) (s : list N) :
  Forall (fun piece => ~ In sep piece) (split sep s).
Proof.
  induction s as [|c s IH]; cbn [split].
  - apply List.Forall_cons; [by intros [] | apply List.Forall_nil].
  - destruct (N.eqb c sep) eqn:Hc.
    + apply List.Forall_cons; [by intros [] | done].
    + apply N.eqb_neq in Hc. destruct (split sep s) as [|p ps].
      * apply List.Forall_cons; [|apply List.Forall_nil]. by intros [|[]].
      * apply List.Forall_cons_iff in IH as [Hp Hps].
        apply List.Forall_cons; [|done]. by intros [|].
Qed.

(** X9: The recipients that [automated_send] reads from [GMAIL_AUTO_RECIPIENTS]:
    they are the pieces of the variable between its commas, without the
    white space around them and without the pieces that are blank, in the
    order of the variable.  None of them is empty, holds a comma, or begins
    or ends with white space. *)
Theorem auto_recipients_clean (env : environ) :
  (exists pieces,
     join (lit ",") pieces = getenv (GMAIL_AUTO_RECIPIENTS env) []
     /\ auto_recipients env
        = List.map strip
            (List.filter (fun r => match strip r with [] => false | _ => true end) pieces))
  /\ Forall (fun r => r <> [] /\ ~ In 44%N r /\ trimmed r) (auto_recipients env).
Proof.
  unfold auto_recipients. split.
  - exists (split 44 (getenv (GMAIL_AUTO_RECIPIENTS env) [])). split; [|done].
    apply (split_join 44).
  - pose proof (split_pieces 44 (getenv (GMAIL_AUTO_RECIPIENTS env) [])) as Hp.
    rewrite List.Forall_forall in *. intros r Hr.
    apply in_map_iff in Hr as (piece & <- & Hin).
    apply filter_In in Hin as [Hin Hne].
    destruct (strip_spec piece) as (pre & post & Hpiece & _ & _ & Htrim).
    split; [by destruct (strip piece)|]. split; [|done].
    intros Hc. apply (Hp piece Hin). rewrite Hpiece.
    apply in_or_app. right. apply in_or_app. by left.
Qed.

Example auto_recipients_example :
  auto_recipients (mkenviron None None None None None None
                     (Some (lit " a@example.com , ,b@example.com,")))
  = [lit "a@example.com"; lit "b@example.com"].
Proof. reflexivity. Qed.

(** X10: [automated_send] hands messages to the transport for configured
    recipients only.  Without credentials, or without a recipient in
    [GMAIL_AUTO_RECIPIENTS], it prints one line, opens no session and sends
    and logs nothing; and with a send log that is absent or readable, every
    message that it hands to the transport is addressed to one of the
    configured recipients alone. *)
Theorem automated_send_only_configured (env : environ) (w : world) :
  email_send_log_json w <> Corrupt ->
  let w' := automated_send env w in
  (is_ok (GmailSender.__init__ env) = false \/ auto_recipients env = [] ->
   (exists line, console w' = console w ++ [line])
   /\ outbox w' = outbox w /\ sessions w' = sessions w
   /\ email_send_log_json w' = email_send_log_json w)
  /\ exists sent,
       outbox w' = outbox w ++ sent
       /\ Forall (fun m => exists r, snd m = [r] /\ In r (auto_recipients env)) sent.
Proof.
  intros Hlog. cbv zeta. unfold automated_send.
  destruct (GmailSender.__init__ env) as [sender|e]; cbn [is_ok].
  - destruct (auto_recipients env) as [|r rs] eqn:Hr.
    + split; [intros _; cbn [print console outbox sessions email_send_log_json]; eauto|].
      exists []. split; [by rewrite app_nil_r | apply List.Forall_nil].
    + split; [by intros [|]|]. cbv zeta.
      set (w1 := print _ w).
      destruct (send_to_multiple_effect sender w1 (r :: rs) None) as (w2 & He & Ho & _).
      destruct (send_each_accounting sender None (r :: rs) w1 [] [] Hlog)
        as (s & f & handed & sent & entries & _ & _ & Hsub & Ho' & Hm & _).
      cbv zeta in Ho'. rewrite He in Ho'. cbn [snd] in Ho'.
      exists sent. split; [by rewrite Ho, Ho'|].
      rewrite List.Forall_forall. intros m Hin.
      apply (in_map snd) in Hin. rewrite Hm in Hin.
      apply in_map_iff in Hin as (x & Hx & Hin). exists x. split; [done|].
      apply list_elem_of_In. eapply elem_of_sublist; [|exact Hsub].
      by apply list_elem_of_In.
  - split; [intros _; cbn [print console outbox sessions email_send_log_json]; eauto|].
    exists []. split; [by rewrite app_nil_r | apply List.Forall_nil].
Qed.

Lemma automated_send_only_configured_witness :
  let env := mkenviron None None None (Some (lit "reports@example.com")) (Some (lit "secret"))
               None (Some (lit "a@example.com, b@example.com")) in
  let w := Sample.world_of Sample.posts (fun _ => Accepts) in
  email_send_log_json w <> Corrupt
  /\ exists sent,
       outbox (automated_send env w) = sent
       /\ Forall (fun m => exists r, snd m = [r] /\ In r (auto_recipients env)) sent.
Proof.
  intros env w.
  assert (Hlog : email_send_log_json w <> Corrupt) by discriminate.
  split; [exact Hlog|].
  destruct (automated_send_only_configured env w Hlog) as (_ & sent & Ho & Hs).
  exists sent. split; [exact Ho | exact Hs].
Defined.

(** ** Displaying and exporting the fetched records *)

Lemma run_prints_frame (steps : list (result (option (list N)))) :
  forall w,
    blog_posts_due_json (snd (run_prints steps w)) = blog_posts_due_json w
    /\ http (snd (run_prints steps w)) = http w
    /\ now (snd (run_prints steps w)) = now w
    /\ console w `prefix_of` console (snd (run_prints steps w)).
Proof.
  induction steps as [|[[line|]|e] steps IH]; intros w; cbn [run_prints snd]; try done.
  destruct (IH (print line w)) as (-> & -> & -> & Hc). repeat split.
  etrans; [apply print_grows | exact Hc].
Qed.

Lemma run_prints_ok (steps : list (result (option (list N)))) :
  Forall (fun step => exists line, step = Ok line) steps ->
  forall w, fst (run_prints steps w) = Ok tt.
Proof.
  induction 1 as [|step steps [[line|] ->] _ IH]; intros w; cbn [run_prints]; [done|..];
    apply IH.
Qed.

Lemma display_post_ok (p : gmap (list N) value) :
  displayable p -> Forall (fun step => exists line, step = Ok line) (display_post p).
Proof.
  intros Hd.
  destruct (displayable_entries p Hd)
    as (title & due & status & author & priority & category & target & notes
        & Ht & Hdue & Hs & Ha & Hp & Hc & Hw & Hnotes & Htext).
  unfold display_post, getitem. rewrite Ht, Hdue, Hs, Ha, Hp, Hc, Hw, Hnotes.
  cbn [bind]. unfold textual in Htext.
  repeat (apply List.Forall_cons; [by eauto|]).
  apply List.Forall_cons; [by destruct (truthy category); eauto|].
  apply List.Forall_cons; [by destruct (truthy target); eauto|].
  apply List.Forall_cons; [|apply List.Forall_nil].
  destruct (truthy notes); [|by eauto].
  destruct (Htext eq_refl) as [s ->]. cbn [slice len bind]. eauto.
Qed.

Lemma display_posts_ok (posts : list (gmap (list N) value)) (w : world) :
  Forall displayable posts -> fst (display_posts posts w) = Ok tt.
Proof.
  intros H. unfold display_posts. destruct posts as [|p posts]; [done|]. cbv zeta.
  match goal with |- context [run_prints ?steps ?w0] =>
    pose proof (run_prints_ok steps) as Hok;
    destruct (run_prints steps w0) as [[[]|e] w1] eqn:Hr end; [done|].
  exfalso. specialize (Hok
    ltac:(apply Forall_concat; apply List.Forall_forall; intros steps Hin;
          apply in_map_iff in Hin as (q & <- & Hq);
          apply display_post_ok; rewrite List.Forall_forall in H; by apply H)).
  match type of Hr with run_prints ?steps ?w0 = _ => specialize (Hok w0) end.
  by rewrite Hr in Hok.
Qed.

Lemma display_posts_frame (posts : list (gmap (list N) value)) (w : world) :
  blog_posts_due_json (snd (display_posts posts w)) = blog_posts_due_json w
  /\ console w `prefix_of` console (snd (display_posts posts w)).
Proof.
  unfold display_posts. destruct posts as [|p posts].
  - split; [done | apply print_grows].
  - cbv zeta.
    match goal with |- context [run_prints ?steps ?w0] =>
      destruct (run_prints_frame steps w0) as (Hf & _ & _ & Hc);
      destruct (run_prints steps w0) as [[[]|e] w1] end; cbn [snd] in *.
    + split; [exact Hf|]. etrans; [|apply print_grows].
      etrans; [|exact Hc]. etrans; [|apply print_grows]. apply print_grows.
    + split; [exact Hf|].
      etrans; [|exact Hc]. etrans; [|apply print_grows]. apply print_grows.
Qed.

Lemma prints_app (l1 l2 : list (list N)) (w : world) :
  prints (l1 ++ l2) w = prints l2 (prints l1 w).
Proof. unfold prints. apply fold_left_app. Qed.

Lemma run_prints_prints (steps : list (result (option (list N)))) :
  forall w, exists lines, snd (run_prints steps w) = prints lines w.
Proof.
  induction steps as [|[[line|]|e] steps IH]; intros w; cbn [run_prints snd].
  - by exists [].
  - destruct (IH (print line w)) as [lines ->]. by exists (line :: lines).
  - apply IH.
  - by exists [].
Qed.

Lemma display_posts_prints (posts : list (gmap (list N) value)) (w : world) :
  exists lines, snd (display_posts posts w) = prints lines w.
Proof.
  unfold display_posts. destruct posts as [|p posts].
  - by eexists [_].
  - cbv zeta.
    match goal with |- context [run_prints ?steps (print ?l2 (print ?l1 w))] =>
      destruct (run_prints_prints steps (print l2 (print l1 w))) as [lines Hl];
      destruct (run_prints steps (print l2 (print l1 w))) as [[[]|e] w1];
      cbn [snd] in Hl |- *; subst w1;
      [eexists ([l1; l2] ++ lines ++ [_]) | exists ([l1; l2] ++ lines)]
    end.
    + by rewrite !prints_app.
    + by rewrite prints_app.
Qed.

(** What [prints] leaves as it is: everything but the console, which gets
    the lines. *)
Lemma prints_only_console (lines : list (list N)) :
  forall w,
    prints lines w
    = mkworld (now w) (AIRTABLE_DUE_DATE_FIELD w) (GMAIL_ATTACH_JSON w) (http w) (smtp w)
        (describe w) (repr w) (iso_beyond w) (sessions w) (blog_posts_due_json w)
        (email_send_log_json w) (blog_posts_report_md w) (blog_posts_csv w) (outbox w)
        (console w ++ lines).
Proof.
  unfold prints. induction lines as [|l ls IH]; intros w; cbn [fold_left].
  - rewrite app_nil_r. by destruct w.
  - rewrite IH. cbn [print now AIRTABLE_DUE_DATE_FIELD GMAIL_ATTACH_JSON http smtp describe
      repr iso_beyond sessions blog_posts_due_json email_send_log_json blog_posts_report_md
      blog_posts_csv outbox console]. by rewrite <- app_assoc.
Qed.

(** X11: [display_posts] prints every record set that has the entries of the
    data model and notes that are empty or a text, also when a record has no
    days until due (it then shows N/A); for the empty record set it prints
    the one line that says so.  It changes nothing but the console: the
    world after it is the world before it with lines added to the console. *)
Theorem display_posts_total (posts : list (gmap (list N) value)) (w : world) :
  Forall displayable posts ->
  fst (display_posts posts w) = Ok tt
  /\ (exists lines,
        snd (display_posts posts w)
        = mkworld (now w) (AIRTABLE_DUE_DATE_FIELD w) (GMAIL_ATTACH_JSON w) (http w) (smtp w)
            (describe w) (repr w) (iso_beyond w) (sessions w) (blog_posts_due_json w)
            (email_send_log_json w) (blog_posts_report_md w) (blog_posts_csv w) (outbox w)
            (console w ++ lines))
  /\ blog_posts_due_json (snd (display_posts posts w)) = blog_posts_due_json w
  /\ console w `prefix_of` console (snd (display_posts posts w))
  /\ (posts = [] ->
      console (snd (display_posts posts w))
      = console w ++ [lit "No blog posts due this week."]).
Proof.
  intros H. split; [by apply display_posts_ok|].
  split.
  { destruct (display_posts_prints posts w) as [lines ->]. exists lines.
    apply prints_only_console. }
  destruct (display_posts_frame posts w) as [Hf Hc].
  split; [done|]. split; [done|]. by intros ->.
Qed.

Lemma display_posts_total_witness :
  Forall displayable [Sample.post_undated "B"]
  /\ fst (display_posts [Sample.post_undated "B"] Sample.w0) = Ok tt
  /\ nth 3 (console (snd (display_posts [Sample.post_undated "B"] Sample.w0))) []
     = lit "   Due: None (N/A days)".
Proof.
  assert (H : Forall displayable [Sample.post_undated "B"]).
  { apply List.Forall_cons; [|apply List.Forall_nil]. split.
    - repeat (apply List.Forall_cons; [by eexists|]). apply List.Forall_nil.
    - exists (VStr []). split; [reflexivity|]. intros Htr. discriminate Htr. }
  split; [exact H|]. split; [|reflexivity].
  exact (proj1 (display_posts_total [Sample.post_undated "B"] Sample.w0 H)).
Defined.

Lemma process_records_print (line : list N) (w : world) (records : list raw_record) :
  _process_records (print line w) records = _process_records w records.
Proof.
  induction records as [|r rs IH]; cbn [_process_records]; [done|]. by rewrite IH.
Qed.

Lemma get_posts_frame (self : AirtableBlogFetcher.t) (w : world) :
  blog_posts_due_json (snd (get_posts_due_this_week self w)) = blog_posts_due_json w.
Proof.
  unfold get_posts_due_this_week. by destruct (http w (build_request self w)).
Qed.

(** X12: [fetch_and_export.main] rewrites the record file exactly when it returns
    a record set that is not empty, and the file then holds that record set.
    When it returns the empty list, because nothing is due, the request
    failed, the credentials are missing or a record could not be processed
    or displayed, the file of an earlier run stays as it is. *)
Theorem fetch_and_export_rewrites_when_nonempty (env : environ) (w : world) :
  let result := FetchAndExport.main env w in
  blog_posts_due_json (snd result)
  = match fst result with
    | [] => blog_posts_due_json w
    | _ :: _ => Document (fst result)
    end.
Proof.
  cbv zeta. unfold FetchAndExport.main.
  destruct (AirtableBlogFetcher.__init__ env) as [fetcher|e]; [|done]. cbv zeta.
  match goal with |- context [get_posts_due_this_week fetcher ?w0] =>
    pose proof (get_posts_frame fetcher w0) as Hg;
    destruct (get_posts_due_this_week fetcher w0) as [[posts|e] w1] end;
    cbn [snd] in Hg; [|exact Hg].
  pose proof (display_posts_frame posts w1) as [Hd _].
  destruct (display_posts posts w1) as [[[]|e] w2]; cbn [snd] in Hd.
  - destruct posts as [|p posts]; [|done]. cbn [fst snd]. by rewrite Hd, Hg.
  - cbn [fst snd print blog_posts_due_json]. by rewrite Hd, Hg.
Qed.

(** X13: With credentials, a response of the service that holds records, and
    records that have a calendar date as due date and notes that are absent,
    empty or a text, [fetch_and_export.main] returns the normalised records
    and leaves them in the record file, and the reports of that file are
    produced. *)
Theorem fetch_and_export_success (env : environ) (w : world)
    (fetcher : AirtableBlogFetcher.t) (record : raw_record) (records : list raw_record) :
  AirtableBlogFetcher.__init__ env = Ok fetcher ->
  http w (build_request fetcher w) = Success (Some (record :: records)) ->
  Forall (well_formed w) (record :: records) ->
  let result := FetchAndExport.main env w in
  _process_records w (record :: records) = Ok (fst result)
  /\ blog_posts_due_json (snd result) = Document (fst result)
  /\ (exists html, create_html_email (snd result) (fst result) = Ok html)
  /\ (exists text, create_plain_text_email (snd result) (fst result) = Ok text).
Proof.
  intros Hinit Hhttp Hwf. cbv zeta.
  destruct (process_records_renderable w _ Hwf) as (posts & Hp & Hr & Hl).
  unfold FetchAndExport.main. rewrite Hinit. cbv zeta.
  unfold get_posts_due_this_week.
  change (http (print ?l w) (build_request fetcher (print ?l w)))
    with (http w (build_request fetcher w)).
  rewrite Hhttp. cbn [default id]. rewrite process_records_print, Hp. cbv beta iota zeta.
  assert (Hd : Forall displayable posts).
  { eapply List.Forall_impl; [|exact Hr]. by intros p [? _]. }
  match goal with |- context [display_posts posts ?w0] =>
    pose proof (display_posts_ok posts w0 Hd) as Hok;
    destruct (display_posts posts w0) as [[[]|e] w2] end; cbn [fst] in Hok; [|done].
  destruct posts as [|p posts]; [done|]. cbn [fst snd].
  split; [done|]. split; [done|].
  destruct (reports_ok
              (print ([10%N] ++ [128202%N] ++ lit " Summary: "
                      ++ str_of_Z (Z.of_nat (length (p :: posts)))
                      ++ lit " blog posts due this week")
                 (export_to_json (p :: posts) w2)) (p :: posts) Hr) as (Hh & Ht & _).
  split; [exact Hh | exact Ht].
Qed.

Lemma fetch_and_export_success_witness :
  let env := mkenviron (Some (lit "key")) (Some (lit "appBASE")) None None None None None in
  let result := FetchAndExport.main env Sample.w0 in
  Forall (well_formed Sample.w0) Sample.table
  /\ length (fst result) = 3%nat
  /\ blog_posts_due_json (snd result) = Document (fst result).
Proof.
  intros env result. split; [exact sample_table_well_formed|].
  destruct (fetch_and_export_success env Sample.w0 Sample.fetcher
              (Sample.record "rec1" "A" "2025-01-10")
              [Sample.record "rec2" "B" "2025-01-10"; Sample.record "rec3" "C" "2025-01-12"]
              eq_refl eq_refl sample_table_well_formed) as (_ & Hf & _).
  split; [reflexivity | exact Hf].
Defined.

(** X14: [airtable_blog_fetcher.main] writes the record file only on request: the
    file is rewritten, with the record set that [main] returns, exactly when
    that record set is not empty and the operator answers y or Y; in every
    other case the file stays as it is. *)
Theorem main_exports_on_request (env : environ) (answer : list N) (w : world) :
  let result := AirtableBlogFetcher.main env answer w in
  blog_posts_due_json (snd result)
  = match fst result with
    | [] => blog_posts_due_json w
    | _ :: _ =>
        if decide (answer = lit "y" \/ answer = lit "Y")
        then Document (fst result) else blog_posts_due_json w
    end.
Proof.
  assert (Hframe : forall e w0,
             fst (AirtableBlogFetcher.on_exception e w0) = []
             /\ blog_posts_due_json (snd (AirtableBlogFetcher.on_exception e w0))
                = blog_posts_due_json w0).
  { intros e w0. by destruct e. }
  cbv zeta. unfold AirtableBlogFetcher.main.
  destruct (AirtableBlogFetcher.__init__ env) as [fetcher|e].
  2: { destruct (Hframe e w) as [-> ->]. done. }
  cbv zeta.
  match goal with |- context [get_posts_due_this_week fetcher ?w0] =>
    pose proof (get_posts_frame fetcher w0) as Hg;
    destruct (get_posts_due_this_week fetcher w0) as [[posts|e] w1] end;
    cbn [snd] in Hg.
  2: { destruct (Hframe e w1) as [-> ->]. exact Hg. }
  pose proof (display_posts_frame posts w1) as [Hd _].
  destruct (display_posts posts w1) as [[[]|e] w2]; cbn [snd] in Hd.
  2: { destruct (Hframe e w2) as [-> ->]. by rewrite Hd, Hg. }
  destruct posts as [|p posts]; [cbn [fst snd]; by rewrite Hd, Hg|].
  assert (Hy : ascii_lower answer = lit "y" <-> answer = lit "y" \/ answer = lit "Y").
  { change (lit "y") with [121%N]. change (lit "Y") with [89%N]. split.
    - destruct answer as [|c [|c' s]]; [done| |done]. cbn [ascii_lower List.map].
      intros [= Hc].
      destruct (N.leb 65 c && N.leb c 90) eqn:Hr.
      + right. f_equal. lia.
      + left. by rewrite Hc.
    - by intros [-> | ->]. }
  destruct (decide (ascii_lower answer = lit "y")) as [Hl|Hl].
  - rewrite decide_True by by apply Hy. done.
  - rewrite decide_False by (by rewrite <- Hy). cbn [fst snd print blog_posts_due_json].
    by rewrite Hd, Hg.
Qed.

(** X15: A due date that [datetime.fromisoformat] does not read makes
    [_process_records] raise [ValueError]; [airtable_blog_fetcher.main]
    takes it for a missing credential: it prints the configuration error
    with the instructions for the [.env] file, returns the empty list and
    leaves the record file as it is. *)
Theorem main_reports_bad_date_as_configuration (env : environ) (answer : list N) (w : world)
    (fetcher : AirtableBlogFetcher.t) (records : list raw_record) :
  AirtableBlogFetcher.__init__ env = Ok fetcher ->
  http w (build_request fetcher w) = Success (Some records) ->
  _process_records w records = Raise ValueError ->
  let result := AirtableBlogFetcher.main env answer w in
  fst result = []
  /\ blog_posts_due_json (snd result) = blog_posts_due_json w
  /\ console (snd result)
     = console w
       ++ [[63743%N; 252%N; 238%N; 231%N] ++ lit " Fetching blog posts from Airtable...";
           [8218%N; 249%N; 229%N] ++ lit " Configuration Error: " ++ describe w ValueError;
           [10%N] ++ lit "Please ensure you have set up your .env file with:";
           lit "  - AIRTABLE_API_KEY";
           lit "  - AIRTABLE_BASE_ID";
           lit "  - AIRTABLE_TABLE_NAME (optional, defaults to 'Blog Posts')";
           lit "  - AIRTABLE_DUE_DATE_FIELD (optional, defaults to 'Due Date')"].
Proof.
  intros Hinit Hhttp Hp. cbv zeta. unfold AirtableBlogFetcher.main.
  rewrite Hinit. cbv zeta. unfold get_posts_due_this_week.
  change (http (print ?l w) (build_request fetcher (print ?l w)))
    with (http w (build_request fetcher w)).
  rewrite Hhttp. cbn [default id]. rewrite process_records_print, Hp.
  cbn [AirtableBlogFetcher.on_exception fst snd].
  split; [done|].
  unfold prints. cbn [fold_left print blog_posts_due_json console describe].
  split; [done|]. by rewrite <- !app_assoc.
Qed.

Lemma main_reports_bad_date_as_configuration_witness :
  let env := mkenviron (Some (lit "key")) (Some (lit "appBASE")) None None None None None in
  let record := mkraw (Some (VStr (lit "rec9")))
                  (Some (Sample.fields_of [Sample.entry "Title" (VStr (lit "D"));
                                           Sample.entry "Due Date" (VStr (lit "soon"))])) in
  let w := Sample.world_with [record] (fun _ => Accepts) in
  _process_records w [record] = Raise ValueError
  /\ fst (AirtableBlogFetcher.main env (lit "y") w) = [].
Proof.
  intros env record w.
  assert (H : _process_records w [record] = Raise ValueError) by reflexivity.
  split; [exact H|].
  exact (proj1 (main_reports_bad_date_as_configuration env (lit "y") w Sample.fetcher
                  [record] eq_refl eq_refl H)).
Defined.

(** ** The excerpt of the notes *)

(** X16: The excerpt of the notes in the plain-text message (budget 100) and in
    the HTML message (budget 150): notes within the budget are shown as they
    are; longer notes are cut to the budget and followed by three dots, so
    the excerpt never has more than the budget and three characters.  Notes
    that are not a text raise [TypeError]. *)
Theorem notes_excerpt_budget (budget : nat) (notes : value) :
  match notes with
  | VStr s =>
      exists shown,
        notes_preview budget notes = Ok (VStr shown)
        /\ (length shown <= budget + 3)%nat
        /\ firstn budget shown = firstn budget s
        /\ ((length s <= budget)%nat -> shown = s)
        /\ ((budget < length s)%nat -> shown = firstn budget s ++ lit "...")
  | _ => notes_preview budget notes = Raise TypeError
  end.
Proof.
  destruct notes as [| | |s]; try reflexivity.
  rewrite notes_preview_str. destruct (Nat.ltb budget (length s)) eqn:E.
  - apply Nat.ltb_lt in E. eexists. split; [reflexivity|].
    split; [rewrite length_app, length_firstn; cbn [length lit]; vm_compute length; lia|].
    split; [|split; [lia | done]].
    rewrite firstn_app, length_firstn.
    replace (budget - Nat.min budget (length s))%nat with 0%nat by lia.
    cbn [firstn]. rewrite app_nil_r. rewrite firstn_firstn. f_equal. lia.
  - apply Nat.ltb_ge in E. exists s. split; [reflexivity|].
    split; [lia|]. split; [done|]. split; [done | lia].
Qed.

(** ** What the Markdown report reads *)

Lemma same_markdown_getitem (p q : gmap (list N) value) :
  same_markdown_fields p q ->
  getitem p (lit "due_date") = getitem q (lit "due_date")
  /\ getitem p (lit "title") = getitem q (lit "title")
  /\ getitem p (lit "status") = getitem q (lit "status")
  /\ getitem p (lit "priority") = getitem q (lit "priority")
  /\ getitem p (lit "word_count_target") = getitem q (lit "word_count_target")
  /\ getitem p (lit "notes") = getitem q (lit "notes").
Proof.
  unfold same_markdown_fields, getitem. intros H.
  repeat (apply List.Forall_cons_iff in H as [-> H]). done.
Qed.

Lemma markdown_entry_same (p q : gmap (list N) value) :
  same_markdown_fields p q -> markdown_entry p = markdown_entry q.
Proof.
  intros H. destruct (same_markdown_getitem p q H) as (_ & Ht & Hs & Hp & Hw & Hn).
  unfold markdown_entry. by rewrite Ht, Hs, Hp, Hw, Hn.
Qed.

Lemma markdown_entries_same (ps qs : list (gmap (list N) value)) :
  Forall2 same_markdown_fields ps qs -> markdown_entries ps = markdown_entries qs.
Proof.
  induction 1 as [|p q ps qs Hpq _ IH]; cbn [markdown_entries]; [done|].
  by rewrite (markdown_entry_same p q Hpq), IH.
Qed.

Lemma append_to_same (k : value) (p q : gmap (list N) value)
    (g g' : list (value * list (gmap (list N) value))) :
  same_markdown_fields p q -> same_groups g g' ->
  same_groups (append_to k p g) (append_to k q g').
Proof.
  intros Hpq. unfold same_groups.
  induction 1 as [|[k1 ps] [k2 qs] g g' [Hk Hps] Htl IH]; cbn [append_to].
  - constructor; [|constructor]. split; [done|]. constructor; [done | constructor].
  - cbn [fst snd] in Hk, Hps. subst k2. destruct (value_eqb k1 k).
    + constructor; [|done]. split; [done|]. cbn [snd].
      apply Forall2_app; [done|]. constructor; [done | constructor].
    + constructor; [by split | done].
Qed.

Lemma group_of_same (k : value) (g g' : list (value * list (gmap (list N) value))) :
  same_groups g g' -> Forall2 same_markdown_fields (group_of k g) (group_of k g').
Proof.
  induction 1 as [|[k1 ps] [k2 qs] g g' [Hk Hps] _ IH]; cbn [group_of]; [constructor|].
  cbn [fst snd] in Hk, Hps. subst k2. by destruct (value_eqb k1 k).
Qed.

Lemma keys_same (g g' : list (value * list (gmap (list N) value))) :
  same_groups g g' -> List.map fst g = List.map fst g'.
Proof.
  induction 1 as [|e e' g g' [Hk _] _ IH]; cbn [List.map]; [done|]. by rewrite Hk, IH.
Qed.

Lemma group_by_date_same (posts posts' : list (gmap (list N) value)) :
  Forall2 same_markdown_fields posts posts' ->
  forall acc acc', same_groups acc acc' ->
    match group_by_date posts acc, group_by_date posts' acc' with
    | Ok g, Ok g' => same_groups g g'
    | Raise e, Raise e' => e = e'
    | _, _ => False
    end.
Proof.
  induction 1 as [|p q ps qs Hpq _ IH]; intros acc acc' Hacc; cbn [group_by_date]; [done|].
  destruct (same_markdown_getitem p q Hpq) as (<- & _).
  destruct (getitem p (lit "due_date")) as [k|e]; cbn [bind]; [|done].
  apply IH. by apply append_to_same.
Qed.

Lemma markdown_sections_same (w : world) (g g' : list (value * list (gmap (list N) value)))
    (dates : list value) :
  same_groups g g' -> markdown_sections w g dates = markdown_sections w g' dates.
Proof.
  intros H. induction dates as [|d dates IH]; cbn [markdown_sections]; [done|].
  unfold markdown_section. rewrite IH.
  by rewrite (markdown_entries_same _ _ (group_of_same d g g' H)).
Qed.

(** X17: The Markdown report reads six entries of a record: the due date, the
    title, the status, the priority, the target word count and the notes.
    Record sets that agree on these entries, record by record, have the same
    report, whether it is produced or raises.  In particular the report is
    the same without the days until due, which it does not show. *)
Theorem markdown_report_reads_six_entries (w : world)
    (posts posts' : list (gmap (list N) value)) :
  Forall2 same_markdown_fields posts posts' ->
  markdown_report w posts = markdown_report w posts'
  /\ markdown_report w (List.map (delete (lit "days_until_due")) posts)
     = markdown_report w posts.
Proof.
  assert (H : forall ps qs, Forall2 same_markdown_fields ps qs ->
                            markdown_report w ps = markdown_report w qs).
  { intros ps qs Hs. unfold markdown_report.
    pose proof (group_by_date_same ps qs Hs [] [] ltac:(constructor)) as Hg.
    rewrite (Forall2_length _ _ _ Hs).
    destruct (group_by_date ps []) as [g|e], (group_by_date qs []) as [g'|e'];
      try done; cbn [bind]; [|by subst].
    rewrite (keys_same g g' Hg). destruct (sorted (List.map fst g')); cbn [bind]; [|done].
    by rewrite (markdown_sections_same w g g' a Hg). }
  intros Hs. split; [by apply H|]. apply H.
  clear. induction posts as [|p posts IH]; cbn [List.map]; constructor; [|done].
  unfold same_markdown_fields.
  repeat (apply List.Forall_cons; [by rewrite lookup_delete_ne|]). apply List.Forall_nil.
Qed.

Lemma markdown_report_reads_six_entries_witness :
  Forall2 same_markdown_fields
    [Sample.post_of "A" "2025-01-10" 1 ""] [Sample.post_of "A" "2025-01-10" 3 ""]
  /\ markdown_report Sample.w0 [Sample.post_of "A" "2025-01-10" 1 ""]
     = markdown_report Sample.w0 [Sample.post_of "A" "2025-01-10" 3 ""].
Proof.
  assert (H : Forall2 same_markdown_fields
                [Sample.post_of "A" "2025-01-10" 1 ""] [Sample.post_of "A" "2025-01-10" 3 ""]).
  { constructor; [|constructor].
    repeat (apply List.Forall_cons; [reflexivity|]). apply List.Forall_nil. }
  split; [exact H|].
  exact (proj1 (markdown_report_reads_six_entries Sample.w0 _ _ H)).
Defined.

(** ** A run that fetches nothing *)

(** X18: When the service has no record in the window, [fetch_and_export.main]
    returns the empty list and does not touch the record file; a message
    composed afterwards is composed from the record set of the earlier run
    that the file still holds. *)
Theorem empty_fetch_keeps_earlier_records (env : environ) (w : world)
    (fetcher : AirtableBlogFetcher.t) (self : GmailSender.t)
    (earlier : list (gmap (list N) value))
    (recipient : list N) (subject : option (list N)) (cc bcc : option addresses) :
  AirtableBlogFetcher.__init__ env = Ok fetcher ->
  http w (build_request fetcher w) = Success (Some []) ->
  blog_posts_due_json w = Document earlier ->
  Forall renderable earlier ->
  let result := FetchAndExport.main env w in
  fst result = []
  /\ blog_posts_due_json (snd result) = Document earlier
  /\ exists msg,
       create_message self (snd result) recipient subject cc bcc = Ok (msg, earlier).
Proof.
  intros Hinit Hhttp Hfile Hr. cbv zeta.
  assert (Hres : fst (FetchAndExport.main env w) = []
                 /\ blog_posts_due_json (snd (FetchAndExport.main env w)) = Document earlier).
  { unfold FetchAndExport.main. rewrite Hinit. cbv zeta. unfold get_posts_due_this_week.
    change (http (print ?l w) (build_request fetcher (print ?l w)))
      with (http w (build_request fetcher w)).
    rewrite Hhttp. cbn [default id _process_records display_posts fst snd
                         print blog_posts_due_json]. done. }
  destruct Hres as [Hfst Hsnd]. split; [done|]. split; [done|].
  by apply create_message_ok.
Qed.

Lemma empty_fetch_keeps_earlier_records_witness :
  let env := mkenviron (Some (lit "key")) (Some (lit "appBASE")) None None None None None in
  let w := Sample.world_of Sample.posts (fun _ => Accepts) in
  blog_posts_due_json w = Document Sample.posts
  /\ fst (FetchAndExport.main env w) = []
  /\ blog_posts_due_json (snd (FetchAndExport.main env w)) = Document Sample.posts.
Proof.
  intros env w. split; [reflexivity|].
  destruct (empty_fetch_keeps_earlier_records env w Sample.fetcher Sample.sender Sample.posts
              (lit "a@example.com") None None None eq_refl eq_refl eq_refl
              sample_posts_renderable) as (H1 & H2 & _).
  split; [exact H1 | exact H2].
Defined.

(** ** The calendar on examples *)

Example toordinal_ex :
  toordinal (mkdate 2025 1 9) = 739260
  /\ fromordinal 739260 = mkdate 2025 1 9
  /\ add_days (mkdate 2024 2 26) 7 = mkdate 2024 3 4
  /\ calendar_date (lit "2025-01-12") = Some (mkdate 2025 1 12)
  /\ calendar_date (lit "2025-02-29") = None
  /\ strftime_long (mkdate 2025 1 10) = lit "Friday, January 10, 2025"
  /\ isoformat (mkdate 2025 1 9) = lit "2025-01-09".
Proof. vm_compute. repeat split. Qed.

(** The dates that [fromisoformat] reads: a string of the calendar form as
    every interpreter does, any other string as the interpreter of the world
    does, here one that reads a date with a time of day. *)
Example fromisoformat_ex :
  let reads := fun s => if decide (s = lit "2025-01-10T10:00:00")
                        then Some (mkdate 2025 1 10) else None in
  let w := mkworld (Sample.clock 2025 1 9) None None (fun _ => Success None)
             (fun _ => Accepts) (fun _ => lit "error") (fun s => s) reads
             0 Absent Absent None None [] [] in
  fromisoformat w (VStr (lit "2025-01-12")) = Ok (mkdate 2025 1 12)
  /\ fromisoformat w (VStr (lit "2025-02-30")) = Raise ValueError
  /\ fromisoformat w (VStr (lit "2025-01-10T10:00:00")) = Ok (mkdate 2025 1 10)
  /\ fromisoformat w (VStr (lit "soon")) = Raise ValueError
  /\ fromisoformat w (VInt 20250110) = Raise TypeError.
Proof. repeat split; reflexivity. Qed.

(** A session that refuses the [QUIT] after the message was sent and
    logged: [send_email] returns [False], and the transport has the message
    and the log its entry. *)
Example send_email_quit_refused :
  let w := Sample.world_of Sample.posts (fun _ => QuitRefused Completed (lit "busy")) in
  let result := send_email Sample.sender w (lit "a@example.com") None None None false in
  fst result = false
  /\ List.map snd (outbox (snd result)) = [[lit "a@example.com"]]
  /\ List.map recipient (log_of (snd result)) = [lit "a@example.com"]
  /\ last (console (snd result)) = Some ([10060%N] ++ lit " Error sending email: error").
Proof. repeat split; reflexivity. Qed.
